(** * goose-jira-analyzer: a shallow embedding of the JIRA analyzer

    The repository holds four Python files:
      - [jira_analyzer/analyzer.py]   the analyzer class ([Module Analyzer]),
      - [jira_analyzer/server.py]     its tool wrappers and the help resource
                                      ([Module ToolServer]),
      - [server.py]                   a two-operation variant ([Module Server]),
      - [jira_analyzer/src/server.py] a token-only variant ([Module TokenServer]).

    The third-party [jira] client is an external collaborator.  A session
    object is modelled by the answers its read methods give ([JIRA]): while
    one operation runs, the tracker's answer is a function of the request.
    Every use of the client is recorded in a trace of [call]s, so that
    statements such as "performs no remote call" are statements about that
    trace.  The recursion of the relationship walk is given fuel; the walk is
    shown to end with any fuel above the depth bound, with a result that does
    not depend on the fuel.  The interpreter's recursion limit is not
    modelled: on a chain of links deeper than that limit the code raises
    [RecursionError] where the model goes on, so what is stated of a walk
    is stated of what it fetches and of the map it returns when it returns.
    A Python [str] is represented by its UTF-8 encoding; [len] and slicing
    count characters, not bytes. *)

From Stdlib Require Import ZArith List Bool Ascii String Lia Permutation Sorted.
From stdpp Require Import base gmap strings list.

Open Scope string_scope.
Open Scope list_scope.
Open Scope Z_scope.

(** ** Python exceptions and the state-and-exception monad *)

(** An instance of [Exception]: its class name and the text [str(e)].
    Signals of the interpreter that are not instances of [Exception]
    ([KeyboardInterrupt], [SystemExit]) are outside the model. *)
Record exn := Exn { exn_class : string; exn_msg : string }.

Definition str (e : exn) : string := exn_msg e.

Inductive outcome (A : Type) : Type :=
| Return (a : A)
| Raise (e : exn).
Arguments Return {A} a.
Arguments Raise {A} e.

(** A Python statement sequence over a mutable state [S]. *)
Definition M (S A : Type) : Type := S -> outcome A * S.

Definition ret {S A} (a : A) : M S A := fun s => (Return a, s).

Definition raise {S A} (e : exn) : M S A := fun s => (Raise e, s).

Definition bind {S A B} (m : M S A) (k : A -> M S B) : M S B :=
  fun s => match m s with
           | (Return a, s') => k a s'
           | (Raise e, s') => (Raise e, s')
           end.

(** [try: body  except Exception as e: handler e].  The handler starts from
    the state the body had reached when it raised: Python undoes nothing. *)
Definition try_except {S A} (body : M S A) (handler : exn -> M S A) : M S A :=
  fun s => match body s with
           | (Return a, s') => (Return a, s')
           | (Raise e, s') => handler e s'
           end.

Declare Scope py_scope.
Delimit Scope py_scope with py.
Notation "x <- m ;; k" := (bind m (fun x => k))
  (at level 20, m at level 99, k at level 200, only parsing) : py_scope.
Open Scope py_scope.

(** Truthiness of an optional string: [None] and [''] are falsy. *)
Definition truthy (o : option string) : bool :=
  match o with
  | Some s => negb (String.eqb s "")
  | None => false
  end.

(** A Python [str] is represented by its UTF-8 encoding.  [len] counts its
    characters (code points): the bytes that do not continue a character,
    that is, all but those of the form 10xxxxxx. *)
Definition is_continuation (c : ascii) : bool :=
  let n := nat_of_ascii c in ((128 <=? n) && (n <? 192))%nat.

Fixpoint len (s : string) : nat :=
  match s with
  | EmptyString => O
  | String c rest => if is_continuation c then len rest else S (len rest)
  end.

(** [s[:n]]: the first [n] characters, each with all its bytes. *)
Fixpoint str_prefix (n : nat) (s : string) : string :=
  match s with
  | EmptyString => EmptyString
  | String c rest =>
      if is_continuation c then String c (str_prefix n rest)
      else match n with
           | O => EmptyString
           | S n' => String c (str_prefix n' rest)
           end
  end.

(** ** The remote tracker's data, as the client hands it out *)

Record Comment := {
  comment_author : string;        (* comment.author.displayName *)
  comment_created : string;
  comment_body : string;
  comment_updated : string
}.

Record ChangeItem := {
  item_field : string;
  item_fromString : option string;
  item_toString : option string
}.

Record History := {
  history_created : string;
  history_author : string;        (* history_item.author.displayName *)
  history_items : list ChangeItem
}.

(** The issue at the other end of a link: key, [fields.summary] and
    [fields.status.name]. *)
Record LinkedIssue := {
  linked_key : string;
  linked_summary : string;
  linked_status : string
}.

(** [hasattr(link, 'outwardIssue')] and [hasattr(link, 'inwardIssue')] are
    the two options. *)
Record IssueLink := {
  type_outward : string;
  type_inward : string;
  outwardIssue : option LinkedIssue;
  inwardIssue : option LinkedIssue
}.

Record Issue := {
  key : string;
  summary : string;
  description : option string;
  issuetype : string;             (* fields.issuetype.name *)
  status : string;                (* fields.status.name *)
  priority : option string;       (* fields.priority.name, when priority is set *)
  assignee : option string;       (* fields.assignee.displayName, when set *)
  reporter : string;              (* fields.reporter.displayName *)
  created : string;
  updated : string;
  components : list string;       (* the names c.name, in order *)
  labels : list string;
  comment : option (list Comment);       (* absent: no attribute [comment] *)
  changelog : option (list History);     (* absent: no attribute [changelog] *)
  issuelinks : option (list IssueLink)   (* absent: no attribute [issuelinks] *)
}.

Record Project := {
  project_key : string;
  project_name : string;
  project_lead : string;          (* project.lead.displayName *)
  project_description : string
}.

(** ** The client *)

Inductive auth :=
| basic_auth (username api_token : string)
| token_auth (api_token : option string).

(** The two ways the code builds a client: with an options dictionary, or
    with the server keyword. *)
Inductive ctor_args :=
| JIRA_options (verify : bool) (read_timeout : Z) (server : string) (a : auth)
| JIRA_server (server : string) (a : auth).

(** An open session: what each read method answers.  [project_components]
    is optional because the code asks [hasattr] for it. *)
Record JIRA := {
  server_url : string;
  api_issue : string -> option string -> outcome Issue;
  api_search_issues : string -> Z -> option string -> outcome (list Issue);
  api_project : string -> outcome Project;
  api_project_components : option (string -> outcome (list string));
  api_myself : outcome unit
}.

(** Session establishment, [JIRA(...)], answered by the network. *)
Definition network : Type := ctor_args -> outcome JIRA.

(** One use of the client.  The last six are write methods of the client's
    interface; they are listed so that a trace can be classified. *)
Inductive call :=
| Call_JIRA (args : ctor_args)
| Call_issue (issue_key : string) (expand : option string)
| Call_search_issues (jql : string) (maxResults : Z) (expand : option string)
| Call_project (pkey : string)
| Call_project_components (pkey : string)
| Call_myself
| Call_create_issue (fields : list (string * string))
| Call_add_comment (issue_key body : string)
| Call_create_issue_link (link_type inward outward : string)
| Call_transition_issue (issue_key transition : string)
| Call_assign_issue (issue_key user : string)
| Call_delete_issue (issue_key : string).

Definition mutates (c : call) : bool :=
  match c with
  | Call_JIRA _ | Call_issue _ _ | Call_search_issues _ _ _
  | Call_project _ | Call_project_components _ | Call_myself => false
  | _ => true
  end.

(** The analyzer object together with the trace of client calls, most
    recent first. *)
Record system (Obj : Type) := System { self : Obj; trace : list call }.
Arguments System {Obj} self trace.
Arguments self {Obj} s.
Arguments trace {Obj} s.

Definition log {Obj} (c : call) (s : system Obj) : system Obj :=
  System (self s) (c :: trace s).

Definition remote {Obj A} (c : call) (answer : outcome A) : M (system Obj) A :=
  fun s => (answer, log c s).

Definition not_connected : exn := Exn "Exception" "Not connected to JIRA".

Definition AttributeError (name : string) : exn := Exn "AttributeError" name.

(** ** Dictionaries that keep insertion order *)

Section Dict.
Context {V : Type}.

Fixpoint dict_get (k : string) (d : list (string * V)) : option V :=
  match d with
  | [] => None
  | (k', v) :: d' => if String.eqb k k' then Some v else dict_get k d'
  end.

(** [d[k] = v]: an existing key keeps its place, a new key goes last. *)
Fixpoint dict_set (k : string) (v : V) (d : list (string * V)) : list (string * V) :=
  match d with
  | [] => [(k, v)]
  | (k', v') :: d' =>
      if String.eqb k k' then (k, v) :: d' else (k', v') :: dict_set k v d'
  end.

Definition dict_keys (d : list (string * V)) : list string := map fst d.

End Dict.

(** [d[k] += 1] on a [defaultdict(int)], and [d[k] = d.get(k, 0) + 1]. *)
Definition incr (k : string) (d : list (string * nat)) : list (string * nat) :=
  dict_set k (S (default O (dict_get k d))) d.

Definition tally (ks : list string) (d : list (string * nat)) : list (string * nat) :=
  fold_left (fun acc k => incr k acc) ks d.

(** [d[k].append(x)] on a [defaultdict(list)]. *)
Definition dict_append {A} (k : string) (x : A) (d : list (string * list A))
  : list (string * list A) :=
  dict_set k (default [] (dict_get k d) ++ [x]) d.

(** [sorted(d.items(), key=lambda x: x[1], reverse=True)].  Python's sort is
    stable, also under [reverse=True]: of two items with the same count the
    one that comes first in [d] stays first.  A stable sort has one possible
    result, computed here by insertion. *)
Fixpoint insert_desc (x : string * nat) (l : list (string * nat)) : list (string * nat) :=
  match l with
  | [] => [x]
  | y :: l' => if (snd y <=? snd x)%nat then x :: y :: l' else y :: insert_desc x l'
  end.

Fixpoint sorted_desc (l : list (string * nat)) : list (string * nat) :=
  match l with
  | [] => []
  | x :: l' => insert_desc x (sorted_desc l')
  end.

(** * jira_analyzer/analyzer.py *)

Module Analyzer.

Record JiraAnalyzer := { jira : option JIRA }.

(** [__init__] *)
Definition init : JiraAnalyzer := {| jira := None |}.

Definition state : Type := system JiraAnalyzer.

(** [self.jira = JIRA(...)]: the constructor runs first; the attribute is
    assigned only when it returns. *)
Definition new_session (net : network) (args : ctor_args) : M state unit :=
  J <- remote (Call_JIRA args) (net args) ;;
  fun s => (Return tt, System {| jira := Some J |} (trace s)).

(** What [connect] returns: [True], or the text of the exception. *)
Inductive connect_result :=
| PyTrue
| PyStr (s : string).

Definition connect (net : network) (server : string)
    (username api_token : option string) : M state connect_result :=
  try_except
    (let options := JIRA_options true 30 server in
     assigned <- match username, api_token with
          | Some u, Some t =>
              if truthy username && truthy api_token
              then new_session net (options (basic_auth u t))
              else new_session net (options (token_auth api_token))
          | _, _ => new_session net (options (token_auth api_token))
          end ;;
     ret PyTrue)
    (fun e => ret (PyStr (str e))).

(** [if not self.jira: raise Exception("Not connected to JIRA")] *)
Definition connected : M state JIRA :=
  fun s => match jira (self s) with
           | None => (Raise not_connected, s)
           | Some J => (Return J, s)
           end.

(** An attribute the code reads without asking [hasattr] first. *)
Definition getattr {A} (name : string) (o : option A) : M state A :=
  match o with
  | Some a => ret a
  | None => raise (AttributeError name)
  end.

Record comment_record := {
  cr_author : string;
  cr_created : string;
  cr_body : string;
  cr_updated : string
}.

Record history_record := {
  hr_date : string;
  hr_author : string;
  hr_field : string;
  hr_from : option string;
  hr_to : option string
}.

Record link_record := {
  lr_type : string;
  lr_key : string;
  lr_status : string
}.

Record issue_details := {
  d_key : string;
  d_summary : string;
  d_description : option string;
  d_issue_type : string;
  d_status : string;
  d_priority : option string;
  d_assignee : option string;
  d_reporter : string;
  d_created : string;
  d_updated : string;
  d_components : list string;
  d_labels : list string;
  d_comments : list comment_record;
  d_history : list history_record;
  d_links : list link_record;
  d_url : string
}.

Definition browse_url (J : JIRA) (k : string) : string :=
  server_url J +:+ "/browse/" +:+ k.

Definition get_issue_details (issue_key : string) : M state issue_details :=
  J <- connected ;;
  issue <- remote (Call_issue issue_key (Some "changelog,comments"))
                  (api_issue J issue_key (Some "changelog,comments")) ;;
  cs <- getattr "comment" (comment issue) ;;
  let comments :=
    map (fun c => {| cr_author := comment_author c;
                     cr_created := comment_created c;
                     cr_body := comment_body c;
                     cr_updated := comment_updated c |}) cs in
  let history :=
    match changelog issue with
    | Some histories =>
        flat_map (fun history_item =>
          map (fun item => {| hr_date := history_created history_item;
                              hr_author := history_author history_item;
                              hr_field := item_field item;
                              hr_from := item_fromString item;
                              hr_to := item_toString item |})
              (history_items history_item)) histories
    | None => []
    end in
  let links :=
    match issuelinks issue with
    | Some ls =>
        flat_map (fun link =>
          match outwardIssue link with
          | Some o => [ {| lr_type := type_outward link;
                           lr_key := linked_key o;
                           lr_status := linked_status o |} ]
          | None => []
          end ++
          match inwardIssue link with
          | Some i => [ {| lr_type := type_inward link;
                           lr_key := linked_key i;
                           lr_status := linked_status i |} ]
          | None => []
          end) ls
    | None => []
    end in
  ret {| d_key := key issue;
         d_summary := summary issue;
         d_description := description issue;
         d_issue_type := issuetype issue;
         d_status := status issue;
         d_priority := priority issue;
         d_assignee := assignee issue;
         d_reporter := reporter issue;
         d_created := created issue;
         d_updated := updated issue;
         d_components := components issue;
         d_labels := labels issue;
         d_comments := comments;
         d_history := history;
         d_links := links;
         d_url := browse_url J (key issue) |}.

Record issue_summary := {
  s_key : string;
  s_summary : string;
  s_type : string;
  s_status : string;
  s_priority : option string;
  s_assignee : option string;
  s_created : string;
  s_updated : string;
  s_url : string
}.

Definition search_issues (project_key : string) (jql_filters : option string)
    (max_results : Z) : M state (list issue_summary) :=
  J <- connected ;;
  let base_jql := "project = " +:+ project_key in
  let base_jql :=
    match jql_filters with
    | Some f => if truthy jql_filters then base_jql +:+ " AND " +:+ f else base_jql
    | None => base_jql
    end in
  issues <- remote (Call_search_issues base_jql max_results None)
                   (api_search_issues J base_jql max_results None) ;;
  ret (map (fun issue => {| s_key := key issue;
                            s_summary := summary issue;
                            s_type := issuetype issue;
                            s_status := status issue;
                            s_priority := priority issue;
                            s_assignee := assignee issue;
                            s_created := created issue;
                            s_updated := updated issue;
                            s_url := browse_url J (key issue) |}) issues).

(** *** analyze_issue_relationships *)

(** One entry of the relationship map; [entry_links] is the nested map. *)
Inductive link_entry := LinkEntry {
  entry_type : string;
  entry_summary : string;
  entry_status : string;
  entry_links : list (string * link_entry)
}.

Definition relationships : Type := list (string * link_entry).

(** The state the recursion threads: the [visited] set, shared by all
    levels (it is one Python [set], mutated in place), and the trace. *)
Record walk_state := Walk { visited : gset string; wtrace : list call }.

(** A recursive call either runs out of fuel ([None]) or ends, returning
    or raising, in some state. *)
Definition walk (A : Type) : Type := walk_state -> option (outcome A * walk_state).

Definition walk_bind {A B} (m : walk A) (k : A -> walk B) : walk B :=
  fun st => match m st with
            | None => None
            | Some (Raise e, st') => Some (Raise e, st')
            | Some (Return a, st') => k a st'
            end.

Section Walker.
Variable J : JIRA.          (* self.jira, checked by the enclosing method *)
Variable depth : Z.         (* the enclosing method's parameter *)

(** [links[linked_key] = {'type': ..., 'summary': ..., 'status': ...,
    'links': get_linked_issues(linked_key, current_depth + 1, visited)}]:
    the right-hand side, and with it the recursive call [rec], is evaluated
    before the entry is stored. *)
Definition emit (rec : string -> Z -> walk relationships) (link_type : string)
    (other : LinkedIssue) (current_depth : Z) (links : relationships)
    : walk relationships :=
  let linked_key' := linked_key other in
  walk_bind (rec linked_key' (current_depth + 1))
    (fun nested st =>
       Some (Return (dict_set linked_key'
                       (LinkEntry link_type (linked_summary other)
                                  (linked_status other) nested) links), st)).

(** [for link in issue.fields.issuelinks: ...] *)
Fixpoint for_links (rec : string -> Z -> walk relationships) (current_depth : Z)
    (ls : list IssueLink) (links : relationships) : walk relationships :=
  match ls with
  | [] => fun st => Some (Return links, st)
  | link :: rest =>
      walk_bind
        (match outwardIssue link with
         | Some o => emit rec (type_outward link) o current_depth links
         | None => fun st => Some (Return links, st)
         end)
        (fun links1 =>
           walk_bind
             (match inwardIssue link with
              | Some i => emit rec (type_inward link) i current_depth links1
              | None => fun st => Some (Return links1, st)
              end)
             (fun links2 => for_links rec current_depth rest links2))
  end.

Fixpoint get_linked_issues (fuel : nat) (k : string) (current_depth : Z)
    : walk relationships :=
  match fuel with
  | O => fun _ => None
  | S fuel' => fun st =>
      if (current_depth >? depth) || bool_decide (k ∈ visited st)
      then Some (Return [], st)
      else
        let st1 := Walk ({[ k ]} ∪ visited st) (Call_issue k None :: wtrace st) in
        match api_issue J k None with
        | Raise e => Some (Raise e, st1)
        | Return issue =>
            match issuelinks issue with
            | Some ls => for_links (get_linked_issues fuel') current_depth ls [] st1
            | None => Some (Return [], st1)
            end
        end
  end.

End Walker.

Record relationship_analysis := {
  ra_key : string;
  ra_relationships : relationships
}.

Definition analyze_issue_relationships (fuel : nat) (issue_key : string) (depth : Z)
    (s : state) : option (outcome relationship_analysis * state) :=
  match connected s with
  | (Raise e, s') => Some (Raise e, s')
  | (Return J, s') =>
      match get_linked_issues J depth fuel issue_key 1 (Walk ∅ (trace s')) with
      | None => None
      | Some (Raise e, w) => Some (Raise e, System (self s') (wtrace w))
      | Some (Return r, w) =>
          Some (Return {| ra_key := issue_key; ra_relationships := r |},
                System (self s') (wtrace w))
      end
  end.

(** *** analyze_text_content *)

(** The double-quote character, as a one-character string. *)
Definition quote : string := String (ascii_of_nat 34) "".

(** The Python library functions the method uses.  They are parameters:
    [str_lower] is [str.lower], [str_split] is [str.split()] (split on runs
    of whitespace), [day_of s] is
    [datetime.strptime(s, "%Y-%m-%d").strftime("%Y-%m-%d")], which raises
    [ValueError] on a malformed date, and [days_ago n] is
    [(datetime.now() - timedelta(days=n)).strftime("%Y-%m-%d")]. *)
Record PyLib := {
  str_lower : string -> string;
  str_split : string -> list string;
  day_of : string -> outcome string;
  days_ago : Z -> outcome string
}.

(** [avg_comment_length]: the integer [0] it is initialised with, or the
    float quotient of two integers. *)
Inductive average :=
| IntZero
| Quotient (total_length total_comments : nat).

Definition ZeroDivisionError : exn := Exn "ZeroDivisionError" "division by zero".

(** [a / b] on integers. *)
Definition truediv (a b : nat) : outcome average :=
  if (b =? 0)%nat then Raise ZeroDivisionError else Return (Quotient a b).

Record analysis := {
  common_terms : list (string * nat);
  mentions : list (string * nat);
  an_labels : list (string * nat);
  components_referenced : list (string * nat);
  total_comments : nat;
  avg_comment_length : average;
  comment_frequency : list (string * nat)
}.

(** The loop's variables: the [analysis] dictionary being filled and
    [total_comment_length]. *)
Record accumulator := {
  acc_terms : list (string * nat);
  acc_labels : list (string * nat);
  acc_components : list (string * nat);
  acc_total_comments : nat;
  acc_frequency : list (string * nat);
  acc_total_comment_length : nat
}.

Definition empty_accumulator : accumulator :=
  {| acc_terms := []; acc_labels := []; acc_components := [];
     acc_total_comments := 0%nat; acc_frequency := [];
     acc_total_comment_length := 0%nat |}.

Section TextAnalysis.
Variable py : PyLib.

(** [description.lower().split()], keeping the words with [len(word) > 3]. *)
Definition long_words (text : string) : list string :=
  List.filter (fun word => (3 <? len word)%nat)
              (str_split py (str_lower py text)).

Definition description_words (issue : Issue) : list string :=
  match description issue with
  | Some text => if truthy (description issue) then long_words text else []
  | None => []
  end.

(** The body of [for comment in issue.fields.comment.comments]. *)
Definition count_comment (acc : accumulator) (c : Comment) : outcome accumulator :=
  match day_of py (str_prefix 10 (comment_created c)) with
  | Raise e => Raise e
  | Return day =>
      Return {| acc_terms := acc_terms acc;
                acc_labels := acc_labels acc;
                acc_components := acc_components acc;
                acc_total_comments := S (acc_total_comments acc);
                acc_frequency := incr day (acc_frequency acc);
                acc_total_comment_length :=
                  (acc_total_comment_length acc + len (comment_body c))%nat |}
  end.

Fixpoint count_comments (acc : accumulator) (cs : list Comment) : outcome accumulator :=
  match cs with
  | [] => Return acc
  | c :: cs' =>
      match count_comment acc c with
      | Raise e => Raise e
      | Return acc' => count_comments acc' cs'
      end
  end.

(** The body of [for issue in issues]. *)
Definition scan_issue (acc : accumulator) (issue : Issue) : outcome accumulator :=
  let acc1 :=
    {| acc_terms := tally (description_words issue) (acc_terms acc);
       acc_labels := acc_labels acc;
       acc_components := acc_components acc;
       acc_total_comments := acc_total_comments acc;
       acc_frequency := acc_frequency acc;
       acc_total_comment_length := acc_total_comment_length acc |} in
  match (match comment issue with
         | Some cs => count_comments acc1 cs
         | None => Return acc1
         end) with
  | Raise e => Raise e
  | Return acc2 =>
      Return {| acc_terms := acc_terms acc2;
                acc_labels := tally (labels issue) (acc_labels acc2);
                acc_components := tally (components issue) (acc_components acc2);
                acc_total_comments := acc_total_comments acc2;
                acc_frequency := acc_frequency acc2;
                acc_total_comment_length := acc_total_comment_length acc2 |}
  end.

Fixpoint scan_issues (acc : accumulator) (issues : list Issue) : outcome accumulator :=
  match issues with
  | [] => Return acc
  | issue :: rest =>
      match scan_issue acc issue with
      | Raise e => Raise e
      | Return acc' => scan_issues acc' rest
      end
  end.

(** The statements after the loop: the average, then sorting and limiting. *)
Definition summarize (acc : accumulator) : outcome analysis :=
  match (if (0 <? acc_total_comments acc)%nat
         then truediv (acc_total_comment_length acc) (acc_total_comments acc)
         else Return IntZero) with
  | Raise e => Raise e
  | Return avg =>
      Return {| common_terms := firstn 50 (sorted_desc (acc_terms acc));
                mentions := [];
                an_labels := sorted_desc (acc_labels acc);
                components_referenced := sorted_desc (acc_components acc);
                total_comments := acc_total_comments acc;
                avg_comment_length := avg;
                comment_frequency := acc_frequency acc |}
  end.

(** Everything [analyze_text_content] does with the issues it was sent. *)
Definition analyze_issues (issues : list Issue) : outcome analysis :=
  match scan_issues empty_accumulator issues with
  | Raise e => Raise e
  | Return acc => summarize acc
  end.

Definition lift {A} (o : outcome A) : M state A := fun s => (o, s).

(** [f'project = {project_key} AND updated >= "{start_date}"'] *)
Definition updated_since (project_key start_date : string) : string :=
  "project = " +:+ project_key +:+ " AND updated >= " +:+ quote +:+ start_date +:+ quote.

Definition analyze_text_content (project_key : string) (days : Z) : M state analysis :=
  J <- connected ;;
  start_date <- lift (days_ago py days) ;;
  let jql := updated_since project_key start_date in
  issues <- remote (Call_search_issues jql 1000 (Some "changelog,comments"))
                   (api_search_issues J jql 1000 (Some "changelog,comments")) ;;
  lift (analyze_issues issues).

End TextAnalysis.

(** *** get_cross_project_references *)

Record reference_record := {
  rr_key : string;
  rr_summary : string;
  rr_type : string;
  rr_status : string;
  rr_url : string
}.

(** [outgoing] and [incoming] are [defaultdict(list)], [shared_components]
    is a [defaultdict(set)]: reading a key that was never stored gives the
    empty list, or the empty set. *)
Record references := {
  outgoing : list (string * list reference_record);
  incoming : list (string * list reference_record);
  shared_components : list (string * gset string);
  related_issues : list string
}.

Definition empty_references : references :=
  {| outgoing := []; incoming := []; shared_components := []; related_issues := [] |}.

(** [references['shared_components'][k]] on the returned [defaultdict(set)]. *)
Definition shared_with (r : references) (k : string) : gset string :=
  default ∅ (dict_get k (shared_components r)).

(** [project = P AND (description ~ "Q-" OR comment ~ "Q-")] *)
Definition mention_jql (p q : string) : string :=
  "project = " +:+ p +:+ " AND (description ~ " +:+ quote +:+ q +:+ "-" +:+ quote
  +:+ " OR comment ~ " +:+ quote +:+ q +:+ "-" +:+ quote +:+ ")".

Definition reference_of (J : JIRA) (issue : Issue) : reference_record :=
  {| rr_key := key issue;
     rr_summary := summary issue;
     rr_type := issuetype issue;
     rr_status := status issue;
     rr_url := browse_url J (key issue) |}.

(** [{c.name for c in self.jira.project_components(p)}] *)
Definition component_names (components_of : string -> outcome (list string))
    (p : string) : M state (gset string) :=
  names <- remote (Call_project_components p) (components_of p) ;;
  ret (list_to_set names).

(** The body of [for related_project in related_projects]. *)
Definition cross_reference (J : JIRA) (project_key : string) (refs : references)
    (related_project : string) : M state references :=
  let jql_out := mention_jql project_key related_project in
  outgoing_issues <- remote (Call_search_issues jql_out 100 None)
                            (api_search_issues J jql_out 100 None) ;;
  let jql_in := mention_jql related_project project_key in
  incoming_issues <- remote (Call_search_issues jql_in 100 None)
                            (api_search_issues J jql_in 100 None) ;;
  let out' := fold_left (fun d issue => dict_append related_project (reference_of J issue) d)
                        outgoing_issues (outgoing refs) in
  let in' := fold_left (fun d issue => dict_append related_project (reference_of J issue) d)
                       incoming_issues (incoming refs) in
  match api_project_components J with
  | Some components_of =>
      main_components <- component_names components_of project_key ;;
      related_components <- component_names components_of related_project ;;
      let shared := main_components ∩ related_components in
      ret {| outgoing := out'; incoming := in';
             shared_components :=
               if bool_decide (shared ≠ ∅)
               then dict_set related_project shared (shared_components refs)
               else shared_components refs;
             related_issues := related_issues refs |}
  | None =>
      ret {| outgoing := out'; incoming := in';
             shared_components := shared_components refs;
             related_issues := related_issues refs |}
  end.

Fixpoint cross_references (J : JIRA) (project_key : string) (refs : references)
    (related_projects : list string) : M state references :=
  match related_projects with
  | [] => ret refs
  | related_project :: rest =>
      refs' <- cross_reference J project_key refs related_project ;;
      cross_references J project_key refs' rest
  end.

Definition get_cross_project_references (project_key : string)
    (related_projects : list string) : M state references :=
  J <- connected ;;
  cross_references J project_key empty_references related_projects.

End Analyzer.

(** * server.py *)

Record project_info := {
  pi_key : string;
  pi_name : string;
  pi_lead : string;
  pi_description : string
}.

Definition project_info_of (project : Project) : project_info :=
  {| pi_key := project_key project;
     pi_name := project_name project;
     pi_lead := project_lead project;
     pi_description := project_description project |}.

Record metrics := {
  total_issues : nat;
  by_type : list (string * nat);
  by_status : list (string * nat);
  by_priority : list (string * nat)
}.

(** The body of [for issue in issues] in [analyze_project_metrics]. *)
Definition count_issue (m : metrics) (issue : Issue) : metrics :=
  {| total_issues := total_issues m;
     by_type := incr (issuetype issue) (by_type m);
     by_status := incr (status issue) (by_status m);
     by_priority := incr (default "No Priority" (priority issue)) (by_priority m) |}.

Definition project_metrics (issues : list Issue) : metrics :=
  fold_left count_issue issues
    {| total_issues := length issues; by_type := []; by_status := []; by_priority := [] |}.

Module Server.

Record JiraAnalyzer := { jira : option JIRA }.

Definition init : JiraAnalyzer := {| jira := None |}.

Definition state : Type := system JiraAnalyzer.

Definition new_session (net : network) (args : ctor_args) : M state unit :=
  J <- remote (Call_JIRA args) (net args) ;;
  fun s => (Return tt, System {| jira := Some J |} (trace s)).

Definition connect (net : network) (server : string)
    (username api_token : option string) : M state Analyzer.connect_result :=
  try_except
    (assigned <- match username, api_token with
                 | Some u, Some t =>
                     if truthy username && truthy api_token
                     then new_session net (JIRA_server server (basic_auth u t))
                     else new_session net (JIRA_server server (token_auth api_token))
                 | _, _ => new_session net (JIRA_server server (token_auth api_token))
                 end ;;
     ret Analyzer.PyTrue)
    (fun e => ret (Analyzer.PyStr (str e))).

Definition connected : M state JIRA :=
  fun s => match jira (self s) with
           | None => (Raise not_connected, s)
           | Some J => (Return J, s)
           end.

Definition get_project_info (project_key : string) : M state project_info :=
  J <- connected ;;
  project <- remote (Call_project project_key) (api_project J project_key) ;;
  ret (project_info_of project).

Definition analyze_project_metrics (project_key : string) : M state metrics :=
  J <- connected ;;
  let jql := "project = " +:+ project_key in
  issues <- remote (Call_search_issues jql 1000 None)
                   (api_search_issues J jql 1000 None) ;;
  ret (project_metrics issues).

(** The tool [connect_to_jira]. *)
Definition connect_to_jira (net : network) (server : string)
    (username api_token : option string) : M state string :=
  result <- connect net server username api_token ;;
  match result with
  | Analyzer.PyTrue => ret "Successfully connected to JIRA"
  | Analyzer.PyStr text => ret ("Failed to connect: " +:+ text)
  end.

End Server.

(** * jira_analyzer/src/server.py *)

Module TokenServer.

Record JiraAnalyzer := { jira : option JIRA; server : option string }.

Definition init : JiraAnalyzer := {| jira := None; server := None |}.

Definition state : Type := system JiraAnalyzer.

Definition set_server (v : string) : M state unit :=
  fun s => (Return tt, System {| jira := jira (self s); server := Some v |} (trace s)).

Definition set_jira (J : JIRA) : M state unit :=
  fun s => (Return tt, System {| jira := Some J; server := server (self s) |} (trace s)).

(** [self.jira.myself()], on the session just stored. *)
Definition myself : M state unit :=
  fun s => match jira (self s) with
           | Some J => remote Call_myself (api_myself J) s
           | None => (Raise (AttributeError "myself"), s)
           end.

Definition connect (net : network) (server_url' : string) (api_token : option string)
    : M state Analyzer.connect_result :=
  try_except
    (stored <- set_server server_url' ;;
     J <- remote (Call_JIRA (JIRA_server server_url' (token_auth api_token)))
                 (net (JIRA_server server_url' (token_auth api_token))) ;;
     assigned <- set_jira J ;;
     tested <- myself ;;
     ret Analyzer.PyTrue)
    (fun e => ret (Analyzer.PyStr (str e))).

Definition connected : M state JIRA :=
  fun s => match jira (self s) with
           | None => (Raise not_connected, s)
           | Some J => (Return J, s)
           end.

Definition get_project_info (project_key : string) : M state project_info :=
  J <- connected ;;
  project <- remote (Call_project project_key) (api_project J project_key) ;;
  ret (project_info_of project).

Record found_issue := {
  f_key : string;
  f_summary : string;
  f_status : string;
  f_created : string;
  f_updated : string;
  f_assignee : option string;
  f_priority : option string;
  f_issue_type : string
}.

Definition search_issues (jql : string) (max_results : Z) : M state (list found_issue) :=
  J <- connected ;;
  issues <- remote (Call_search_issues jql max_results None)
                   (api_search_issues J jql max_results None) ;;
  ret (map (fun issue => {| f_key := key issue;
                            f_summary := summary issue;
                            f_status := status issue;
                            f_created := created issue;
                            f_updated := updated issue;
                            f_assignee := assignee issue;
                            f_priority := priority issue;
                            f_issue_type := issuetype issue |}) issues).

Record issue_details := {
  d_key : string;
  d_summary : string;
  d_description : option string;
  d_status : string;
  d_created : string;
  d_updated : string;
  d_assignee : option string;
  d_reporter : string;
  d_priority : option string;
  d_issue_type : string;
  d_labels : list string;
  d_comments : list Analyzer.comment_record
}.

Definition get_issue_details (issue_key : string) : M state issue_details :=
  J <- connected ;;
  issue <- remote (Call_issue issue_key None) (api_issue J issue_key None) ;;
  match comment issue with
  | None => raise (AttributeError "comment")
  | Some cs =>
      ret {| d_key := key issue;
             d_summary := summary issue;
             d_description := description issue;
             d_status := status issue;
             d_created := created issue;
             d_updated := updated issue;
             d_assignee := assignee issue;
             d_reporter := reporter issue;
             d_priority := priority issue;
             d_issue_type := issuetype issue;
             d_labels := labels issue;
             d_comments :=
               map (fun c => {| Analyzer.cr_author := comment_author c;
                                Analyzer.cr_created := comment_created c;
                                Analyzer.cr_body := comment_body c;
                                Analyzer.cr_updated := comment_updated c |}) cs |}
  end.

Definition analyze_project_metrics (project_key : string) : M state metrics :=
  J <- connected ;;
  let jql := "project = " +:+ project_key in
  issues <- remote (Call_search_issues jql 1000 None)
                   (api_search_issues J jql 1000 None) ;;
  ret (project_metrics issues).

(** The tool [connect_to_jira]: a missing token is answered at once. *)
Definition connect_to_jira (net : network) (server_url' : string)
    (api_token : option string) : M state string :=
  if truthy api_token then
    result <- connect net server_url' api_token ;;
    match result with
    | Analyzer.PyTrue => ret "Successfully connected to JIRA"
    | Analyzer.PyStr text => ret ("Failed to connect: " +:+ text)
    end
  else ret "Please provide your JIRA API token".

End TokenServer.

(** * jira_analyzer/server.py *)

Module ToolServer.

(** The tool [connect_to_jira]. *)
Definition connect_to_jira (net : network) (server : string)
    (username api_token : option string) : M Analyzer.state string :=
  result <- Analyzer.connect net server username api_token ;;
  match result with
  | Analyzer.PyTrue => ret "Successfully connected to JIRA in read-only mode"
  | Analyzer.PyStr text => ret ("Failed to connect: " +:+ text)
  end.

(** The other tools hand their arguments to the analyzer unchanged. *)
Definition get_issue_details := Analyzer.get_issue_details.
Definition search_issues := Analyzer.search_issues.
Definition analyze_issue_relationships := Analyzer.analyze_issue_relationships.
Definition analyze_text_content := Analyzer.analyze_text_content.
Definition get_cross_project_references := Analyzer.get_cross_project_references.

Definition connection_help : string :=
"
        # JIRA Connection Help
        
        To connect to JIRA in read-only mode, you'll need:
        1. JIRA server URL (e.g., https://your-domain.atlassian.net)
        2. Either:
           - Username and API token
           - API token only
        
        API tokens can be generated from your Atlassian account settings.
        
        Note: This extension operates in read-only mode and cannot modify any JIRA data.
        ".

Definition analysis_help : string :=
"
        # JIRA Analysis Features
        
        Available analysis tools:
        1. Issue Details
           - Full issue content
           - Comment history
           - Change history
           - Related issues
        
        2. Search & Discovery
           - Flexible issue search
           - JQL filtering
           - Cross-project references
        
        3. Content Analysis
           - Text pattern analysis
           - Common terms identification
           - Comment patterns
           - Label usage
        
        4. Relationship Analysis
           - Issue dependencies
           - Cross-project references
           - Component sharing
        ".

Definition security_help : string :=
"
        # Security Best Practices
        
        1. Read-Only Access
           - This extension cannot modify JIRA data
           - All operations are read-only
           - No state changes are possible
        
        2. Authentication
           - Never store credentials in code
           - Use environment variables for sensitive data
           - Prefer API tokens over username/password
           - Regularly rotate API tokens
        
        3. Data Access
           - Only access projects you have permission to view
           - Respect JIRA's security model
           - Don't share sensitive data
        ".

Definition topic_not_found : string :=
  "Topic not found. Available topics: connection, analysis, security".

Definition help_topics : list (string * string) :=
  [ ("connection", connection_help);
    ("analysis", analysis_help);
    ("security", security_help) ].

(** [help_topics.get(topic, "Topic not found. ...")] *)
Definition get_help (topic : string) : string :=
  default topic_not_found (dict_get topic help_topics).

End ToolServer.

(** * Vocabulary of the properties, and sample data *)

(** ** Connecting *)

Definition disconnected : Analyzer.state := System Analyzer.init [].

(** The credentials [connect] hands to the client: basic authentication
    when both the user name and the token are non-empty, and otherwise the
    token alone, whatever it is. *)
Definition credentials (username api_token : option string) : auth :=
  match username, api_token with
  | Some u, Some t => if truthy username && truthy api_token
                      then basic_auth u t else token_auth api_token
  | _, _ => token_auth api_token
  end.

(** What [connect] answers to the client's answer. *)
Definition reply (answer : outcome JIRA) : Analyzer.connect_result :=
  match answer with
  | Return _ => Analyzer.PyTrue
  | Raise e => Analyzer.PyStr (str e)
  end.

(** A server that lets anybody in, and one whose sessions fail the
    [myself] check. *)
Definition open_session : JIRA :=
  {| server_url := "https://jira.example.org";
     api_issue := fun _ _ => Raise (Exn "JIRAError" "Issue Does Not Exist");
     api_search_issues := fun _ _ _ => Return [];
     api_project := fun _ => Raise (Exn "JIRAError" "No project could be found");
     api_project_components := None;
     api_myself := Raise (Exn "JIRAError" "Unauthorized") |}.

Definition open_network : network := fun _ => Return open_session.

Definition closed_network : network :=
  fun _ => Raise (Exn "JIRAError" "Unauthorized").

(** ** The relationship walk *)

(** [fetched_since st st' ks]: between [st] and [st'] the walk made exactly
    the calls [issue(k)] for [k] in [ks] (latest first), and nothing else;
    no key was fetched twice, none had been visited at [st], and all are
    visited at [st']. *)
Definition fetched_since (st st' : Analyzer.walk_state) (ks : list string) : Prop :=
  Analyzer.wtrace st' = map (fun k => Call_issue k None) ks ++ Analyzer.wtrace st /\
  NoDup ks /\
  (forall k, In k ks -> (k ∉ Analyzer.visited st) /\ (k ∈ Analyzer.visited st')) /\
  Analyzer.visited st ⊆ Analyzer.visited st'.

(** What is needed of the recursive call to reason about one level. *)
Definition fetches_once (rec : string -> Z -> Analyzer.walk Analyzer.relationships)
    : Prop :=
  forall k cd st r st', rec k cd st = Some (r, st') -> exists ks, fetched_since st st' ks.

(** Fuel: a call at level [cd] needs one unit for itself and one for each
    level down to the bound. *)
Definition levels_left (depth cd : Z) : nat := Z.to_nat (depth + 1 - cd).

Definition total_at (rec : string -> Z -> Analyzer.walk Analyzer.relationships)
    (cd : Z) : Prop :=
  forall k st, exists r st', rec k cd st = Some (r, st').

(** The nesting of a relationship map: 0 for the empty map, and one more
    than the deepest nested map otherwise. *)
Fixpoint entry_levels (e : Analyzer.link_entry) : nat :=
  S (fold_right (fun p n => Nat.max (entry_levels (snd p)) n) 0%nat
       (Analyzer.entry_links e)).

Definition map_levels (r : Analyzer.relationships) : nat :=
  fold_right (fun p n => Nat.max (entry_levels (snd p)) n) 0%nat r.

Definition bounded_at (rec : string -> Z -> Analyzer.walk Analyzer.relationships)
    (cd : Z) (n : nat) : Prop :=
  forall k st r st', rec k cd st = Some (Return r, st') -> (map_levels r <= n)%nat.

(** More fuel changes nothing in a result already obtained. *)
Definition agrees (rec rec' : string -> Z -> Analyzer.walk Analyzer.relationships)
    : Prop :=
  forall k cd st x, rec k cd st = Some x -> rec' k cd st = Some x.

(** The reading of C4: a link whose neighbour key is already in the visited
    set adds no entry to the map being built. *)
Definition visited_links_add_nothing : Prop :=
  forall (J : JIRA) (depth : Z) (fuel : nat) (link_type : string) (other : LinkedIssue)
         (current_depth : Z) (links : Analyzer.relationships) (st : Analyzer.walk_state)
         r st',
    linked_key other ∈ Analyzer.visited st ->
    Analyzer.emit (Analyzer.get_linked_issues J depth fuel) link_type other
                  current_depth links st = Some (Return r, st') ->
    r = links.

(** Two issues that point at each other: A blocks B. *)
Definition plain_issue (k : string) (ls : option (list IssueLink)) : Issue :=
  {| key := k; summary := "Summary of " +:+ k; description := None;
     issuetype := "Task"; status := "Open"; priority := None; assignee := None;
     reporter := "reporter"; created := "2024-01-01T00:00:00.000+0000";
     updated := "2024-01-02T00:00:00.000+0000"; components := []; labels := [];
     comment := None; changelog := None; issuelinks := ls |}.

Definition neighbour (k : string) : LinkedIssue :=
  {| linked_key := k; linked_summary := "Summary of " +:+ k; linked_status := "Open" |}.

Definition blocks_session : JIRA :=
  {| server_url := "https://jira.example.org";
     api_issue := fun k _ =>
       if String.eqb k "A" then
         Return (plain_issue "A" (Some [ {| type_outward := "blocks";
                                            type_inward := "is blocked by";
                                            outwardIssue := Some (neighbour "B");
                                            inwardIssue := None |} ]))
       else if String.eqb k "B" then
         Return (plain_issue "B" (Some [ {| type_outward := "blocks";
                                            type_inward := "is blocked by";
                                            outwardIssue := None;
                                            inwardIssue := Some (neighbour "A") |} ]))
       else Raise (Exn "JIRAError" "Issue Does Not Exist");
     api_search_issues := fun _ _ _ => Return [];
     api_project := fun _ => Raise (Exn "JIRAError" "No project could be found");
     api_project_components := None;
     api_myself := Return tt |}.

Definition blocks_state : Analyzer.state :=
  System {| Analyzer.jira := Some blocks_session |} [].

(** ** Counting and sorting *)

(** The position at which [w] is first met in [stream]. *)
Fixpoint first_index (w : string) (stream : list string) : nat :=
  match stream with
  | [] => O
  | w' :: rest => if String.eqb w w' then O else S (first_index w rest)
  end.

(** The keys of [ks] that are not in [seen], each once, in the order in
    which they are first met. *)
Fixpoint nub_from (seen ks : list string) : list string :=
  match ks with
  | [] => []
  | k :: rest =>
      if existsb (String.eqb k) seen then nub_from seen rest
      else k :: nub_from (seen ++ [k]) rest
  end.

(** Descending count; among equal counts, the term met first comes first. *)
Definition ranked (stream : list string) (x y : string * nat) : Prop :=
  (snd y <= snd x)%nat /\
  (snd x = snd y -> (first_index (fst x) stream < first_index (fst y) stream)%nat).

Definition descending (x y : string * nat) : Prop := (snd y <= snd x)%nat.

(** [table] holds exactly the keys of [stream], each once, each with the
    number of times it occurs. *)
Definition counts_all (stream : list string) (table : list (string * nat)) : Prop :=
  NoDup (map fst table) /\
  forall w, dict_get w table =
            if existsb (String.eqb w) stream
            then Some (count_occ string_dec stream w) else None.

(** Descending count, and among equal counts the order [before]. *)
Definition stably_sorted (before : string * nat -> string * nat -> Prop)
    (x y : string * nat) : Prop :=
  (snd y <= snd x)%nat /\ (snd x = snd y -> before x y).

Definition without_comments (issue : Issue) : Prop :=
  comment issue = None \/ comment issue = Some [].

(** A stand-in for the Python library on ASCII text, for the examples. *)
Definition ascii_lower (c : ascii) : ascii :=
  let n := nat_of_ascii c in
  if ((65 <=? n) && (n <=? 90))%nat then ascii_of_nat (n + 32) else c.

Fixpoint lower (s : string) : string :=
  match s with
  | EmptyString => EmptyString
  | String c rest => String (ascii_lower c) (lower rest)
  end.

Definition is_space (c : ascii) : bool :=
  let n := nat_of_ascii c in
  (((9 <=? n) && (n <=? 13)) || ((28 <=? n) && (n <=? 32)))%nat.

(** [split_from word s]: the words of [s], [word] being the (reversed)
    word read so far. *)
Fixpoint split_from (word : list ascii) (s : string) : list string :=
  let flush := match word with
               | [] => []
               | _ => [string_of_list_ascii (rev word)]
               end in
  match s with
  | EmptyString => flush
  | String c rest =>
      if is_space c then flush ++ split_from [] rest
      else split_from (c :: word) rest
  end.

Definition ValueError (text : string) : exn := Exn "ValueError" text.

Definition is_digit (c : ascii) : bool :=
  let n := nat_of_ascii c in ((48 <=? n) && (n <=? 57))%nat.

(** Accepts [dddd-dd-dd] and gives it back. *)
Definition iso_day (s : string) : outcome string :=
  match list_ascii_of_string s with
  | [y1; y2; y3; y4; d1; m1; m2; d2; a1; a2] =>
      if forallb is_digit [y1; y2; y3; y4; m1; m2; a1; a2]
         && Ascii.eqb d1 "-" && Ascii.eqb d2 "-"
      then Return s
      else Raise (ValueError "time data does not match format")
  | _ => Raise (ValueError "time data does not match format")
  end.

Definition example_py : Analyzer.PyLib :=
  {| Analyzer.str_lower := lower;
     Analyzer.str_split := split_from [];
     Analyzer.day_of := fun s => iso_day s;
     Analyzer.days_ago := fun _ => Return "2024-05-01" |}.

Definition login_issue : Issue :=
  {| key := "WEB-1"; summary := "Login fails";
     description := Some "Login page crashes when LOGIN fails";
     issuetype := "Bug"; status := "Open"; priority := Some "High"; assignee := None;
     reporter := "reporter"; created := "2024-05-02T10:00:00.000+0000";
     updated := "2024-05-03T10:00:00.000+0000"; components := ["web"];
     labels := ["bug"; "ui"];
     comment := Some [ {| comment_author := "dev";
                          comment_created := "2024-05-03T10:00:00.000+0000";
                          comment_body := "Reproduced";
                          comment_updated := "2024-05-03T10:00:00.000+0000" |} ];
     changelog := None; issuelinks := None |}.

Definition quiet_issue : Issue :=
  {| key := "WEB-2"; summary := "Page title"; description := Some "Page title is wrong";
     issuetype := "Task"; status := "Open"; priority := None; assignee := None;
     reporter := "reporter"; created := "2024-05-02T10:00:00.000+0000";
     updated := "2024-05-03T10:00:00.000+0000"; components := ["web"];
     labels := ["ui"]; comment := None; changelog := None; issuelinks := None |}.

Definition search_session (issues : list Issue) : JIRA :=
  {| server_url := "https://jira.example.org";
     api_issue := fun _ _ => Raise (Exn "JIRAError" "Issue Does Not Exist");
     api_search_issues := fun _ _ _ => Return issues;
     api_project := fun _ => Raise (Exn "JIRAError" "No project could be found");
     api_project_components := None;
     api_myself := Return tt |}.

Definition search_state (issues : list Issue) : Analyzer.state :=
  System {| Analyzer.jira := Some (search_session issues) |} [].

Definition web_analysis : Analyzer.analysis :=
  {| Analyzer.common_terms :=
       [("login", 2); ("page", 2); ("crashes", 1); ("when", 1);
        ("fails", 1); ("title", 1); ("wrong", 1)]%nat;
     Analyzer.mentions := [];
     Analyzer.an_labels := [("ui", 2); ("bug", 1)]%nat;
     Analyzer.components_referenced := [("web", 2)]%nat;
     Analyzer.total_comments := 1;
     Analyzer.avg_comment_length := Analyzer.Quotient 10 1;
     Analyzer.comment_frequency := [("2024-05-03", 1)]%nat |}.

(** ** Cross-project references *)

(** [x] is the intersection of the component names of [project] and [k]. *)
Definition intersection_for (components_of : string -> outcome (list string))
    (project k : string) (x : gset string) : Prop :=
  exists main_names names,
    components_of project = Return main_names /\
    components_of k = Return names /\
    x = list_to_set main_names ∩ list_to_set names.

(** What holds of the table once the projects in [handled] are done. *)
Definition shared_ok (components_of : string -> outcome (list string))
    (project : string) (refs : Analyzer.references) (handled : string -> Prop) : Prop :=
  (forall k x, dict_get k (Analyzer.shared_components refs) = Some x ->
               handled k /\ intersection_for components_of project k x /\ x <> ∅) /\
  (forall k, handled k ->
             intersection_for components_of project k (Analyzer.shared_with refs k)).

(** Two projects that share one component, and a third that shares none. *)
Definition component_session : JIRA :=
  {| server_url := "https://jira.example.org";
     api_issue := fun _ _ => Raise (Exn "JIRAError" "Issue Does Not Exist");
     api_search_issues := fun _ _ _ => Return [];
     api_project := fun _ => Raise (Exn "JIRAError" "No project could be found");
     api_project_components := Some (fun p =>
       if String.eqb p "WEB" then Return ["auth"; "ui"; "api"]
       else if String.eqb p "APP" then Return ["api"; "sync"; "auth"]
       else Return ["billing"]);
     api_myself := Return tt |}.

Definition component_state : Analyzer.state :=
  System {| Analyzer.jira := Some component_session |} [].

(** ** Reading only *)

(** The calls made between two traces are all reads. *)
Definition reads_only (before after : list call) : Prop :=
  exists new, after = new ++ before /\ Forall (fun c => mutates c = false) new.

Definition read_only {Obj A} (m : M (system Obj) A) : Prop :=
  forall s, reads_only (trace s) (trace (snd (m s))).

(** ** Further vocabulary *)

(** The sum of the counts of a table. *)
Fixpoint sum_counts (table : list (string * nat)) : nat :=
  match table with
  | [] => O
  | (_, n) :: rest => (n + sum_counts rest)%nat
  end.

(** The key under which an issue is counted in [by_priority]. *)
Definition priority_name (issue : Issue) : string :=
  default "No Priority" (priority issue).

(** A tracker with three issues of one project. *)
Definition bug_issue : Issue :=
  {| key := "WEB-3"; summary := "Crash on save"; description := None;
     issuetype := "Bug"; status := "Open"; priority := Some "High"; assignee := None;
     reporter := "reporter"; created := "2024-05-02T10:00:00.000+0000";
     updated := "2024-05-03T10:00:00.000+0000"; components := []; labels := [];
     comment := Some []; changelog := None; issuelinks := None |}.

Definition metrics_issues : list Issue := [login_issue; quiet_issue; bug_issue].

(** The query [search_issues] of [analyzer.py] sends: the project clause,
    and the caller's filter behind [AND] when it is a non-empty string. *)
Definition filtered_jql (project : string) (jql_filters : option string) : string :=
  match jql_filters with
  | Some f => if truthy jql_filters
              then ("project = " +:+ project) +:+ " AND " +:+ f
              else "project = " +:+ project
  | None => "project = " +:+ project
  end.

Definition expand_all : option string := Some "changelog,comments".

(** A session whose every request is refused. *)
Definition gateway_timeout : exn := Exn "JIRAError" "Gateway Timeout".

Definition failing_session : JIRA :=
  {| server_url := "https://jira.example.org";
     api_issue := fun _ _ => Raise gateway_timeout;
     api_search_issues := fun _ _ _ => Raise gateway_timeout;
     api_project := fun _ => Raise gateway_timeout;
     api_project_components := Some (fun _ => Raise gateway_timeout);
     api_myself := Raise gateway_timeout |}.

(** The neighbour keys of a list of links, in the order the walk meets
    them: for each link the outward issue, then the inward issue. *)
Definition neighbour_keys (ls : list IssueLink) : list string :=
  flat_map (fun link =>
              match outwardIssue link with
              | Some o => [linked_key o]
              | None => []
              end ++
              match inwardIssue link with
              | Some i => [linked_key i]
              | None => []
              end) ls.

(** Every fetch of a key of [ks] is answered with an issue. *)
Definition answered (J : JIRA) (ks : list string) : Prop :=
  forall k, In k ks -> exists issue, api_issue J k None = Return issue.

(** How the fetches [ks] of a run, latest first, account for its outcome:
    all were answered when it returned; when it raised, the latest fetch
    raised that exception and the earlier ones were answered. *)
Definition accounts_for {A} (J : JIRA) (ks : list string) (r : outcome A) : Prop :=
  match r with
  | Return _ => answered J ks
  | Raise e => exists k rest,
                 ks = k :: rest /\ api_issue J k None = Raise e /\ answered J rest
  end.

(** The recursive call fetches some keys and its outcome is accounted for
    by them. *)
Definition accounted (J : JIRA)
    (rec : string -> Z -> Analyzer.walk Analyzer.relationships) : Prop :=
  forall k cd st r st',
    rec k cd st = Some (r, st') ->
    exists ks,
      Analyzer.wtrace st' = map (fun k => Call_issue k None) ks ++ Analyzer.wtrace st /\
      accounts_for J ks r.

(** When the recursive call ends, the key it was given is visited, unless
    the level was past the bound. *)
Definition visits_key (depth : Z)
    (rec : string -> Z -> Analyzer.walk Analyzer.relationships) : Prop :=
  forall k cd st r st',
    rec k cd st = Some (r, st') -> depth < cd \/ k ∈ Analyzer.visited st'.

(** A is linked to B twice, and B to C; D is linked to a missing issue. *)
Definition link_to (link_type k : string) : IssueLink :=
  {| type_outward := link_type; type_inward := link_type;
     outwardIssue := Some (neighbour k); inwardIssue := None |}.

Definition twice_session : JIRA :=
  {| server_url := "https://jira.example.org";
     api_issue := fun k _ =>
       if String.eqb k "A" then
         Return (plain_issue "A" (Some [link_to "blocks" "B"; link_to "relates to" "B"]))
       else if String.eqb k "B" then
         Return (plain_issue "B" (Some [link_to "blocks" "C"]))
       else if String.eqb k "C" then Return (plain_issue "C" None)
       else if String.eqb k "D" then
         Return (plain_issue "D" (Some [link_to "blocks" "C"; link_to "blocks" "GONE"]))
       else Raise (Exn "JIRAError" "Issue Does Not Exist");
     api_search_issues := fun _ _ _ => Return [];
     api_project := fun _ => Raise (Exn "JIRAError" "No project could be found");
     api_project_components := None;
     api_myself := Return tt |}.

Definition twice_state : Analyzer.state :=
  System {| Analyzer.jira := Some twice_session |} [].

(** The ends of a list of links, with the link type each is listed under,
    in the order the loop handles them. *)
Definition link_ends (ls : list IssueLink) : list (string * LinkedIssue) :=
  flat_map (fun link =>
              match outwardIssue link with
              | Some o => [(type_outward link, o)]
              | None => []
              end ++
              match inwardIssue link with
              | Some i => [(type_inward link, i)]
              | None => []
              end) ls.

(** The loop over the links, as one store per end. *)
Fixpoint emit_all (rec : string -> Z -> Analyzer.walk Analyzer.relationships)
    (current_depth : Z) (ends : list (string * LinkedIssue))
    (links : Analyzer.relationships) : Analyzer.walk Analyzer.relationships :=
  match ends with
  | [] => fun st => Some (Return links, st)
  | (link_type, other) :: rest =>
      Analyzer.walk_bind (Analyzer.emit rec link_type other current_depth links)
        (fun links' => emit_all rec current_depth rest links')
  end.

(** Every key stored so far is visited, unless the next level is past the
    bound. *)
Definition stored_are_visited (depth next_level : Z) (links : Analyzer.relationships)
    (st : Analyzer.walk_state) : Prop :=
  forall k, is_Some (dict_get k links) -> depth < next_level \/ k ∈ Analyzer.visited st.

(** The entry under [k] has an empty nested map. *)
Definition childless (k : string) (links : Analyzer.relationships) : Prop :=
  exists entry, dict_get k links = Some entry /\ Analyzer.entry_links entry = [].

(** All comments of the issues sent, in the order the loop reads them; an
    issue without the attribute has none. *)
Definition all_comments (issues : list Issue) : list Comment :=
  flat_map (fun issue => default [] (comment issue)) issues.

(** [sum(len(comment.body))] *)
Definition body_lengths (cs : list Comment) : nat :=
  list_sum (map (fun c => len (comment_body c)) cs).

(** The day a comment is counted under: the library's reading of
    [created[:10]], the first ten characters of [created]. *)
Definition comment_day (py : Analyzer.PyLib) (c : Comment) : outcome string :=
  Analyzer.day_of py (str_prefix 10 (comment_created c)).

(** An issue with one well-dated and one badly dated comment. *)
Definition badly_dated_issue : Issue :=
  {| key := "WEB-4"; summary := "Imported"; description := Some "An imported old issue";
     issuetype := "Task"; status := "Open"; priority := None; assignee := None;
     reporter := "reporter"; created := "2024-05-02T10:00:00.000+0000";
     updated := "2024-05-03T10:00:00.000+0000"; components := []; labels := [];
     comment := Some [ {| comment_author := "dev";
                          comment_created := "2024-05-03T10:00:00.000+0000";
                          comment_body := "Fine";
                          comment_updated := "2024-05-03T10:00:00.000+0000" |};
                       {| comment_author := "importer";
                          comment_created := "yesterday";
                          comment_body := "Migrated";
                          comment_updated := "yesterday" |} ];
     changelog := None; issuelinks := None |}.

(** The records of one search for issues of [p] that mention [q]; nothing
    when the search fails. *)
Definition mention_records (J : JIRA) (p q : string) : list Analyzer.reference_record :=
  match api_search_issues J (Analyzer.mention_jql p q) 100 None with
  | Return issues => map (Analyzer.reference_of J) issues
  | Raise _ => []
  end.

(** The calls made for one related project, oldest first. *)
Definition cross_calls (J : JIRA) (project related_project : string) : list call :=
  [ Call_search_issues (Analyzer.mention_jql project related_project) 100 None;
    Call_search_issues (Analyzer.mention_jql related_project project) 100 None ] ++
  match api_project_components J with
  | Some _ => [ Call_project_components project;
                Call_project_components related_project ]
  | None => []
  end.

(** No key of the table holds an empty list. *)
Definition no_empty_list {A} (d : list (string * list A)) : Prop :=
  forall k, dict_get k d <> Some [].

(** WEB issues mention APP, and one APP issue mentions WEB. *)
Definition mention_session : JIRA :=
  {| server_url := "https://jira.example.org";
     api_issue := fun _ _ => Raise (Exn "JIRAError" "Issue Does Not Exist");
     api_search_issues := fun jql _ _ =>
       if String.eqb jql (Analyzer.mention_jql "WEB" "APP")
       then Return [login_issue; quiet_issue]
       else if String.eqb jql (Analyzer.mention_jql "APP" "WEB")
       then Return [bug_issue]
       else Return [];
     api_project := fun _ => Raise (Exn "JIRAError" "No project could be found");
     api_project_components := None;
     api_myself := Return tt |}.

Definition mention_state : Analyzer.state :=
  System {| Analyzer.jira := Some mention_session |} [].

(** The number of change items of a change log. *)
Definition change_count (histories : list History) : nat :=
  list_sum (map (fun h => length (history_items h)) histories).

(** A tracker that knows one project and one issue with a history. *)
Definition web_project : Project :=
  {| project_key := "WEB"; project_name := "Web shop"; project_lead := "lead";
     project_description := "The shop front end" |}.

Definition storied_issue : Issue :=
  {| key := "WEB-5"; summary := "Checkout"; description := Some "Checkout is slow";
     issuetype := "Bug"; status := "Done"; priority := Some "Low"; assignee := Some "dev";
     reporter := "reporter"; created := "2024-05-02T10:00:00.000+0000";
     updated := "2024-05-03T10:00:00.000+0000"; components := ["web"]; labels := [];
     comment := Some [ {| comment_author := "dev";
                          comment_created := "2024-05-03T10:00:00.000+0000";
                          comment_body := "Fixed";
                          comment_updated := "2024-05-03T10:00:00.000+0000" |} ];
     changelog := Some [ {| history_created := "2024-05-03T09:00:00.000+0000";
                            history_author := "dev";
                            history_items :=
                              [ {| item_field := "status";
                                   item_fromString := Some "Open";
                                   item_toString := Some "Done" |};
                                {| item_field := "assignee";
                                   item_fromString := None;
                                   item_toString := Some "dev" |} ] |} ];
     issuelinks := Some [ {| type_outward := "blocks"; type_inward := "is blocked by";
                             outwardIssue := Some (neighbour "WEB-6");
                             inwardIssue := Some (neighbour "WEB-1") |} ] |}.

Definition project_session : JIRA :=
  {| server_url := "https://jira.example.org";
     api_issue := fun k _ =>
       if String.eqb k "WEB-5" then Return storied_issue
       else if String.eqb k "WEB-2" then Return quiet_issue
       else Raise (Exn "JIRAError" "Issue Does Not Exist");
     api_search_issues := fun _ _ _ => Return [];
     api_project := fun p =>
       if String.eqb p "WEB" then Return web_project
       else Raise (Exn "JIRAError" "No project could be found");
     api_project_components := None;
     api_myself := Return tt |}.

Definition project_network : network := fun _ => Return project_session.

(** * Properties *)

(** ** Before a session exists *)

(** C1. Every analyzer operation other than connect, called while the
    session handle is [None], raises the "Not connected to JIRA" exception
    and leaves the state as it was: the trace is unchanged, so no remote call
    was made.  The statement covers the operations of all three analyzer
    classes. *)
Theorem not_connected_before_connect :
  (forall s : Analyzer.state, Analyzer.jira (self s) = None ->
     (forall k, Analyzer.get_issue_details k s = (Raise not_connected, s)) /\
     (forall p f n, Analyzer.search_issues p f n s = (Raise not_connected, s)) /\
     (forall fuel k d,
        Analyzer.analyze_issue_relationships fuel k d s = Some (Raise not_connected, s)) /\
     (forall py p d, Analyzer.analyze_text_content py p d s = (Raise not_connected, s)) /\
     (forall p rs, Analyzer.get_cross_project_references p rs s = (Raise not_connected, s))) /\
  (forall s : Server.state, Server.jira (self s) = None ->
     (forall p, Server.get_project_info p s = (Raise not_connected, s)) /\
     (forall p, Server.analyze_project_metrics p s = (Raise not_connected, s))) /\
  (forall s : TokenServer.state, TokenServer.jira (self s) = None ->
     (forall p, TokenServer.get_project_info p s = (Raise not_connected, s)) /\
     (forall q n, TokenServer.search_issues q n s = (Raise not_connected, s)) /\
     (forall k, TokenServer.get_issue_details k s = (Raise not_connected, s)) /\
     (forall p, TokenServer.analyze_project_metrics p s = (Raise not_connected, s))).
Proof.
  split; [|split]; intros s Hnone.
  - repeat split; intros;
      unfold Analyzer.get_issue_details, Analyzer.search_issues,
        Analyzer.analyze_issue_relationships, Analyzer.analyze_text_content,
        Analyzer.get_cross_project_references, bind, Analyzer.connected;
      rewrite Hnone; reflexivity.
  - repeat split; intros;
      unfold Server.get_project_info, Server.analyze_project_metrics, bind,
        Server.connected;
      rewrite Hnone; reflexivity.
  - repeat split; intros;
      unfold TokenServer.get_project_info, TokenServer.search_issues,
        TokenServer.get_issue_details, TokenServer.analyze_project_metrics, bind,
        TokenServer.connected;
      rewrite Hnone; reflexivity.
Qed.

Lemma not_connected_before_connect_witness :
  Analyzer.get_issue_details "PROJ-1" disconnected = (Raise not_connected, disconnected) /\
  Server.get_project_info "PROJ" (System Server.init []) =
    (Raise not_connected, System Server.init []) /\
  TokenServer.search_issues "project = PROJ" 50 (System TokenServer.init []) =
    (Raise not_connected, System TokenServer.init []).
Proof.
  destruct not_connected_before_connect as (HA & HS & HT).
  split; [|split].
  - apply (HA disconnected). reflexivity.
  - apply (HS (System Server.init [])). reflexivity.
  - apply (HT (System TokenServer.init [])). reflexivity.
Defined.

(** ** Connecting *)

Lemma analyzer_connect_eq net server username api_token (s : Analyzer.state) :
  let args := JIRA_options true 30 server (credentials username api_token) in
  Analyzer.connect net server username api_token s =
    (Return (reply (net args)),
     System (match net args with
             | Return J => {| Analyzer.jira := Some J |}
             | Raise _ => self s
             end) (Call_JIRA args :: trace s)).
Proof.
  destruct s as [obj tr].
  unfold Analyzer.connect, try_except, bind, Analyzer.new_session, remote, log, ret,
    credentials, reply; simpl.
  destruct username as [u|], api_token as [t|]; simpl;
    try destruct (negb (String.eqb u "") && negb (String.eqb t "")); simpl;
    match goal with |- context [net ?a] => destruct (net a) end; reflexivity.
Qed.

Lemma server_connect_eq net server username api_token (s : Server.state) :
  let args := JIRA_server server (credentials username api_token) in
  Server.connect net server username api_token s =
    (Return (reply (net args)),
     System (match net args with
             | Return J => {| Server.jira := Some J |}
             | Raise _ => self s
             end) (Call_JIRA args :: trace s)).
Proof.
  destruct s as [obj tr].
  unfold Server.connect, try_except, bind, Server.new_session, remote, log, ret,
    credentials, reply; simpl.
  destruct username as [u|], api_token as [t|]; simpl;
    try destruct (negb (String.eqb u "") && negb (String.eqb t "")); simpl;
    match goal with |- context [net ?a] => destruct (net a) end; reflexivity.
Qed.

Lemma token_connect_eq net server api_token (s : TokenServer.state) :
  let args := JIRA_server server (token_auth api_token) in
  TokenServer.connect net server api_token s =
    match net args with
    | Raise e =>
        (Return (Analyzer.PyStr (str e)),
         System {| TokenServer.jira := TokenServer.jira (self s);
                   TokenServer.server := Some server |} (Call_JIRA args :: trace s))
    | Return J =>
        (Return (match api_myself J with
                 | Return _ => Analyzer.PyTrue
                 | Raise e => Analyzer.PyStr (str e)
                 end),
         System {| TokenServer.jira := Some J; TokenServer.server := Some server |}
                (Call_myself :: Call_JIRA args :: trace s))
    end.
Proof.
  destruct s as [obj tr].
  unfold TokenServer.connect, try_except, bind, TokenServer.set_server,
    TokenServer.set_jira, TokenServer.myself, remote, log, ret; simpl.
  destruct (net (JIRA_server server (token_auth api_token))) as [J|e]; simpl;
    [destruct (api_myself J) as [[]|e]|]; reflexivity.
Qed.

Example connect_anonymous :
  fst (Analyzer.connect open_network "https://jira.example.org" None None disconnected)
  = Return Analyzer.PyTrue.
Proof. reflexivity. Qed.

Example connect_refused :
  Analyzer.connect closed_network "https://jira.example.org" None None disconnected
  = (Return (Analyzer.PyStr "Unauthorized"),
     System Analyzer.init
       [Call_JIRA (JIRA_options true 30 "https://jira.example.org" (token_auth None))]).
Proof. reflexivity. Qed.

(** C2, as stated, fails: connecting without credentials does not always
    give a string.  When the client accepts the anonymous session, [connect]
    returns [True]. *)
Lemma connect_without_credentials_may_succeed :
  ~ (forall (net : network) (server : string) (s : Analyzer.state),
       exists text, fst (Analyzer.connect net server None None s)
                    = Return (Analyzer.PyStr text)).
Proof.
  intros H.
  destruct (H open_network "https://jira.example.org" disconnected) as [text Ht].
  discriminate Ht.
Qed.

(** C2, amended.  [connect] never raises: in each of the three classes it
    answers [True] when the client constructor returns (and, in the
    token-only class, the [myself] check after it), and otherwise the text of
    the exception.  Without credentials it builds the client with
    [token_auth=None] and answers in the same way, [True] or a string as the
    client decides.  The tools built on it always return a string, and the
    token-only tool answers a missing token without any remote call. *)
Theorem connect_never_raises :
  (forall net server username api_token (s : Analyzer.state),
     fst (Analyzer.connect net server username api_token s)
     = Return (reply (net (JIRA_options true 30 server (credentials username api_token))))) /\
  (forall net server (s : Analyzer.state),
     fst (Analyzer.connect net server None None s)
     = Return (reply (net (JIRA_options true 30 server (token_auth None))))) /\
  (forall net server username api_token (s : Server.state),
     fst (Server.connect net server username api_token s)
     = Return (reply (net (JIRA_server server (credentials username api_token))))) /\
  (forall net server api_token (s : TokenServer.state),
     fst (TokenServer.connect net server api_token s)
     = Return (match net (JIRA_server server (token_auth api_token)) with
               | Return J => match api_myself J with
                             | Return _ => Analyzer.PyTrue
                             | Raise e => Analyzer.PyStr (str e)
                             end
               | Raise e => Analyzer.PyStr (str e)
               end)) /\
  (forall net server username api_token (s : Analyzer.state),
     exists text, fst (ToolServer.connect_to_jira net server username api_token s)
                  = Return text) /\
  (forall net server username api_token (s : Server.state),
     exists text, fst (Server.connect_to_jira net server username api_token s)
                  = Return text) /\
  (forall net server api_token (s : TokenServer.state),
     exists text, fst (TokenServer.connect_to_jira net server api_token s) = Return text) /\
  (forall net server (s : TokenServer.state),
     TokenServer.connect_to_jira net server None s
     = (Return "Please provide your JIRA API token", s)).
Proof.
  repeat apply conj.
  - intros. rewrite analyzer_connect_eq. reflexivity.
  - intros. rewrite analyzer_connect_eq. reflexivity.
  - intros. rewrite server_connect_eq. reflexivity.
  - intros. rewrite token_connect_eq.
    destruct (net _) as [J|e]; reflexivity.
  - intros. unfold ToolServer.connect_to_jira, bind.
    rewrite analyzer_connect_eq. cbv zeta.
    destruct (reply _); eexists; reflexivity.
  - intros. unfold Server.connect_to_jira, bind.
    rewrite server_connect_eq. cbv zeta.
    destruct (reply _); eexists; reflexivity.
  - intros. unfold TokenServer.connect_to_jira, bind.
    destruct (truthy api_token); [|eexists; reflexivity].
    rewrite token_connect_eq. cbv zeta.
    destruct (net _) as [J|e]; [destruct (api_myself J)|]; eexists; reflexivity.
  - intros. reflexivity.
Qed.

(** C10, as stated, fails in the token-only class: the session is stored
    before the [myself] check, so when that check raises, [connect] returns
    the error text with the new, untested session in place. *)
Lemma failed_check_keeps_new_session :
  ~ (forall net server api_token (s : TokenServer.state) text,
       fst (TokenServer.connect net server api_token s) = Return (Analyzer.PyStr text) ->
       TokenServer.jira (self (snd (TokenServer.connect net server api_token s)))
       = TokenServer.jira (self s)).
Proof.
  intros H.
  specialize (H open_network "https://jira.example.org" (Some "secret")
                (System TokenServer.init []) "Unauthorized" eq_refl).
  discriminate H.
Qed.

(** C10, amended.  In [analyzer.py] and [server.py] a [connect] that returns
    an error string leaves the analyzer object as it was.  In the token-only
    class the same holds for the session handle whenever the client
    constructor is what failed. *)
Theorem failed_connect_keeps_session :
  (forall net server username api_token (s : Analyzer.state) text,
     fst (Analyzer.connect net server username api_token s) = Return (Analyzer.PyStr text) ->
     self (snd (Analyzer.connect net server username api_token s)) = self s) /\
  (forall net server username api_token (s : Server.state) text,
     fst (Server.connect net server username api_token s) = Return (Analyzer.PyStr text) ->
     self (snd (Server.connect net server username api_token s)) = self s) /\
  (forall net server api_token (s : TokenServer.state) e,
     net (JIRA_server server (token_auth api_token)) = Raise e ->
     fst (TokenServer.connect net server api_token s) = Return (Analyzer.PyStr (str e)) /\
     TokenServer.jira (self (snd (TokenServer.connect net server api_token s)))
     = TokenServer.jira (self s)).
Proof.
  split; [|split].
  - intros net server username api_token s text.
    rewrite analyzer_connect_eq. cbv zeta. simpl.
    destruct (net _); simpl; [discriminate | reflexivity].
  - intros net server username api_token s text.
    rewrite server_connect_eq. cbv zeta. simpl.
    destruct (net _); simpl; [discriminate | reflexivity].
  - intros net server api_token s e Hnet.
    rewrite token_connect_eq. cbv zeta. rewrite Hnet. split; reflexivity.
Qed.

Lemma failed_connect_keeps_session_witness :
  self (snd (Analyzer.connect closed_network "https://jira.example.org" None None
               (System {| Analyzer.jira := Some open_session |} [])))
  = {| Analyzer.jira := Some open_session |} /\
  TokenServer.jira
    (self (snd (TokenServer.connect closed_network "https://jira.example.org" (Some "t")
                  (System {| TokenServer.jira := Some open_session;
                             TokenServer.server := None |} []))))
  = Some open_session.
Proof.
  destruct failed_connect_keeps_session as (HA & _ & HT).
  split.
  - apply (HA closed_network "https://jira.example.org" None None
              (System {| Analyzer.jira := Some open_session |} []) "Unauthorized").
    reflexivity.
  - apply (HT closed_network "https://jira.example.org" (Some "t")
              (System {| TokenServer.jira := Some open_session;
                         TokenServer.server := None |} [])
              (Exn "JIRAError" "Unauthorized")).
    reflexivity.
Defined.

(** ** The relationship walk *)

Section WalkFacts.
Import Analyzer.
Variable J : JIRA.
Variable depth : Z.

Lemma fetched_since_refl st : fetched_since st st [].
Proof.
  repeat apply conj; [reflexivity | constructor | intros k [] | set_solver].
Qed.

Lemma fetched_since_trans st1 st2 st3 ks1 ks2 :
  fetched_since st1 st2 ks1 -> fetched_since st2 st3 ks2 ->
  fetched_since st1 st3 (ks2 ++ ks1).
Proof.
  intros (Ht1 & Hn1 & Hk1 & Hv1) (Ht2 & Hn2 & Hk2 & Hv2).
  repeat apply conj.
  - rewrite Ht2, Ht1, map_app, app_assoc. reflexivity.
  - apply NoDup_app. repeat apply conj; try assumption.
    intros k Hin2 Hin1. apply list_elem_of_In in Hin2, Hin1.
    destruct (Hk2 k Hin2) as [Hnot _]. destruct (Hk1 k Hin1) as [_ Hin].
    contradiction.
  - intros k Hin. apply in_app_or in Hin as [Hin|Hin].
    + destruct (Hk2 k Hin) as [Hnot Hyes]. split; [set_solver | assumption].
    + destruct (Hk1 k Hin) as [Hnot Hyes]. split; [assumption | set_solver].
  - set_solver.
Qed.

Lemma emit_fetches_once rec ty other cd links st r st' :
  fetches_once rec ->
  emit rec ty other cd links st = Some (r, st') ->
  exists ks, fetched_since st st' ks.
Proof.
  intros Hrec. unfold emit, walk_bind.
  destruct (rec (linked_key other) (cd + 1) st) as [[[nested|e] st1]|] eqn:E;
    intros H; inversion H; subst; eapply Hrec; eassumption.
Qed.

Lemma for_links_fetches_once rec cd ls :
  fetches_once rec ->
  forall links st r st',
    for_links rec cd ls links st = Some (r, st') ->
    exists ks, fetched_since st st' ks.
Proof.
  intros Hrec. induction ls as [|link rest IH]; intros links st r st'; simpl.
  - intros H. inversion H. subst. exists []. apply fetched_since_refl.
  - unfold walk_bind at 1.
    destruct (match outwardIssue link with
              | Some o => emit rec (type_outward link) o cd links
              | None => fun st0 => Some (Return links, st0)
              end st) as [[[links1|e] st1]|] eqn:E1; [| |discriminate].
    + assert (exists ks, fetched_since st st1 ks) as [ks1 H1].
      { destruct (outwardIssue link).
        - eapply emit_fetches_once; eassumption.
        - inversion E1. subst. exists []. apply fetched_since_refl. }
      unfold walk_bind at 1.
      destruct (match inwardIssue link with
                | Some i => emit rec (type_inward link) i cd links1
                | None => fun st0 => Some (Return links1, st0)
                end st1) as [[[links2|e] st2]|] eqn:E2; [| |discriminate].
      * assert (exists ks, fetched_since st1 st2 ks) as [ks2 H2].
        { destruct (inwardIssue link).
          - eapply emit_fetches_once; eassumption.
          - inversion E2. subst. exists []. apply fetched_since_refl. }
        intros H. apply IH in H as [ks3 H3].
        eexists. eapply fetched_since_trans; [|exact H3].
        eapply fetched_since_trans; eassumption.
      * assert (exists ks, fetched_since st1 st2 ks) as [ks2 H2].
        { destruct (inwardIssue link).
          - eapply emit_fetches_once; eassumption.
          - inversion E2. }
        intros H. inversion H. subst.
        eexists. eapply fetched_since_trans; eassumption.
    + intros H. inversion H. subst.
      destruct (outwardIssue link).
      * eapply emit_fetches_once; eassumption.
      * inversion E1.
Qed.

Lemma get_linked_issues_fetches_once fuel :
  fetches_once (get_linked_issues J depth fuel).
Proof.
  induction fuel as [|fuel IH]; intros k cd st r st'; simpl; [discriminate|].
  destruct ((cd >? depth) || bool_decide (k ∈ visited st)) eqn:Hstop.
  - intros H. inversion H. subst. exists []. apply fetched_since_refl.
  - apply orb_false_elim in Hstop as [_ Hfresh].
    apply bool_decide_eq_false in Hfresh.
    set (st1 := Walk ({[k]} ∪ visited st) (Call_issue k None :: wtrace st)).
    assert (fetched_since st st1 [k]) as Hstep.
    { repeat apply conj; simpl.
      - reflexivity.
      - apply NoDup_singleton.
      - intros k' [<-|[]]. split; [assumption | set_solver].
      - set_solver. }
    destruct (api_issue J k None) as [issue|e].
    + destruct (issuelinks issue) as [ls|].
      * intros H. apply (for_links_fetches_once _ _ _ IH) in H as [ks H].
        eexists. eapply fetched_since_trans; eassumption.
      * intros H. inversion H. subst. exists [k]. exact Hstep.
    + intros H. inversion H. subst. exists [k]. exact Hstep.
Qed.

Lemma emit_total rec ty other cd links st :
  total_at rec (cd + 1) ->
  exists r st', emit rec ty other cd links st = Some (r, st').
Proof.
  intros Hrec. unfold emit, walk_bind.
  destruct (Hrec (linked_key other) st) as ([nested|e] & st1 & ->); eauto.
Qed.

Lemma for_links_total rec cd ls :
  total_at rec (cd + 1) ->
  forall links st, exists r st', for_links rec cd ls links st = Some (r, st').
Proof.
  intros Hrec. induction ls as [|link rest IH]; intros links st; simpl; [eauto|].
  unfold walk_bind at 1.
  assert (exists r st1,
            match outwardIssue link with
            | Some o => emit rec (type_outward link) o cd links
            | None => fun st0 => Some (Return links, st0)
            end st = Some (r, st1)) as ([links1|e] & st1 & ->).
  { destruct (outwardIssue link); [apply emit_total; assumption | eauto]. }
  2: eauto.
  unfold walk_bind at 1.
  assert (exists r st2,
            match inwardIssue link with
            | Some i => emit rec (type_inward link) i cd links1
            | None => fun st0 => Some (Return links1, st0)
            end st1 = Some (r, st2)) as ([links2|e] & st2 & ->).
  { destruct (inwardIssue link); [apply emit_total; assumption | eauto]. }
  2: eauto.
  apply IH.
Qed.

Lemma get_linked_issues_total fuel :
  forall cd, (levels_left depth cd < fuel)%nat -> total_at (get_linked_issues J depth fuel) cd.
Proof.
  induction fuel as [|fuel IH]; intros cd Hfuel k st; [lia|]. simpl.
  destruct ((cd >? depth) || bool_decide (k ∈ visited st)) eqn:Hstop; [eauto|].
  apply orb_false_elim in Hstop as [Hle _].
  destruct (api_issue J k None) as [issue|e]; [|eauto].
  destruct (issuelinks issue) as [ls|]; [|eauto].
  apply for_links_total. apply IH. unfold levels_left in *. lia.
Qed.

Lemma map_levels_cons k e (r : relationships) :
  map_levels ((k, e) :: r) = Nat.max (entry_levels e) (map_levels r).
Proof. reflexivity. Qed.

Lemma map_levels_dict_set k e (r : relationships) n :
  (entry_levels e <= n)%nat -> (map_levels r <= n)%nat ->
  (map_levels (dict_set k e r) <= n)%nat.
Proof.
  intros He. induction r as [|[k' e'] r IH]; intros Hr.
  - change (dict_set k e []) with [(k, e)]. rewrite map_levels_cons.
    change (map_levels []) with 0%nat. lia.
  - rewrite map_levels_cons in Hr.
    change (dict_set k e ((k', e') :: r))
      with (if String.eqb k k' then (k, e) :: r else (k', e') :: dict_set k e r).
    destruct (String.eqb k k'); rewrite map_levels_cons; [lia|].
    specialize (IH ltac:(lia)). lia.
Qed.

Lemma emit_bounded rec ty other cd links st r st' n :
  bounded_at rec (cd + 1) n ->
  (map_levels links <= S n)%nat ->
  emit rec ty other cd links st = Some (Return r, st') ->
  (map_levels r <= S n)%nat.
Proof.
  intros Hrec Hlinks. unfold emit, walk_bind.
  destruct (rec (linked_key other) (cd + 1) st) as [[[nested|e] st1]|] eqn:E;
    intros H; inversion H; subst.
  apply map_levels_dict_set; [|assumption].
  simpl. apply Hrec in E. fold (map_levels nested). lia.
Qed.

Lemma for_links_bounded rec cd ls n :
  bounded_at rec (cd + 1) n ->
  forall links st r st',
    (map_levels links <= S n)%nat ->
    for_links rec cd ls links st = Some (Return r, st') ->
    (map_levels r <= S n)%nat.
Proof.
  intros Hrec. induction ls as [|link rest IH]; intros links st r st' Hlinks; simpl.
  - intros H. inversion H. subst. assumption.
  - unfold walk_bind at 1.
    destruct (match outwardIssue link with
              | Some o => emit rec (type_outward link) o cd links
              | None => fun st0 => Some (Return links, st0)
              end st) as [[[links1|e] st1]|] eqn:E1; try discriminate.
    assert (map_levels links1 <= S n)%nat as Hlinks1.
    { destruct (outwardIssue link).
      - eapply emit_bounded; eassumption.
      - inversion E1. subst. assumption. }
    unfold walk_bind at 1.
    destruct (match inwardIssue link with
              | Some i => emit rec (type_inward link) i cd links1
              | None => fun st0 => Some (Return links1, st0)
              end st1) as [[[links2|e] st2]|] eqn:E2; try discriminate.
    assert (map_levels links2 <= S n)%nat as Hlinks2.
    { destruct (inwardIssue link).
      - eapply emit_bounded; eassumption.
      - inversion E2. subst. assumption. }
    apply IH. assumption.
Qed.

Lemma get_linked_issues_bounded fuel :
  forall cd, bounded_at (get_linked_issues J depth fuel) cd (levels_left depth cd).
Proof.
  induction fuel as [|fuel IH]; intros cd k st r st'; simpl; [discriminate|].
  destruct ((cd >? depth) || bool_decide (k ∈ visited st)) eqn:Hstop.
  - intros H. inversion H. subst. simpl. lia.
  - apply orb_false_elim in Hstop as [Hle _].
    destruct (api_issue J k None) as [issue|e]; [|discriminate].
    destruct (issuelinks issue) as [ls|].
    + intros H.
      replace (levels_left depth cd) with (S (levels_left depth (cd + 1)))
        by (unfold levels_left; lia).
      eapply for_links_bounded; [apply IH| |exact H]. simpl. lia.
    + intros H. inversion H. subst. simpl. lia.
Qed.

(** Past the bound, and on a visited key, a call returns the empty map and
    touches nothing. *)
Lemma get_linked_issues_stops fuel k cd st :
  depth < cd \/ k ∈ visited st ->
  get_linked_issues J depth (S fuel) k cd st = Some (Return [], st).
Proof.
  intros Hstop. simpl.
  destruct ((cd >? depth) || bool_decide (k ∈ visited st)) eqn:E; [reflexivity|].
  apply orb_false_elim in E as [Hle Hfresh].
  apply bool_decide_eq_false in Hfresh. destruct Hstop; [lia | contradiction].
Qed.

Lemma emit_agrees rec rec' ty other cd links st x :
  agrees rec rec' ->
  emit rec ty other cd links st = Some x -> emit rec' ty other cd links st = Some x.
Proof.
  intros Hrec. unfold emit, walk_bind.
  destruct (rec (linked_key other) (cd + 1) st) as [y|] eqn:E; [|discriminate].
  rewrite (Hrec _ _ _ _ E). auto.
Qed.

Lemma for_links_agrees rec rec' cd ls :
  agrees rec rec' ->
  forall links st x,
    for_links rec cd ls links st = Some x -> for_links rec' cd ls links st = Some x.
Proof.
  intros Hrec. induction ls as [|link rest IH]; intros links st x; simpl; [auto|].
  intros H. unfold walk_bind at 1 in H. unfold walk_bind at 1.
  destruct (match outwardIssue link with
            | Some o => emit rec (type_outward link) o cd links
            | None => fun st0 => Some (Return links, st0)
            end st) as [[[links1|e] st1]|] eqn:E1; [| |discriminate].
  - assert (match outwardIssue link with
            | Some o => emit rec' (type_outward link) o cd links
            | None => fun st0 => Some (Return links, st0)
            end st = Some (Return links1, st1)) as ->.
    { destruct (outwardIssue link); [eapply emit_agrees; eassumption | assumption]. }
    unfold walk_bind at 1 in H. unfold walk_bind at 1.
    destruct (match inwardIssue link with
              | Some i => emit rec (type_inward link) i cd links1
              | None => fun st0 => Some (Return links1, st0)
              end st1) as [[[links2|e] st2]|] eqn:E2; [| |discriminate].
    + assert (match inwardIssue link with
              | Some i => emit rec' (type_inward link) i cd links1
              | None => fun st0 => Some (Return links1, st0)
              end st1 = Some (Return links2, st2)) as ->.
      { destruct (inwardIssue link); [eapply emit_agrees; eassumption | assumption]. }
      apply IH. exact H.
    + assert (match inwardIssue link with
              | Some i => emit rec' (type_inward link) i cd links1
              | None => fun st0 => Some (Return links1, st0)
              end st1 = Some (Raise e, st2)) as ->.
      { destruct (inwardIssue link); [eapply emit_agrees; eassumption | assumption]. }
      exact H.
  - assert (match outwardIssue link with
            | Some o => emit rec' (type_outward link) o cd links
            | None => fun st0 => Some (Return links, st0)
            end st = Some (Raise e, st1)) as ->.
    { destruct (outwardIssue link); [eapply emit_agrees; eassumption | assumption]. }
    exact H.
Qed.

Lemma get_linked_issues_more_fuel fuel :
  agrees (get_linked_issues J depth fuel) (get_linked_issues J depth (S fuel)).
Proof.
  induction fuel as [|fuel IH]; intros k cd st x; [discriminate|].
  change (get_linked_issues J depth (S fuel) k cd st) with
    (if (cd >? depth) || bool_decide (k ∈ visited st)
     then Some (Return [], st)
     else
       let st1 := Walk ({[ k ]} ∪ visited st) (Call_issue k None :: wtrace st) in
       match api_issue J k None with
       | Raise e => Some (Raise e, st1)
       | Return issue =>
           match issuelinks issue with
           | Some ls => for_links (get_linked_issues J depth fuel) cd ls [] st1
           | None => Some (Return [], st1)
           end
       end).
  change (get_linked_issues J depth (S (S fuel)) k cd st) with
    (if (cd >? depth) || bool_decide (k ∈ visited st)
     then Some (Return [], st)
     else
       let st1 := Walk ({[ k ]} ∪ visited st) (Call_issue k None :: wtrace st) in
       match api_issue J k None with
       | Raise e => Some (Raise e, st1)
       | Return issue =>
           match issuelinks issue with
           | Some ls => for_links (get_linked_issues J depth (S fuel)) cd ls [] st1
           | None => Some (Return [], st1)
           end
       end).
  destruct ((cd >? depth) || bool_decide (k ∈ visited st)); [auto|]. cbv zeta.
  destruct (api_issue J k None) as [issue|e]; [|auto].
  destruct (issuelinks issue) as [ls|]; [|auto].
  apply for_links_agrees. exact IH.
Qed.

Lemma get_linked_issues_fuel_irrelevant fuel fuel' k cd st x :
  (fuel <= fuel')%nat ->
  get_linked_issues J depth fuel k cd st = Some x ->
  get_linked_issues J depth fuel' k cd st = Some x.
Proof.
  intros Hle H. induction Hle as [|fuel' Hle IH]; [exact H|].
  apply get_linked_issues_more_fuel. exact IH.
Qed.

End WalkFacts.

(** Reading a dictionary after a store. *)
Lemma dict_get_set_eq {V} k (v : V) d : dict_get k (dict_set k v d) = Some v.
Proof.
  induction d as [|[k' v'] d IH]; simpl.
  - rewrite String.eqb_refl. reflexivity.
  - destruct (String.eqb k k') eqn:E; simpl.
    + rewrite String.eqb_refl. reflexivity.
    + rewrite E. exact IH.
Qed.

Lemma dict_get_set_ne {V} k k' (v : V) d :
  k <> k' -> dict_get k' (dict_set k v d) = dict_get k' d.
Proof.
  intros Hne. induction d as [|[k0 v0] d IH]; simpl.
  - destruct (String.eqb k' k) eqn:E; [|reflexivity].
    apply String.eqb_eq in E. congruence.
  - destruct (String.eqb k k0) eqn:E; simpl.
    + apply String.eqb_eq in E. subst k0.
      destruct (String.eqb k' k) eqn:E'; [|reflexivity].
      apply String.eqb_eq in E'. congruence.
    + destruct (String.eqb k' k0); [reflexivity | exact IH].
Qed.

Lemma dict_get_set_is_Some {V} k k' (v : V) d :
  is_Some (dict_get k' d) -> is_Some (dict_get k' (dict_set k v d)).
Proof.
  intros H. destruct (string_dec k k') as [->|Hne].
  - rewrite dict_get_set_eq. eauto.
  - rewrite dict_get_set_ne by assumption. exact H.
Qed.

Section EntryFacts.
Import Analyzer.

Lemma emit_stores rec ty other cd links st r st' :
  emit rec ty other cd links st = Some (Return r, st') ->
  exists nested,
    rec (linked_key other) (cd + 1) st = Some (Return nested, st') /\
    r = dict_set (linked_key other)
          (LinkEntry ty (linked_summary other) (linked_status other) nested) links.
Proof.
  unfold emit, walk_bind.
  destruct (rec (linked_key other) (cd + 1) st) as [[[nested|e] st1]|];
    intros H; inversion H; subst. eauto.
Qed.

End EntryFacts.

Example blocks_walk :
  Analyzer.analyze_issue_relationships 3 "A" 2 blocks_state =
  Some (Return {| Analyzer.ra_key := "A";
                  Analyzer.ra_relationships :=
                    [("B", Analyzer.LinkEntry "blocks" "Summary of B" "Open"
                       [("A", Analyzer.LinkEntry "is blocked by" "Summary of A" "Open" [])])] |},
        System {| Analyzer.jira := Some blocks_session |}
               [Call_issue "B" None; Call_issue "A" None]).
Proof. vm_compute. reflexivity. Qed.

(** C3. Whatever the root key, the depth bound and the links the tracker
    reports, [analyze_issue_relationships] ends (with fuel above the depth
    bound the walk always produces a result), fetches no issue key twice (the
    calls it adds to the trace are [issue(k)] for pairwise distinct [k]),
    returns the empty expansion without fetching when called past the bound,
    returns a map nested no deeper than the bound, and with depth 1 on an
    issue without links returns the empty map.  The result does not depend
    on the fuel, once there is enough of it. *)
Theorem walk_is_bounded_and_fetches_once (J : JIRA) (root : string) (depth : Z) :
  (forall fuel (s : Analyzer.state),
     (Z.to_nat depth < fuel)%nat ->
     exists r s', Analyzer.analyze_issue_relationships fuel root depth s = Some (r, s')) /\
  (forall fuel (s : Analyzer.state) r s',
     Analyzer.analyze_issue_relationships fuel root depth s = Some (r, s') ->
     exists ks, trace s' = map (fun k => Call_issue k None) ks ++ trace s /\ NoDup ks) /\
  (forall fuel k current_depth st,
     depth < current_depth ->
     Analyzer.get_linked_issues J depth (S fuel) k current_depth st = Some (Return [], st)) /\
  (forall fuel (s : Analyzer.state) r s',
     Analyzer.analyze_issue_relationships fuel root depth s = Some (Return r, s') ->
     (map_levels (Analyzer.ra_relationships r) <= Z.to_nat depth)%nat) /\
  (forall fuel (s : Analyzer.state) issue,
     Analyzer.jira (self s) = Some J ->
     api_issue J root None = Return issue ->
     issuelinks issue = None \/ issuelinks issue = Some [] ->
     Analyzer.analyze_issue_relationships (S fuel) root 1 s
     = Some (Return {| Analyzer.ra_key := root; Analyzer.ra_relationships := [] |},
             log (Call_issue root None) s)) /\
  (forall fuel fuel' (s : Analyzer.state) x,
     (fuel <= fuel')%nat ->
     Analyzer.analyze_issue_relationships fuel root depth s = Some x ->
     Analyzer.analyze_issue_relationships fuel' root depth s = Some x).
Proof.
  repeat apply conj.
  - intros fuel s Hfuel. unfold Analyzer.analyze_issue_relationships, Analyzer.connected.
    destruct (Analyzer.jira (self s)) as [J'|]; [|eauto].
    destruct (get_linked_issues_total J' depth fuel 1) with (k := root)
      (st := Analyzer.Walk ∅ (trace s)) as ([r|e] & w & ->); eauto.
    unfold levels_left. replace (depth + 1 - 1) with depth by lia. exact Hfuel.
  - intros fuel s r s'. unfold Analyzer.analyze_issue_relationships, Analyzer.connected.
    destruct (Analyzer.jira (self s)) as [J'|].
    + destruct (Analyzer.get_linked_issues J' depth fuel root 1 (Analyzer.Walk ∅ (trace s)))
        as [[[m|e] w]|] eqn:E; intros H; inversion H; subst; simpl;
        apply get_linked_issues_fetches_once in E as (ks & Ht & Hn & _);
        exists ks; auto.
    + intros H. inversion H. subst. exists []. split; [reflexivity | constructor].
  - intros fuel k cd st Hcd. apply get_linked_issues_stops. left. exact Hcd.
  - intros fuel s r s'. unfold Analyzer.analyze_issue_relationships, Analyzer.connected.
    destruct (Analyzer.jira (self s)) as [J'|]; [|discriminate].
    destruct (Analyzer.get_linked_issues J' depth fuel root 1 (Analyzer.Walk ∅ (trace s)))
      as [[[m|e] w]|] eqn:E; intros H; inversion H; subst; simpl.
    apply get_linked_issues_bounded in E. unfold levels_left in E.
    replace (depth + 1 - 1) with depth in E by lia. exact E.
  - intros fuel s issue HJ Hissue Hlinks.
    unfold Analyzer.analyze_issue_relationships, Analyzer.connected. rewrite HJ. simpl.
    rewrite Hissue. destruct s as [obj tr].
    destruct Hlinks as [->| ->]; reflexivity.
  - intros fuel fuel' s x Hle.
    unfold Analyzer.analyze_issue_relationships, Analyzer.connected.
    destruct (Analyzer.jira (self s)) as [J'|]; [|auto].
    destruct (Analyzer.get_linked_issues J' depth fuel root 1 (Analyzer.Walk ∅ (trace s)))
      as [y|] eqn:E; [|discriminate].
    rewrite (get_linked_issues_fuel_irrelevant J' depth fuel fuel' _ _ _ _ Hle E). auto.
Qed.

Lemma walk_is_bounded_and_fetches_once_witness :
  (exists r s', Analyzer.analyze_issue_relationships 3 "A" 2 blocks_state = Some (r, s')) /\
  (exists ks, [Call_issue "B" None; Call_issue "A" None]
              = map (fun k => Call_issue k None) ks ++ [] /\ NoDup ks) /\
  Analyzer.get_linked_issues blocks_session 2 1 "A" 3 (Analyzer.Walk ∅ [])
  = Some (Return [], Analyzer.Walk ∅ []).
Proof.
  destruct (walk_is_bounded_and_fetches_once blocks_session "A" 2)
    as (Hends & Honce & Hstop & _ & _ & _).
  split; [|split].
  - apply Hends. simpl. lia.
  - apply (Honce 3%nat blocks_state _ _ blocks_walk).
  - apply Hstop. lia.
Defined.

(** C4, as stated, fails.  With A blocking B and depth 2, the walk from A
    visits A, then B; B's link back to A is a link to a visited key, and it
    still gets its entry (with an empty nested map) in B's expansion. *)
Lemma visited_link_still_listed :
  Analyzer.analyze_issue_relationships 3 "A" 2 blocks_state =
    Some (Return {| Analyzer.ra_key := "A";
                    Analyzer.ra_relationships :=
                      [("B", Analyzer.LinkEntry "blocks" "Summary of B" "Open"
                         [("A", Analyzer.LinkEntry "is blocked by" "Summary of A" "Open"
                                  [])])] |},
          System {| Analyzer.jira := Some blocks_session |}
                 [Call_issue "B" None; Call_issue "A" None]) /\
  ~ visited_links_add_nothing.
Proof.
  split; [exact blocks_walk|].
  intros H.
  specialize (H blocks_session 2 1%nat "is blocked by" (neighbour "A") 2 []
                (Analyzer.Walk {[ "A"; "B" ]} [Call_issue "B" None; Call_issue "A" None])
                [("A", Analyzer.LinkEntry "is blocked by" "Summary of A" "Open" [])]
                (Analyzer.Walk {[ "A"; "B" ]} [Call_issue "B" None; Call_issue "A" None])).
  assert ([("A", Analyzer.LinkEntry "is blocked by" "Summary of A" "Open" [])]
          = ([] : Analyzer.relationships)) as Habs; [|discriminate Habs].
  apply H.
  - simpl. set_solver.
  - vm_compute. reflexivity.
Qed.

(** ** Counting and sorting *)

Lemma existsb_eqb_In k l : existsb (String.eqb k) l = true <-> In k l.
Proof.
  rewrite existsb_exists. split.
  - intros (x & Hin & Heq). apply String.eqb_eq in Heq. subst. assumption.
  - intros Hin. exists k. split; [assumption | apply String.eqb_refl].
Qed.

Lemma existsb_eqb_not_In k l : existsb (String.eqb k) l = false <-> ~ In k l.
Proof.
  rewrite <- existsb_eqb_In. destruct (existsb _ l); split; congruence.
Qed.

Lemma dict_get_Some_In {V} k (v : V) d : dict_get k d = Some v -> In (k, v) d.
Proof.
  induction d as [|[k' v'] d IH]; simpl; [discriminate|].
  destruct (String.eqb k k') eqn:E.
  - apply String.eqb_eq in E. intros H. inversion H. subst. left. reflexivity.
  - intros H. right. apply IH. assumption.
Qed.

Lemma dict_get_None_keys {V} k (d : list (string * V)) :
  dict_get k d = None <-> ~ In k (map fst d).
Proof.
  induction d as [|[k' v'] d IH]; simpl; [tauto|].
  destruct (String.eqb k k') eqn:E.
  - apply String.eqb_eq in E. subst. split; [discriminate | tauto].
  - apply String.eqb_neq in E. rewrite IH. split; [intros H [?|?]; congruence | tauto].
Qed.

Lemma In_dict_get {V} k (v : V) d :
  NoDup (map fst d) -> In (k, v) d -> dict_get k d = Some v.
Proof.
  induction d as [|[k' v'] d IH]; simpl; [intros _ []|].
  intros Hnd [Heq|Hin]; inversion Hnd; subst.
  - inversion Heq. subst. rewrite String.eqb_refl. reflexivity.
  - destruct (String.eqb k k') eqn:E; [|auto].
    apply String.eqb_eq in E. subst.
    exfalso. apply H1. apply list_elem_of_In.
    change k' with (fst (k', v)). apply in_map. assumption.
Qed.

(** The keys after a store. *)
Lemma keys_dict_set {V} k (v : V) d :
  map fst (dict_set k v d) =
  if existsb (String.eqb k) (map fst d) then map fst d else map fst d ++ [k].
Proof.
  induction d as [|[k' v'] d IH]; simpl; [reflexivity|].
  destruct (String.eqb k k') eqn:E; simpl.
  - apply String.eqb_eq in E. subst. reflexivity.
  - rewrite IH. destruct (existsb _ (map fst d)); reflexivity.
Qed.

Lemma keys_tally ks : forall d, map fst (tally ks d) = map fst d ++ nub_from (map fst d) ks.
Proof.
  induction ks as [|k ks IH]; intros d; simpl.
  - rewrite app_nil_r. reflexivity.
  - unfold tally in *. simpl. rewrite IH. unfold incr. rewrite keys_dict_set.
    destruct (existsb (String.eqb k) (map fst d)); [reflexivity|].
    rewrite <- app_assoc. reflexivity.
Qed.

Lemma nub_from_fresh ks : forall seen k, In k (nub_from seen ks) -> ~ In k seen /\ In k ks.
Proof.
  induction ks as [|k0 ks IH]; intros seen k; simpl; [intros []|].
  destruct (existsb (String.eqb k0) seen) eqn:E.
  - intros H. apply IH in H as [H1 H2]. auto.
  - apply existsb_eqb_not_In in E. intros [<-|H]; [auto|].
    apply IH in H as [H1 H2]. split; [|auto].
    intros Hin. apply H1. apply in_or_app. auto.
Qed.

Lemma nub_from_NoDup ks : forall seen, NoDup (nub_from seen ks).
Proof.
  induction ks as [|k0 ks IH]; intros seen; simpl; [constructor|].
  destruct (existsb (String.eqb k0) seen); [apply IH|].
  constructor; [|apply IH].
  intros H. apply list_elem_of_In, nub_from_fresh in H as [H _].
  apply H. apply in_or_app. simpl. auto.
Qed.

Lemma StronglySorted_weaken {A} (R R' : A -> A -> Prop) l :
  (forall a b, In a l -> In b l -> R a b -> R' a b) ->
  StronglySorted R l -> StronglySorted R' l.
Proof.
  intros Himp H. induction H as [|a l Hs IH Hall]; constructor.
  - apply IH. intros x y Hx Hy. apply Himp; right; assumption.
  - rewrite List.Forall_forall in *. intros b Hb.
    apply Himp; [left; reflexivity | right; assumption | apply Hall; assumption].
Qed.

Lemma StronglySorted_map_fst {V} (R : string -> string -> Prop) (l : list (string * V)) :
  StronglySorted R (map fst l) -> StronglySorted (fun x y => R (fst x) (fst y)) l.
Proof.
  induction l as [|x l IH]; simpl; intros H; [constructor|].
  inversion H; subst. constructor; [auto|].
  rewrite List.Forall_forall in *. intros y Hy. apply H3. apply in_map. assumption.
Qed.

Lemma first_index_skip w k ks :
  w <> k -> first_index w (k :: ks) = S (first_index w ks).
Proof. intros H. simpl. apply String.eqb_neq in H. rewrite H. reflexivity. Qed.

(** New keys enter a tally in the order in which they are first met. *)
Lemma nub_from_in_order ks :
  forall seen,
    StronglySorted (fun a b => (first_index a ks < first_index b ks)%nat) (nub_from seen ks).
Proof.
  induction ks as [|k ks IH]; intros seen; simpl nub_from; [constructor|].
  destruct (existsb (String.eqb k) seen) eqn:E.
  - apply existsb_eqb_In in E.
    eapply StronglySorted_weaken; [|apply IH].
    intros a b Ha Hb Hlt.
    apply nub_from_fresh in Ha as [Ha _]. apply nub_from_fresh in Hb as [Hb _].
    assert (a <> k) by (intros ->; contradiction).
    assert (b <> k) by (intros ->; contradiction).
    rewrite !first_index_skip by assumption. cbv beta in Hlt. lia.
  - assert (forall b, In b (nub_from (seen ++ [k]) ks) -> b <> k) as Hne.
    { intros b Hb ->. apply nub_from_fresh in Hb as [Hb _].
      apply Hb. apply in_or_app. simpl. auto. }
    constructor.
    + eapply StronglySorted_weaken; [|apply IH].
      intros a b Ha Hb Hlt.
      rewrite !first_index_skip by auto. cbv beta in Hlt. lia.
    + rewrite List.Forall_forall. intros b Hb.
      rewrite (first_index_skip b) by auto.
      simpl. rewrite String.eqb_refl. lia.
Qed.

Lemma tally_in_order stream :
  StronglySorted
    (fun x y => (first_index (fst x) stream < first_index (fst y) stream)%nat)
    (tally stream []).
Proof.
  apply (StronglySorted_map_fst
           (fun a b => (first_index a stream < first_index b stream)%nat)).
  rewrite keys_tally. simpl. apply nub_from_in_order.
Qed.

Lemma tally_keys_NoDup stream : NoDup (map fst (tally stream [])).
Proof. rewrite keys_tally. simpl. apply nub_from_NoDup. Qed.

(** Reading a counter. *)
Lemma dict_get_incr k w d :
  dict_get w (incr k d) =
  if String.eqb w k then Some (S (default O (dict_get k d))) else dict_get w d.
Proof.
  unfold incr. destruct (String.eqb w k) eqn:E.
  - apply String.eqb_eq in E. subst. apply dict_get_set_eq.
  - apply String.eqb_neq in E. apply dict_get_set_ne. congruence.
Qed.

Lemma dict_get_tally ks : forall d w,
  dict_get w (tally ks d) =
  if existsb (String.eqb w) ks
  then Some (count_occ string_dec ks w + default O (dict_get w d))%nat
  else dict_get w d.
Proof.
  induction ks as [|k ks IH]; intros d w; [reflexivity|].
  change (tally (k :: ks) d) with (tally ks (incr k d)).
  rewrite IH, dict_get_incr. simpl existsb. simpl count_occ.
  rewrite (String.eqb_sym w k).
  destruct (string_dec k w) as [->|Hne].
  - rewrite String.eqb_refl. simpl.
    destruct (existsb (String.eqb w) ks) eqn:E; simpl; f_equal; [lia|].
    apply existsb_eqb_not_In in E.
    apply (count_occ_not_In string_dec) in E. lia.
  - apply String.eqb_neq in Hne. rewrite Hne. simpl. reflexivity.
Qed.

Lemma tally_counts_all stream : counts_all stream (tally stream []).
Proof.
  split; [apply tally_keys_NoDup|].
  intros w. rewrite dict_get_tally. simpl.
  destruct (existsb (String.eqb w) stream); [f_equal; lia | reflexivity].
Qed.

(** The sort: a permutation, in descending order, and stable. *)
Lemma insert_desc_perm x l : Permutation (x :: l) (insert_desc x l).
Proof.
  induction l as [|y l IH]; simpl; [reflexivity|].
  destruct (snd y <=? snd x)%nat; [reflexivity|].
  etransitivity; [apply perm_swap|]. apply perm_skip. exact IH.
Qed.

Lemma sorted_desc_perm l : Permutation l (sorted_desc l).
Proof.
  induction l as [|x l IH]; simpl; [reflexivity|].
  etransitivity; [apply perm_skip, IH|]. apply insert_desc_perm.
Qed.

Section Stable.
Variable before : string * nat -> string * nat -> Prop.

Lemma insert_desc_stable x l :
  Forall (before x) l ->
  StronglySorted (stably_sorted before) l ->
  StronglySorted (stably_sorted before) (insert_desc x l).
Proof.
  intros Hx Hl. induction Hl as [|y l Hs IH Hy]; simpl.
  - constructor; constructor.
  - inversion Hx as [|? ? Hxy Hxl]; subst.
    destruct (snd y <=? snd x)%nat eqn:E.
    + apply Nat.leb_le in E. constructor; [constructor; assumption|].
      constructor; [split; auto|].
      rewrite List.Forall_forall in *. intros z Hz.
      destruct (Hy z Hz) as [Hle _]. split; [lia | auto].
    + apply Nat.leb_gt in E. constructor; [auto|].
      rewrite List.Forall_forall in *. intros z Hz.
      apply (Permutation_in _ (Permutation_sym (insert_desc_perm x l))) in Hz.
      destruct Hz as [<-|Hz]; [split; lia | auto].
Qed.

Lemma sorted_desc_stable l :
  StronglySorted before l -> StronglySorted (stably_sorted before) (sorted_desc l).
Proof.
  intros H. induction H as [|x l Hs IH Hx]; simpl; [constructor|].
  apply insert_desc_stable; [|assumption].
  rewrite List.Forall_forall in *. intros y Hy. apply Hx.
  apply (Permutation_in _ (Permutation_sym (sorted_desc_perm l))). assumption.
Qed.

End Stable.

Lemma sorted_desc_descending l : StronglySorted descending (sorted_desc l).
Proof.
  assert (StronglySorted (fun _ _ => True) l) as H.
  { induction l; constructor; [assumption|]. rewrite List.Forall_forall. auto. }
  apply (sorted_desc_stable (fun _ _ => True)) in H.
  eapply StronglySorted_weaken; [|exact H].
  intros a b _ _ [Hle _]. exact Hle.
Qed.

Lemma StronglySorted_firstn {A} (R : A -> A -> Prop) n l :
  StronglySorted R l -> StronglySorted R (firstn n l).
Proof.
  intros H. revert n. induction H as [|a l Hs IH Ha]; intros [|n]; simpl;
    try constructor; [apply IH|].
  rewrite List.Forall_forall in *. intros b Hb. apply Ha.
  rewrite <- (firstn_skipn n l). apply in_or_app. auto.
Qed.

Lemma StronglySorted_app_inv {A} (R : A -> A -> Prop) l1 l2 :
  StronglySorted R (l1 ++ l2) -> forall a b, In a l1 -> In b l2 -> R a b.
Proof.
  induction l1 as [|x l1 IH]; simpl; intros H a b; [intros []|].
  inversion H; subst. intros [<-|Ha] Hb.
  - rewrite List.Forall_forall in H3. apply H3. apply in_or_app. auto.
  - apply IH; assumption.
Qed.

(** A sorted table still counts everything. *)
Lemma sorted_desc_counts_all stream d :
  counts_all stream d -> counts_all stream (sorted_desc d).
Proof.
  intros [Hnd Hget].
  assert (NoDup (map fst (sorted_desc d))) as Hnd'.
  { apply NoDup_ListNoDup. apply NoDup_ListNoDup in Hnd.
    eapply Permutation_NoDup; [|exact Hnd].
    apply Permutation_map, sorted_desc_perm. }
  split; [exact Hnd'|].
  intros w. rewrite <- Hget.
  destruct (dict_get w d) as [n|] eqn:E.
  - apply In_dict_get; [exact Hnd'|].
    apply (Permutation_in _ (sorted_desc_perm d)). apply dict_get_Some_In. exact E.
  - apply dict_get_None_keys. apply dict_get_None_keys in E.
    intros Hin. apply E.
    apply (Permutation_in _ (Permutation_sym (Permutation_map fst (sorted_desc_perm d)))).
    exact Hin.
Qed.

(** What the loop has accumulated when it ends. *)
Section ScanFacts.
Import Analyzer.
Variable py : PyLib.

Lemma tally_app ks1 ks2 d : tally (ks1 ++ ks2) d = tally ks2 (tally ks1 d).
Proof. unfold tally. apply fold_left_app. Qed.

Lemma count_comments_keeps cs : forall acc acc',
  count_comments py acc cs = Return acc' ->
  acc_terms acc' = acc_terms acc /\ acc_labels acc' = acc_labels acc /\
  acc_components acc' = acc_components acc /\
  acc_total_comments acc' = (acc_total_comments acc + length cs)%nat.
Proof.
  induction cs as [|c cs IH]; intros acc acc'; simpl.
  - intros H. inversion H. subst. repeat split; lia.
  - unfold count_comment.
    destruct (day_of py (str_prefix 10 (comment_created c))); [|discriminate].
    intros H. apply IH in H as (H1 & H2 & H3 & H4). simpl in *.
    repeat split; try assumption. lia.
Qed.

Lemma scan_issues_streams issues : forall acc acc',
  scan_issues py acc issues = Return acc' ->
  acc_terms acc' = tally (flat_map (description_words py) issues) (acc_terms acc) /\
  acc_labels acc' = tally (flat_map labels issues) (acc_labels acc) /\
  acc_components acc' = tally (flat_map components issues) (acc_components acc).
Proof.
  induction issues as [|issue rest IH]; intros acc acc'; simpl.
  - intros H. inversion H. subst. auto.
  - unfold scan_issue.
    destruct (match comment issue with
              | Some cs => count_comments py _ cs
              | None => Return _
              end) as [acc2|e] eqn:E; [|discriminate].
    intros H. apply IH in H as (H1 & H2 & H3). simpl in *.
    assert (acc_terms acc2 = tally (description_words py issue) (acc_terms acc) /\
            acc_labels acc2 = acc_labels acc /\
            acc_components acc2 = acc_components acc) as (E1 & E2 & E3).
    { destruct (comment issue).
      - apply count_comments_keeps in E as (? & ? & ? & _). auto.
      - inversion E. subst. auto. }
    rewrite !tally_app, H1, H2, H3, E1, E2, E3. auto.
Qed.

End ScanFacts.

Section TextFacts.
Import Analyzer.
Variable py : PyLib.

Lemma scan_issues_without_comments issues : forall acc,
  Forall without_comments issues ->
  exists acc', scan_issues py acc issues = Return acc' /\
               acc_total_comments acc' = acc_total_comments acc.
Proof.
  induction issues as [|issue rest IH]; intros acc H; simpl; [eauto|].
  inversion H as [|? ? Hissue Hrest]; subst.
  unfold scan_issue.
  destruct Hissue as [-> | ->]; simpl;
    match goal with |- context [scan_issues py ?a rest] =>
      destruct (IH a Hrest) as (acc' & -> & Hacc) end;
    eauto.
Qed.

Lemma summarize_returns acc :
  exists a, summarize acc = Return a /\
            total_comments a = acc_total_comments acc /\
            avg_comment_length a =
              match acc_total_comments acc with
              | O => IntZero
              | S _ => Quotient (acc_total_comment_length acc) (acc_total_comments acc)
              end.
Proof.
  unfold summarize, truediv.
  destruct (acc_total_comments acc) as [|n]; simpl; eauto.
Qed.

Lemma analyze_text_content_inv project days (s : state) a s' :
  analyze_text_content py project days s = (Return a, s') ->
  exists J start issues,
    jira (self s) = Some J /\
    days_ago py days = Return start /\
    api_search_issues J (updated_since project start) 1000 (Some "changelog,comments")
      = Return issues /\
    analyze_issues py issues = Return a.
Proof.
  unfold analyze_text_content, bind, connected, lift, remote.
  destruct (jira (self s)) as [J|]; [|discriminate].
  destruct (days_ago py days) as [start|]; [|discriminate].
  destruct (api_search_issues J _ 1000 _) as [issues|] eqn:E; [|discriminate].
  intros H. inversion H. eauto 10.
Qed.

Lemma top_terms_spec terms :
  let table := firstn 50 (sorted_desc (tally terms [])) in
  (length table <= 50)%nat /\
  StronglySorted (ranked terms) table /\
  NoDup (map fst table) /\
  (forall w n, In (w, n) table -> In w terms /\ n = count_occ string_dec terms w) /\
  (forall w, In w terms -> ~ In w (map fst table) ->
             length table = 50%nat /\
             forall e, In e table -> (count_occ string_dec terms w <= snd e)%nat).
Proof.
  set (full := sorted_desc (tally terms [])).
  assert (StronglySorted (ranked terms) full) as Hsorted.
  { apply (sorted_desc_stable
             (fun x y => (first_index (fst x) terms < first_index (fst y) terms)%nat)).
    apply tally_in_order. }
  destruct (sorted_desc_counts_all _ _ (tally_counts_all terms)) as [Hnd Hget].
  fold full in Hnd, Hget.
  cbv zeta. repeat apply conj.
  - apply firstn_le_length.
  - apply StronglySorted_firstn. exact Hsorted.
  - rewrite <- (firstn_skipn 50 full), map_app in Hnd.
    apply NoDup_app in Hnd as [Hfirst _]. exact Hfirst.
  - intros w n Hin.
    assert (In (w, n) full) as Hfull.
    { rewrite <- (firstn_skipn 50 full). apply in_or_app. auto. }
    apply (In_dict_get _ _ _ Hnd) in Hfull. rewrite Hget in Hfull.
    destruct (existsb (String.eqb w) terms) eqn:E; [|discriminate].
    apply existsb_eqb_In in E. inversion Hfull. auto.
  - intros w Hw Hout.
    assert (In (w, count_occ string_dec terms w) full) as Hfull.
    { apply dict_get_Some_In. rewrite Hget.
      apply existsb_eqb_In in Hw. rewrite Hw. reflexivity. }
    rewrite <- (firstn_skipn 50 full) in Hfull, Hsorted.
    apply in_app_or in Hfull as [Hfirst|Hrest].
    { exfalso. apply Hout.
      change w with (fst (w, count_occ string_dec terms w)). apply in_map. exact Hfirst. }
    split.
    + destruct (Nat.le_gt_cases (length full) 50) as [Hshort|Hlong].
      * rewrite skipn_all2 in Hrest by exact Hshort. destruct Hrest.
      * apply firstn_length_le. lia.
    + intros e He.
      destruct (StronglySorted_app_inv _ _ _ Hsorted e _ He Hrest) as [Hle _].
      exact Hle.
Qed.

End TextFacts.

Example text_analysis_run :
  Analyzer.analyze_text_content example_py "WEB" 30
    (search_state [login_issue; quiet_issue])
  = (Return web_analysis,
     log (Call_search_issues (Analyzer.updated_since "WEB" "2024-05-01") 1000
            (Some "changelog,comments"))
         (search_state [login_issue; quiet_issue])).
Proof. vm_compute. reflexivity. Qed.

(** C5. When [analyze_text_content] returns, its [common_terms] table has
    at most 50 entries, in descending order of count, and among equal counts
    in the order in which the terms were first met; no term is listed twice,
    each entry carries the number of occurrences of its term, and a term that
    was left out occurs no more often than any term that was kept.  The [labels] and
    [components_referenced] tables are in descending order of count and hold
    every label and every component name with its count: nothing is cut. *)
Theorem text_tables_sorted_and_limited (py : Analyzer.PyLib) (project : string)
    (days : Z) (s : Analyzer.state) (a : Analyzer.analysis) (s' : Analyzer.state) :
  Analyzer.analyze_text_content py project days s = (Return a, s') ->
  exists J start issues,
    Analyzer.jira (self s) = Some J /\
    Analyzer.days_ago py days = Return start /\
    api_search_issues J (Analyzer.updated_since project start) 1000
      (Some "changelog,comments") = Return issues /\
    let terms := flat_map (Analyzer.description_words py) issues in
    (length (Analyzer.common_terms a) <= 50)%nat /\
    StronglySorted (ranked terms) (Analyzer.common_terms a) /\
    NoDup (map fst (Analyzer.common_terms a)) /\
    (forall w n, In (w, n) (Analyzer.common_terms a) ->
                 In w terms /\ n = count_occ string_dec terms w) /\
    (forall w, In w terms -> ~ In w (map fst (Analyzer.common_terms a)) ->
               length (Analyzer.common_terms a) = 50%nat /\
               forall e, In e (Analyzer.common_terms a) ->
                         (count_occ string_dec terms w <= snd e)%nat) /\
    StronglySorted descending (Analyzer.an_labels a) /\
    counts_all (flat_map labels issues) (Analyzer.an_labels a) /\
    StronglySorted descending (Analyzer.components_referenced a) /\
    counts_all (flat_map components issues) (Analyzer.components_referenced a).
Proof.
  intros H. apply analyze_text_content_inv in H as (J & start & issues & HJ & Hd & Hs & Ha).
  exists J, start, issues.
  split; [assumption|]. split; [assumption|]. split; [assumption|].
  unfold Analyzer.analyze_issues in Ha.
  destruct (Analyzer.scan_issues py Analyzer.empty_accumulator issues) as [acc|e] eqn:E;
    [|discriminate].
  apply scan_issues_streams in E as (Ht & Hl & Hc). simpl in Ht, Hl, Hc.
  destruct (summarize_returns acc) as (a' & Hsum & _). rewrite Hsum in Ha.
  inversion Ha. subst a'. clear Ha.
  unfold Analyzer.summarize in Hsum.
  destruct (if (0 <? Analyzer.acc_total_comments acc)%nat then _ else _);
    [|discriminate].
  inversion Hsum. subst a. clear Hsum. cbv zeta. simpl. rewrite Ht, Hl, Hc.
  pose proof (top_terms_spec (flat_map (Analyzer.description_words py) issues))
    as (H1 & H2 & Hkeys & H3 & H4).
  refine (conj H1 (conj H2 (conj Hkeys (conj H3 (conj H4 (conj _ (conj _ (conj _ _)))))))).
  - apply sorted_desc_descending.
  - apply sorted_desc_counts_all, tally_counts_all.
  - apply sorted_desc_descending.
  - apply sorted_desc_counts_all, tally_counts_all.
Qed.

Lemma text_tables_sorted_and_limited_witness :
  (length (Analyzer.common_terms web_analysis) <= 50)%nat /\
  StronglySorted descending (Analyzer.an_labels web_analysis).
Proof.
  destruct (text_tables_sorted_and_limited example_py "WEB" 30
              (search_state [login_issue; quiet_issue]) web_analysis _
              text_analysis_run)
    as (J & start & issues & _ & _ & _ & Hlen & _ & _ & _ & _ & Hlab & _).
  split; assumption.
Defined.

(** C6. The average is computed behind the test [total_comments > 0]: the
    statements after the loop never raise, so no division by zero happens.
    When no issue has a comment, and so when there is no issue at all, the
    analysis returns [total_comments = 0] and leaves [avg_comment_length] at
    the integer 0. *)
Theorem no_comments_no_division (py : Analyzer.PyLib) :
  (forall acc, exists a,
     Analyzer.summarize acc = Return a /\
     Analyzer.total_comments a = Analyzer.acc_total_comments acc /\
     Analyzer.avg_comment_length a =
       match Analyzer.acc_total_comments acc with
       | O => Analyzer.IntZero
       | S _ => Analyzer.Quotient (Analyzer.acc_total_comment_length acc)
                                  (Analyzer.acc_total_comments acc)
       end) /\
  (exists a, Analyzer.analyze_issues py [] = Return a /\
             Analyzer.total_comments a = 0%nat /\
             Analyzer.avg_comment_length a = Analyzer.IntZero) /\
  (forall project days (s : Analyzer.state) J start issues,
     Analyzer.jira (self s) = Some J ->
     Analyzer.days_ago py days = Return start ->
     api_search_issues J (Analyzer.updated_since project start) 1000
       (Some "changelog,comments") = Return issues ->
     Forall without_comments issues ->
     exists a,
       Analyzer.analyze_text_content py project days s
       = (Return a,
          log (Call_search_issues (Analyzer.updated_since project start) 1000
                 (Some "changelog,comments")) s) /\
       Analyzer.total_comments a = 0%nat /\
       Analyzer.avg_comment_length a = Analyzer.IntZero).
Proof.
  assert (forall issues, Forall without_comments issues ->
            exists a, Analyzer.analyze_issues py issues = Return a /\
                      Analyzer.total_comments a = 0%nat /\
                      Analyzer.avg_comment_length a = Analyzer.IntZero) as Hquiet.
  { intros issues Hissues. unfold Analyzer.analyze_issues.
    destruct (scan_issues_without_comments py issues Analyzer.empty_accumulator Hissues)
      as (acc & -> & Hacc).
    simpl in Hacc.
    destruct (summarize_returns acc) as (a & -> & Htotal & Havg).
    rewrite Hacc in Htotal, Havg. eauto. }
  repeat apply conj.
  - apply summarize_returns.
  - apply Hquiet. constructor.
  - intros project days s J start issues HJ Hd Hs Hissues.
    destruct (Hquiet issues Hissues) as (a & Ha & Htotal & Havg).
    exists a. repeat apply conj; try assumption.
    unfold Analyzer.analyze_text_content, bind, Analyzer.connected, Analyzer.lift, remote.
    rewrite HJ, Hd, Hs, Ha. reflexivity.
Qed.

Lemma no_comments_no_division_witness :
  exists a,
    Analyzer.analyze_text_content example_py "WEB" 30 (search_state [quiet_issue])
    = (Return a,
       log (Call_search_issues (Analyzer.updated_since "WEB" "2024-05-01") 1000
              (Some "changelog,comments")) (search_state [quiet_issue])) /\
    Analyzer.total_comments a = 0%nat /\
    Analyzer.avg_comment_length a = Analyzer.IntZero.
Proof.
  destruct (no_comments_no_division example_py) as (_ & _ & H).
  apply (H "WEB" 30 (search_state [quiet_issue]) (search_session [quiet_issue])
           "2024-05-01" [quiet_issue]).
  - reflexivity.
  - reflexivity.
  - reflexivity.
  - constructor; [left; reflexivity | constructor].
Defined.

(** ** Cross-project references *)

Section SharedFacts.
Import Analyzer.
Variable J : JIRA.
Variable components_of : string -> outcome (list string).
Hypothesis has_components : api_project_components J = Some components_of.
Variable project : string.

Lemma intersection_for_unique k x y :
  intersection_for components_of project k x ->
  intersection_for components_of project k y -> x = y.
Proof.
  intros (m & n & Hm & Hn & ->) (m' & n' & Hm' & Hn' & ->). congruence.
Qed.

Lemma cross_reference_shared refs related_project (s : state) refs' s' :
  cross_reference J project refs related_project s = (Return refs', s') ->
  exists x,
    intersection_for components_of project related_project x /\
    shared_components refs' =
      if bool_decide (x <> ∅)
      then dict_set related_project x (shared_components refs)
      else shared_components refs.
Proof.
  unfold cross_reference, bind, remote, component_names. rewrite has_components.
  destruct (api_search_issues J _ 100 None) as [out|]; [|discriminate].
  destruct (api_search_issues J _ 100 None) as [inc|]; [|discriminate].
  unfold bind, remote, ret.
  destruct (components_of project) as [m|] eqn:Em; [|discriminate].
  destruct (components_of related_project) as [n|] eqn:En; [|discriminate].
  intros H. inversion H. subst. simpl.
  exists (list_to_set m ∩ list_to_set n). split; [|reflexivity].
  exists m, n. auto.
Qed.

Lemma cross_reference_ok refs related_project (s : state) refs' s' handled :
  cross_reference J project refs related_project s = (Return refs', s') ->
  shared_ok components_of project refs handled ->
  shared_ok components_of project refs' (fun k => handled k \/ k = related_project).
Proof.
  intros H [Hstored Hread].
  apply cross_reference_shared in H as (x & Hx & Hrefs').
  unfold shared_ok, shared_with. rewrite Hrefs'.
  destruct (bool_decide (x <> ∅)) eqn:E.
  - apply bool_decide_eq_true in E. split.
    + intros k y. destruct (string_dec related_project k) as [<-|Hne].
      * rewrite dict_get_set_eq. intros Hy. inversion Hy. subst. auto.
      * rewrite dict_get_set_ne by assumption. intros Hy.
        apply Hstored in Hy as (? & ? & ?). auto.
    + intros k Hk. destruct (string_dec related_project k) as [<-|Hne].
      * rewrite dict_get_set_eq. exact Hx.
      * rewrite dict_get_set_ne by assumption.
        destruct Hk as [Hk| ->]; [apply Hread, Hk | congruence].
  - apply bool_decide_eq_false in E.
    assert (x = ∅) as -> by (destruct (decide (x = ∅)); [assumption | contradiction]).
    split.
    + intros k y Hy. apply Hstored in Hy as (? & ? & ?). auto.
    + intros k [Hk| ->]; [apply Hread, Hk|].
      destruct (dict_get related_project (shared_components refs)) as [y|] eqn:Ey;
        [|exact Hx].
      apply Hstored in Ey as (_ & Hy & Hne).
      exfalso. apply Hne. eapply intersection_for_unique; eassumption.
Qed.

Lemma cross_references_ok related : forall refs (s : state) r s' handled,
  cross_references J project refs related s = (Return r, s') ->
  shared_ok components_of project refs handled ->
  shared_ok components_of project r (fun k => handled k \/ In k related).
Proof.
  induction related as [|rp rest IH]; intros refs s r s' handled; simpl.
  - intros H [Hstored Hread]. inversion H. subst. split.
    + intros k x Hx. apply Hstored in Hx as (? & ? & ?). auto.
    + intros k [Hk|[]]. apply Hread, Hk.
  - unfold bind at 1.
    destruct (cross_reference J project refs rp s) as [[refs'|e] s1] eqn:E;
      [|discriminate].
    intros H Hok.
    apply (cross_reference_ok _ _ _ _ _ _ E) in Hok.
    apply (IH _ _ _ _ _ H) in Hok. destruct Hok as [Hstored Hread]. split.
    + intros k x Hx. apply Hstored in Hx as ([[?| ->]|?] & ? & ?); auto.
    + intros k [Hk|[<-|Hk]]; apply Hread; auto.
Qed.

End SharedFacts.

Lemma cross_references_without_components J project related :
  api_project_components J = None ->
  forall refs (s : Analyzer.state) r s',
    Analyzer.cross_references J project refs related s = (Return r, s') ->
    Analyzer.shared_components r = Analyzer.shared_components refs.
Proof.
  intros Hnone. induction related as [|rp rest IH]; intros refs s r s'; simpl.
  - intros H. inversion H. reflexivity.
  - unfold bind at 1.
    destruct (Analyzer.cross_reference J project refs rp s) as [[refs'|e] s1] eqn:E;
      [|discriminate].
    intros H. apply IH in H. rewrite H. clear H.
    unfold Analyzer.cross_reference, bind, remote in E. rewrite Hnone in E.
    destruct (api_search_issues J _ 100 None); [|discriminate].
    destruct (api_search_issues J _ 100 None); [|discriminate].
    inversion E. reflexivity.
Qed.

(** C7. When [get_cross_project_references] returns and the client has
    component data, then for every related project of the input list the
    value of [shared_components] at that project is exactly the intersection
    of the main project's and the related project's sets of component names.
    The table is a [defaultdict(set)] in which only non-empty intersections
    are stored, so an empty intersection is read from an absent key; no other
    key is stored.  Without component data nothing is stored. *)
Theorem shared_components_are_intersections (J : JIRA) (project : string)
    (related : list string) (s : Analyzer.state) (r : Analyzer.references)
    (s' : Analyzer.state) :
  Analyzer.jira (self s) = Some J ->
  Analyzer.get_cross_project_references project related s = (Return r, s') ->
  (forall components_of, api_project_components J = Some components_of ->
     (forall related_project, In related_project related ->
        exists main_names names,
          components_of project = Return main_names /\
          components_of related_project = Return names /\
          Analyzer.shared_with r related_project
            = list_to_set main_names ∩ list_to_set names /\
          (dict_get related_project (Analyzer.shared_components r) = None <->
           (list_to_set main_names ∩ list_to_set names : gset string) = ∅)) /\
     (forall k, ~ In k related -> dict_get k (Analyzer.shared_components r) = None)) /\
  (api_project_components J = None -> Analyzer.shared_components r = []).
Proof.
  intros HJ. unfold Analyzer.get_cross_project_references, bind, Analyzer.connected.
  rewrite HJ. intros H. split.
  - intros components_of Hc.
    apply (cross_references_ok J components_of Hc project related _ _ _ _
             (fun _ => False)) in H.
    2: { split; [intros k x Hx; discriminate Hx | intros k []]. }
    destruct H as [Hstored Hread]. split.
    + intros rp Hrp.
      destruct (Hread rp (or_intror Hrp)) as (m & n & Hm & Hn & Hx).
      exists m, n. repeat apply conj; try assumption.
      * intros Hnone. rewrite <- Hx. unfold Analyzer.shared_with. rewrite Hnone.
        reflexivity.
      * intros Hempty.
        destruct (dict_get rp (Analyzer.shared_components r)) as [y|] eqn:Ey;
          [|reflexivity].
        exfalso. unfold Analyzer.shared_with in Hx. rewrite Ey in Hx. simpl in Hx.
        apply Hstored in Ey as (_ & _ & Hne). congruence.
    + intros k Hk.
      destruct (dict_get k (Analyzer.shared_components r)) as [y|] eqn:Ey; [|reflexivity].
      apply Hstored in Ey as ([[]|Hin] & _). contradiction.
  - intros Hnone.
    apply (cross_references_without_components J project related Hnone) in H.
    exact H.
Qed.

Example shared_run :
  Analyzer.shared_components
    (match fst (Analyzer.get_cross_project_references "WEB" ["APP"; "PAY"] component_state)
     with Return r => r | Raise _ => Analyzer.empty_references end)
  = [("APP", {[ "api"; "auth" ]})].
Proof. vm_compute. reflexivity. Qed.

Lemma shared_components_are_intersections_witness :
  exists r s',
    Analyzer.get_cross_project_references "WEB" ["APP"; "PAY"] component_state
      = (Return r, s') /\
    Analyzer.shared_with r "APP" = {[ "api"; "auth" ]} /\
    Analyzer.shared_with r "PAY" = ∅.
Proof.
  destruct (Analyzer.get_cross_project_references "WEB" ["APP"; "PAY"] component_state)
    as [[r|e] s'] eqn:E; [|vm_compute in E; discriminate E].
  exists r, s'. split; [reflexivity|].
  destruct (shared_components_are_intersections component_session "WEB" ["APP"; "PAY"]
              component_state r s' eq_refl E) as [H _].
  destruct (H _ eq_refl) as [Hin _].
  split.
  - destruct (Hin "APP" ltac:(simpl; auto)) as (m & n & Hm & Hn & -> & _).
    vm_compute in Hm, Hn. inversion Hm. inversion Hn. subst. vm_compute. reflexivity.
  - destruct (Hin "PAY" ltac:(simpl; auto)) as (m & n & Hm & Hn & -> & _).
    vm_compute in Hm, Hn. inversion Hm. inversion Hn. subst. vm_compute. reflexivity.
Defined.

(** ** Reading only *)

Lemma reads_only_refl t : reads_only t t.
Proof. exists []. split; [reflexivity | constructor]. Qed.

Lemma reads_only_trans t1 t2 t3 :
  reads_only t1 t2 -> reads_only t2 t3 -> reads_only t1 t3.
Proof.
  intros (n1 & -> & H1) (n2 & -> & H2). exists (n2 ++ n1).
  split; [apply app_assoc | apply Forall_app; auto].
Qed.

Lemma read_only_pure {Obj A} (m : M (system Obj) A) :
  (forall s, trace (snd (m s)) = trace s) -> read_only m.
Proof. intros H s. rewrite H. apply reads_only_refl. Qed.

Lemma read_only_ret {Obj A} (a : A) : read_only (ret a : M (system Obj) A).
Proof. apply read_only_pure. reflexivity. Qed.

Lemma read_only_raise {Obj A} e : read_only (raise e : M (system Obj) A).
Proof. apply read_only_pure. reflexivity. Qed.

Lemma read_only_remote {Obj A} c (answer : outcome A) :
  mutates c = false -> read_only (remote c answer : M (system Obj) A).
Proof.
  intros Hc s. exists [c]. split; [reflexivity|]. constructor; [assumption | constructor].
Qed.

Lemma read_only_bind {Obj A B} (m : M (system Obj) A) (k : A -> M (system Obj) B) :
  read_only m -> (forall a, read_only (k a)) -> read_only (bind m k).
Proof.
  intros Hm Hk s. unfold bind. specialize (Hm s).
  destruct (m s) as [[a|e] s1]; simpl in *; [|assumption].
  eapply reads_only_trans; [exact Hm | apply Hk].
Qed.

Lemma read_only_try_except {Obj A} (body : M (system Obj) A) handler :
  read_only body -> (forall e, read_only (handler e)) -> read_only (try_except body handler).
Proof.
  intros Hm Hk s. unfold try_except. specialize (Hm s).
  destruct (body s) as [[a|e] s1]; simpl in *; [assumption|].
  eapply reads_only_trans; [exact Hm | apply Hk].
Qed.

Ltac reads :=
  repeat first
    [ progress intros
    | apply read_only_bind
    | apply read_only_try_except
    | apply read_only_ret
    | apply read_only_raise
    | apply read_only_remote; reflexivity
    | apply read_only_pure; intros []; reflexivity
    | match goal with
      | |- read_only (match ?x with _ => _ end) => destruct x
      | |- read_only (if ?b then _ else _) => destruct b
      end ].

Lemma analyzer_connected_read_only : read_only Analyzer.connected.
Proof.
  apply read_only_pure. intros s. unfold Analyzer.connected.
  destruct (Analyzer.jira (self s)); reflexivity.
Qed.

Lemma server_connected_read_only : read_only Server.connected.
Proof.
  apply read_only_pure. intros s. unfold Server.connected.
  destruct (Server.jira (self s)); reflexivity.
Qed.

Lemma token_connected_read_only : read_only TokenServer.connected.
Proof.
  apply read_only_pure. intros s. unfold TokenServer.connected.
  destruct (TokenServer.jira (self s)); reflexivity.
Qed.

Lemma cross_references_read_only J project related :
  forall refs, read_only (Analyzer.cross_references J project refs related).
Proof.
  induction related as [|rp rest IH]; intros refs; simpl; [apply read_only_ret|].
  apply read_only_bind; [|intros; apply IH].
  unfold Analyzer.cross_reference, Analyzer.component_names. reads.
Qed.

Lemma fetches_read_only ks t :
  reads_only t (map (fun k => Call_issue k None) ks ++ t).
Proof.
  eexists. split; [reflexivity|].
  apply Forall_forall. intros c Hc. apply list_elem_of_In, in_map_iff in Hc.
  destruct Hc as (k & <- & _). reflexivity.
Qed.

(** C8. No operation of any of the three analyzer classes, [connect]
    included, calls a write method of the client: the calls an operation adds
    to the trace are all among [JIRA(...)], [issue], [search_issues],
    [project], [project_components] and [myself], which read the tracker and
    change nothing in it. *)
Theorem operations_only_read :
  (forall net server username api_token,
     read_only (Analyzer.connect net server username api_token)) /\
  (forall k, read_only (Analyzer.get_issue_details k)) /\
  (forall p f n, read_only (Analyzer.search_issues p f n)) /\
  (forall fuel k d (s : Analyzer.state) r s',
     Analyzer.analyze_issue_relationships fuel k d s = Some (r, s') ->
     reads_only (trace s) (trace s')) /\
  (forall py p d, read_only (Analyzer.analyze_text_content py p d)) /\
  (forall p rs, read_only (Analyzer.get_cross_project_references p rs)) /\
  (forall net server username api_token,
     read_only (Server.connect net server username api_token)) /\
  (forall p, read_only (Server.get_project_info p)) /\
  (forall p, read_only (Server.analyze_project_metrics p)) /\
  (forall net server api_token, read_only (TokenServer.connect net server api_token)) /\
  (forall p, read_only (TokenServer.get_project_info p)) /\
  (forall q n, read_only (TokenServer.search_issues q n)) /\
  (forall k, read_only (TokenServer.get_issue_details k)) /\
  (forall p, read_only (TokenServer.analyze_project_metrics p)).
Proof.
  repeat apply conj.
  - intros. unfold Analyzer.connect, Analyzer.new_session. reads.
  - intros. unfold Analyzer.get_issue_details, Analyzer.getattr.
    apply read_only_bind; [apply analyzer_connected_read_only|]. reads.
  - intros. unfold Analyzer.search_issues.
    apply read_only_bind; [apply analyzer_connected_read_only|]. reads.
  - intros fuel k d s r s'.
    unfold Analyzer.analyze_issue_relationships, Analyzer.connected.
    destruct (Analyzer.jira (self s)) as [J|].
    + destruct (Analyzer.get_linked_issues J d fuel k 1 (Analyzer.Walk ∅ (trace s)))
        as [[[m|e] w]|] eqn:E; intros H; inversion H; subst; simpl;
        apply get_linked_issues_fetches_once in E as (ks & Ht & _);
        simpl in Ht; rewrite Ht; apply fetches_read_only.
    + intros H. inversion H. apply reads_only_refl.
  - intros. unfold Analyzer.analyze_text_content, Analyzer.lift.
    apply read_only_bind; [apply analyzer_connected_read_only|]. reads.
  - intros. unfold Analyzer.get_cross_project_references.
    apply read_only_bind; [apply analyzer_connected_read_only|].
    intros. apply cross_references_read_only.
  - intros. unfold Server.connect, Server.new_session. reads.
  - intros. unfold Server.get_project_info.
    apply read_only_bind; [apply server_connected_read_only|]. reads.
  - intros. unfold Server.analyze_project_metrics.
    apply read_only_bind; [apply server_connected_read_only|]. reads.
  - intros. unfold TokenServer.connect, TokenServer.set_server, TokenServer.set_jira,
      TokenServer.myself.
    reads. intros s. destruct (TokenServer.jira (self s)); simpl.
    + exists [Call_myself]. split; [reflexivity | repeat constructor].
    + apply reads_only_refl.
  - intros. unfold TokenServer.get_project_info.
    apply read_only_bind; [apply token_connected_read_only|]. reads.
  - intros. unfold TokenServer.search_issues.
    apply read_only_bind; [apply token_connected_read_only|]. reads.
  - intros. unfold TokenServer.get_issue_details.
    apply read_only_bind; [apply token_connected_read_only|]. reads.
  - intros. unfold TokenServer.analyze_project_metrics.
    apply read_only_bind; [apply token_connected_read_only|]. reads.
Qed.

Lemma operations_only_read_witness :
  reads_only [] [Call_issue "B" None; Call_issue "A" None].
Proof.
  destruct operations_only_read as (_ & _ & _ & H & _).
  apply (H 3%nat "A" 2 blocks_state _ _ blocks_walk).
Defined.

(** ** The help resource *)

(** C9. [get_help] is a lookup in a fixed table: each of the three topics
    gets its own text, and every other topic gets the fallback message.  As a
    function it is total and has one result for each topic. *)
Theorem help_is_a_lookup :
  ToolServer.get_help "connection" = ToolServer.connection_help /\
  ToolServer.get_help "analysis" = ToolServer.analysis_help /\
  ToolServer.get_help "security" = ToolServer.security_help /\
  (forall topic,
     topic <> "connection" -> topic <> "analysis" -> topic <> "security" ->
     ToolServer.get_help topic = ToolServer.topic_not_found).
Proof.
  repeat apply conj; try reflexivity.
  intros topic H1 H2 H3. unfold ToolServer.get_help, ToolServer.help_topics. simpl.
  apply String.eqb_neq in H1, H2, H3. rewrite H1, H2, H3. reflexivity.
Qed.

Lemma help_is_a_lookup_witness :
  ToolServer.get_help "billing"
  = "Topic not found. Available topics: connection, analysis, security".
Proof.
  destruct help_is_a_lookup as (_ & _ & _ & H).
  apply (H "billing"); discriminate.
Defined.

(** * Further properties *)

(** ** Project metrics *)

Lemma sum_counts_incr k d : sum_counts (incr k d) = S (sum_counts d).
Proof.
  unfold incr. induction d as [|[k' n] d IH]; simpl; [reflexivity|].
  destruct (String.eqb k k'); simpl; [lia|]. rewrite IH. lia.
Qed.

Lemma sum_counts_tally ks : forall d,
  sum_counts (tally ks d) = (length ks + sum_counts d)%nat.
Proof.
  induction ks as [|k ks IH]; intros d; [reflexivity|].
  change (tally (k :: ks) d) with (tally ks (incr k d)).
  rewrite IH, sum_counts_incr. simpl. lia.
Qed.

Lemma fold_count_issue issues : forall m,
  fold_left count_issue issues m =
  {| total_issues := total_issues m;
     by_type := tally (map issuetype issues) (by_type m);
     by_status := tally (map status issues) (by_status m);
     by_priority := tally (map priority_name issues) (by_priority m) |}.
Proof.
  induction issues as [|issue rest IH]; intros m; simpl.
  - destruct m. reflexivity.
  - rewrite IH. reflexivity.
Qed.

(** X1. [analyze_project_metrics], in both classes that have it, sends one
    search for [project = P] capped at 1000 and counts what comes back:
    [total_issues] is the number of issues, each of the three tables holds
    every issue type, status or priority name met (an issue without priority
    under "No Priority") once, with its number of occurrences, and the counts
    of each table add up to [total_issues].  The types are listed in the
    order in which they are first met. *)
Theorem metrics_count_every_issue (J : JIRA) (project : string) (issues : list Issue) :
  api_search_issues J ("project = " +:+ project) 1000 None = Return issues ->
  let m := project_metrics issues in
  (forall s : Server.state, Server.jira (self s) = Some J ->
     Server.analyze_project_metrics project s
     = (Return m, log (Call_search_issues ("project = " +:+ project) 1000 None) s)) /\
  (forall s : TokenServer.state, TokenServer.jira (self s) = Some J ->
     TokenServer.analyze_project_metrics project s
     = (Return m, log (Call_search_issues ("project = " +:+ project) 1000 None) s)) /\
  total_issues m = length issues /\
  counts_all (map issuetype issues) (by_type m) /\
  counts_all (map status issues) (by_status m) /\
  counts_all (map priority_name issues) (by_priority m) /\
  sum_counts (by_type m) = total_issues m /\
  sum_counts (by_status m) = total_issues m /\
  sum_counts (by_priority m) = total_issues m /\
  StronglySorted
    (fun x y => (first_index (fst x) (map issuetype issues)
                 < first_index (fst y) (map issuetype issues))%nat) (by_type m).
Proof.
  intros Hsearch. cbv zeta. unfold project_metrics. rewrite fold_count_issue. simpl.
  refine (conj _ (conj _ (conj eq_refl (conj _ (conj _ (conj _ (conj _ (conj _
            (conj _ (tally_in_order _)))))))))).
  - intros s HJ.
    unfold Server.analyze_project_metrics, bind, Server.connected, remote, ret.
    rewrite HJ, Hsearch. unfold project_metrics. rewrite fold_count_issue. reflexivity.
  - intros s HJ.
    unfold TokenServer.analyze_project_metrics, bind, TokenServer.connected, remote, ret.
    rewrite HJ, Hsearch. unfold project_metrics. rewrite fold_count_issue. reflexivity.
  - apply tally_counts_all.
  - apply tally_counts_all.
  - apply tally_counts_all.
  - rewrite sum_counts_tally, length_map. simpl. lia.
  - rewrite sum_counts_tally, length_map. simpl. lia.
  - rewrite sum_counts_tally, length_map. simpl. lia.
Qed.

Lemma metrics_count_every_issue_witness :
  Server.analyze_project_metrics "WEB"
    (System {| Server.jira := Some (search_session metrics_issues) |} [])
  = (Return {| total_issues := 3;
               by_type := [("Bug", 2); ("Task", 1)]%nat;
               by_status := [("Open", 3)]%nat;
               by_priority := [("High", 2); ("No Priority", 1)]%nat |},
     System {| Server.jira := Some (search_session metrics_issues) |}
            [Call_search_issues "project = WEB" 1000 None]).
Proof.
  destruct (metrics_count_every_issue (search_session metrics_issues) "WEB" metrics_issues
              eq_refl) as (H & _).
  apply (H (System {| Server.jira := Some (search_session metrics_issues) |} [])).
  reflexivity.
Defined.

(** ** Failures of the remote call *)

(** X2. Each operation that makes a single remote call makes it once and
    hands its exception on unchanged: when the call raises, the operation
    raises the same exception, nothing is retried and nothing else is asked
    of the tracker.  [get_cross_project_references] stops in the same way at
    its first search, and [analyze_text_content] makes no call at all when
    the date arithmetic before the search raises. *)
Theorem remote_failure_is_passed_on (J : JIRA) (e : exn) :
  (forall (s : Analyzer.state), Analyzer.jira (self s) = Some J ->
     (forall k, api_issue J k expand_all = Raise e ->
        Analyzer.get_issue_details k s = (Raise e, log (Call_issue k expand_all) s)) /\
     (forall p f n, api_search_issues J (filtered_jql p f) n None = Raise e ->
        Analyzer.search_issues p f n s
        = (Raise e, log (Call_search_issues (filtered_jql p f) n None) s)) /\
     (forall py p d start,
        Analyzer.days_ago py d = Return start ->
        api_search_issues J (Analyzer.updated_since p start) 1000 expand_all = Raise e ->
        Analyzer.analyze_text_content py p d s
        = (Raise e,
           log (Call_search_issues (Analyzer.updated_since p start) 1000 expand_all) s)) /\
     (forall py p d, Analyzer.days_ago py d = Raise e ->
        Analyzer.analyze_text_content py p d s = (Raise e, s)) /\
     (forall p related rest,
        api_search_issues J (Analyzer.mention_jql p related) 100 None = Raise e ->
        Analyzer.get_cross_project_references p (related :: rest) s
        = (Raise e, log (Call_search_issues (Analyzer.mention_jql p related) 100 None) s))) /\
  (forall (s : Server.state), Server.jira (self s) = Some J ->
     (forall p, api_project J p = Raise e ->
        Server.get_project_info p s = (Raise e, log (Call_project p) s)) /\
     (forall p, api_search_issues J ("project = " +:+ p) 1000 None = Raise e ->
        Server.analyze_project_metrics p s
        = (Raise e, log (Call_search_issues ("project = " +:+ p) 1000 None) s))) /\
  (forall (s : TokenServer.state), TokenServer.jira (self s) = Some J ->
     (forall p, api_project J p = Raise e ->
        TokenServer.get_project_info p s = (Raise e, log (Call_project p) s)) /\
     (forall q n, api_search_issues J q n None = Raise e ->
        TokenServer.search_issues q n s = (Raise e, log (Call_search_issues q n None) s)) /\
     (forall k, api_issue J k None = Raise e ->
        TokenServer.get_issue_details k s = (Raise e, log (Call_issue k None) s)) /\
     (forall p, api_search_issues J ("project = " +:+ p) 1000 None = Raise e ->
        TokenServer.analyze_project_metrics p s
        = (Raise e, log (Call_search_issues ("project = " +:+ p) 1000 None) s))).
Proof.
  split; [|split]; intros s HJ.
  - refine (conj _ (conj _ (conj _ (conj _ _)))).
    + intros k H. unfold Analyzer.get_issue_details, bind, Analyzer.connected, remote.
      rewrite HJ. unfold expand_all in H. rewrite H. reflexivity.
    + intros p f n H. unfold Analyzer.search_issues, bind, Analyzer.connected, remote.
      rewrite HJ. unfold filtered_jql in H.
      destruct f as [f|]; simpl in *; [destruct (negb (String.eqb f ""))|];
        rewrite H; reflexivity.
    + intros py p d start Hd H.
      unfold Analyzer.analyze_text_content, bind, Analyzer.connected, Analyzer.lift, remote.
      rewrite HJ, Hd. unfold expand_all in H. rewrite H. reflexivity.
    + intros py p d Hd.
      unfold Analyzer.analyze_text_content, bind, Analyzer.connected, Analyzer.lift.
      rewrite HJ, Hd. reflexivity.
    + intros p related rest H.
      unfold Analyzer.get_cross_project_references, bind, Analyzer.connected.
      rewrite HJ. simpl. unfold bind, Analyzer.cross_reference, bind, remote.
      rewrite H. reflexivity.
  - split.
    + intros p H. unfold Server.get_project_info, bind, Server.connected, remote.
      rewrite HJ, H. reflexivity.
    + intros p H. unfold Server.analyze_project_metrics, bind, Server.connected, remote.
      rewrite HJ, H. reflexivity.
  - refine (conj _ (conj _ (conj _ _))).
    + intros p H. unfold TokenServer.get_project_info, bind, TokenServer.connected, remote.
      rewrite HJ, H. reflexivity.
    + intros q n H. unfold TokenServer.search_issues, bind, TokenServer.connected, remote.
      rewrite HJ, H. reflexivity.
    + intros k H. unfold TokenServer.get_issue_details, bind, TokenServer.connected, remote.
      rewrite HJ, H. reflexivity.
    + intros p H.
      unfold TokenServer.analyze_project_metrics, bind, TokenServer.connected, remote.
      rewrite HJ, H. reflexivity.
Qed.

Lemma remote_failure_is_passed_on_witness :
  Analyzer.search_issues "WEB" (Some "status = Open") 100
    (System {| Analyzer.jira := Some failing_session |} [])
  = (Raise gateway_timeout,
     System {| Analyzer.jira := Some failing_session |}
            [Call_search_issues "project = WEB AND status = Open" 100 None]) /\
  TokenServer.get_project_info "WEB"
    (System {| TokenServer.jira := Some failing_session; TokenServer.server := None |} [])
  = (Raise gateway_timeout,
     System {| TokenServer.jira := Some failing_session; TokenServer.server := None |}
            [Call_project "WEB"]).
Proof.
  destruct (remote_failure_is_passed_on failing_session gateway_timeout) as (HA & _ & HT).
  split.
  - destruct (HA (System {| Analyzer.jira := Some failing_session |} []) eq_refl)
      as (_ & H & _).
    apply (H "WEB" (Some "status = Open") 100). reflexivity.
  - destruct (HT (System {| TokenServer.jira := Some failing_session;
                            TokenServer.server := None |} []) eq_refl) as (H & _).
    apply (H "WEB"). reflexivity.
Defined.

(** X3. [search_issues] of [analyzer.py] treats an empty filter as no
    filter.  When the search succeeds it returns one record per issue, in the
    order of the answer, each with the issue's key and the browse URL built
    from the session's server URL. *)
Theorem search_keeps_order_and_ignores_empty_filter :
  (forall p n (s : Analyzer.state),
     Analyzer.search_issues p (Some "") n s = Analyzer.search_issues p None n s) /\
  (forall J p f n issues (s : Analyzer.state),
     Analyzer.jira (self s) = Some J ->
     api_search_issues J (filtered_jql p f) n None = Return issues ->
     exists found,
       Analyzer.search_issues p f n s
       = (Return found, log (Call_search_issues (filtered_jql p f) n None) s) /\
       map Analyzer.s_key found = map key issues /\
       map Analyzer.s_url found
       = map (fun issue => server_url J +:+ "/browse/" +:+ key issue) issues).
Proof.
  split.
  - reflexivity.
  - intros J p f n issues s HJ H. eexists.
    unfold Analyzer.search_issues, bind, Analyzer.connected, remote, ret.
    rewrite HJ. unfold filtered_jql in H.
    destruct f as [f|]; simpl in *; [destruct (negb (String.eqb f ""))|];
      rewrite H; (split; [reflexivity|]); rewrite !map_map; split; reflexivity.
Qed.

Lemma search_keeps_order_and_ignores_empty_filter_witness :
  exists found,
    Analyzer.search_issues "WEB" None 100 (search_state metrics_issues)
    = (Return found,
       log (Call_search_issues "project = WEB" 100 None) (search_state metrics_issues)) /\
    map Analyzer.s_key found = ["WEB-1"; "WEB-2"; "WEB-3"].
Proof.
  destruct search_keeps_order_and_ignores_empty_filter as [_ H].
  destruct (H (search_session metrics_issues) "WEB" None 100 metrics_issues
              (search_state metrics_issues) eq_refl eq_refl) as (found & Hrun & Hkeys & _).
  exists found. split; [exact Hrun | exact Hkeys].
Defined.

(** ** More on the relationship walk *)

Section WalkMore.
Import Analyzer.
Variable J : JIRA.
Variable depth : Z.

(** The keys of the map a level builds. *)
Lemma nub_from_app a : forall seen b,
  seen ++ nub_from seen (a ++ b)
  = (seen ++ nub_from seen a) ++ nub_from (seen ++ nub_from seen a) b.
Proof.
  induction a as [|k a IH]; intros seen b; simpl.
  - rewrite app_nil_r. reflexivity.
  - destruct (existsb (String.eqb k) seen); [apply IH|].
    change (k :: nub_from (seen ++ [k]) (a ++ b))
      with ([k] ++ nub_from (seen ++ [k]) (a ++ b)).
    change (k :: nub_from (seen ++ [k]) a) with ([k] ++ nub_from (seen ++ [k]) a).
    rewrite !app_assoc. apply IH.
Qed.

Lemma emit_keys rec ty other cd links st r st' :
  emit rec ty other cd links st = Some (Return r, st') ->
  map fst r = map fst links ++ nub_from (map fst links) [linked_key other].
Proof.
  intros H. apply emit_stores in H as (nested & _ & ->).
  rewrite keys_dict_set. simpl.
  destruct (existsb (String.eqb (linked_key other)) (map fst links));
    [rewrite app_nil_r|]; reflexivity.
Qed.

Lemma for_links_keys rec cd ls : forall links st r st',
  for_links rec cd ls links st = Some (Return r, st') ->
  map fst r = map fst links ++ nub_from (map fst links) (neighbour_keys ls).
Proof.
  induction ls as [|link rest IH]; intros links st r st'; simpl.
  - intros H. inversion H. subst. rewrite app_nil_r. reflexivity.
  - intros H. unfold walk_bind at 1 in H.
    destruct (match outwardIssue link with
              | Some o => emit rec (type_outward link) o cd links
              | None => fun st0 => Some (Return links, st0)
              end st) as [[[links1|e1] st1]|] eqn:E1; try discriminate.
    unfold walk_bind at 1 in H.
    destruct (match inwardIssue link with
              | Some i => emit rec (type_inward link) i cd links1
              | None => fun st0 => Some (Return links1, st0)
              end st1) as [[[links2|e2] st2]|] eqn:E2; try discriminate.
    apply IH in H. rewrite H.
    assert (map fst links1 = map fst links ++
              nub_from (map fst links)
                match outwardIssue link with Some o => [linked_key o] | None => [] end)
      as H1.
    { destruct (outwardIssue link).
      - eapply emit_keys. exact E1.
      - inversion E1. subst. simpl. rewrite app_nil_r. reflexivity. }
    assert (map fst links2 = map fst links1 ++
              nub_from (map fst links1)
                match inwardIssue link with Some i => [linked_key i] | None => [] end)
      as H2.
    { destruct (inwardIssue link).
      - eapply emit_keys. exact E2.
      - inversion E2. subst. simpl. rewrite app_nil_r. reflexivity. }
    rewrite (nub_from_app _ (map fst links)), (nub_from_app _ (map fst links)).
    rewrite <- H1, <- H2. reflexivity.
Qed.

(** The key of a finished call is visited. *)
Lemma get_linked_issues_visits_key fuel : visits_key depth (get_linked_issues J depth fuel).
Proof.
  intros k cd st r st'. destruct fuel as [|fuel]; simpl; [discriminate|].
  destruct ((cd >? depth) || bool_decide (k ∈ visited st)) eqn:Hstop.
  - intros H. inversion H. subst.
    apply orb_true_iff in Hstop as [Hgt|Hin].
    + left. lia.
    + right. apply bool_decide_eq_true in Hin. exact Hin.
  - set (st1 := Walk ({[k]} ∪ visited st) (Call_issue k None :: wtrace st)).
    assert (k ∈ visited st1) as Hk by (simpl; set_solver).
    destruct (api_issue J k None) as [issue|e].
    + destruct (issuelinks issue) as [ls|].
      * intros H.
        apply (for_links_fetches_once _ _ _ (get_linked_issues_fetches_once J depth fuel))
          in H as (ks & _ & _ & _ & Hsub).
        right. set_solver.
      * intros H. inversion H. subst. right. exact Hk.
    + intros H. inversion H. subst. right. exact Hk.
Qed.

End WalkMore.

Section WalkEnds.
Import Analyzer.
Variable J : JIRA.
Variable depth : Z.

Lemma emit_all_app rec cd a : forall b links st,
  emit_all rec cd (a ++ b) links st
  = walk_bind (emit_all rec cd a links) (fun links' => emit_all rec cd b links') st.
Proof.
  induction a as [|[ty other] a IH]; intros b links st; simpl; [reflexivity|].
  unfold walk_bind.
  destruct (emit rec ty other cd links st) as [[[links1|e] st1]|]; try reflexivity.
  rewrite IH. reflexivity.
Qed.

Lemma for_links_is_emit_all rec cd ls : forall links st,
  for_links rec cd ls links st = emit_all rec cd (link_ends ls) links st.
Proof.
  induction ls as [|link rest IH]; intros links st; simpl; [reflexivity|].
  rewrite emit_all_app.
  destruct (outwardIssue link) as [o|], (inwardIssue link) as [i|]; simpl;
    unfold walk_bind;
    repeat match goal with
      | |- context [emit rec ?ty ?o cd ?l ?s] =>
          destruct (emit rec ty o cd l s) as [[[?|?] ?]|]; try reflexivity
      end;
    apply IH.
Qed.

Lemma neighbour_keys_ends ls :
  neighbour_keys ls = map (fun p => linked_key (snd p)) (link_ends ls).
Proof.
  induction ls as [|link rest IH]; simpl; [reflexivity|].
  rewrite map_app, IH.
  destruct (outwardIssue link), (inwardIssue link); reflexivity.
Qed.

(** One store: what it does to the invariant and to the childless keys. *)
Lemma emit_step fuel ty other cd links st r st' :
  stored_are_visited depth (cd + 1) links st ->
  emit (get_linked_issues J depth fuel) ty other cd links st = Some (Return r, st') ->
  stored_are_visited depth (cd + 1) r st' /\
  is_Some (dict_get (linked_key other) r) /\
  (is_Some (dict_get (linked_key other) links) -> childless (linked_key other) r) /\
  (forall k, childless k links -> childless k r).
Proof.
  intros Hinv H. apply emit_stores in H as (nested & Hrec & ->).
  pose proof (get_linked_issues_visits_key J depth fuel _ _ _ _ _ Hrec) as Hvis.
  pose proof (get_linked_issues_fetches_once J depth fuel _ _ _ _ _ Hrec)
    as (ks & _ & _ & _ & Hsub).
  assert (is_Some (dict_get (linked_key other) links) -> nested = []) as Hempty.
  { intros Hstored. destruct fuel as [|fuel]; [discriminate|].
    rewrite get_linked_issues_stops in Hrec; [inversion Hrec; reflexivity|].
    destruct (Hinv _ Hstored); auto. }
  repeat apply conj.
  - intros k Hk. destruct (string_dec (linked_key other) k) as [<-|Hne]; [exact Hvis|].
    rewrite dict_get_set_ne in Hk by assumption.
    destruct (Hinv _ Hk) as [?|?]; [left; assumption | right; set_solver].
  - rewrite dict_get_set_eq. eauto.
  - intros Hstored. eexists. rewrite dict_get_set_eq. split; [reflexivity|].
    simpl. auto.
  - intros k (entry & Hentry & Hlinks).
    destruct (string_dec (linked_key other) k) as [<-|Hne].
    + eexists. rewrite dict_get_set_eq. split; [reflexivity|].
      simpl. apply Hempty. rewrite Hentry. eauto.
    + exists entry. rewrite dict_get_set_ne by assumption. auto.
Qed.

Lemma emit_all_repeats fuel cd ends : forall links st r st',
  stored_are_visited depth (cd + 1) links st ->
  emit_all (get_linked_issues J depth fuel) cd ends links st = Some (Return r, st') ->
  (forall k, is_Some (dict_get k links) -> is_Some (dict_get k r)) /\
  (forall k, childless k links -> childless k r) /\
  (forall k, In k (map (fun p => linked_key (snd p)) ends) ->
             is_Some (dict_get k links) -> childless k r) /\
  (forall k, (2 <= count_occ string_dec (map (fun p => linked_key (snd p)) ends) k)%nat ->
             childless k r).
Proof.
  induction ends as [|[ty other] rest IH]; intros links st r st' Hinv; simpl.
  - intros H. inversion H. subst. repeat apply conj; auto.
    + intros k [].
    + intros k Hk. lia.
  - unfold walk_bind.
    destruct (emit (get_linked_issues J depth fuel) ty other cd links st)
      as [[[links1|e] st1]|] eqn:E; try discriminate.
    intros H.
    destruct (emit_step _ _ _ _ _ _ _ _ Hinv E) as (Hinv1 & Hnew & Hagain & Hkeep).
    destruct (IH _ _ _ _ Hinv1 H) as (Hsome & Hchild & Hin & Htwice).
    assert (forall k, is_Some (dict_get k links) -> is_Some (dict_get k links1)) as Hmono.
    { intros k Hk. apply emit_stores in E as (nested & _ & ->).
      apply dict_get_set_is_Some. exact Hk. }
    repeat apply conj.
    + intros k Hk. auto.
    + intros k Hk. auto.
    + intros k [<-|Hk] Hstored; [apply Hchild, Hagain, Hstored|].
      apply Hin; auto.
    + intros k Hk. destruct (string_dec (linked_key other) k) as [<-|Hne].
      * destruct (in_dec string_dec (linked_key other)
                    (map (fun p => linked_key (snd p)) rest)) as [Hlater|Hnot].
        -- apply Hin; assumption.
        -- apply (count_occ_not_In string_dec) in Hnot. lia.
      * apply Htwice. assumption.
Qed.

(** The fetches of a run account for its outcome. *)
Lemma accounts_for_after {A B} ks1 ks2 (r1 : A) (r : outcome B) :
  accounts_for J ks1 (Return r1) -> accounts_for J ks2 r ->
  accounts_for J (ks2 ++ ks1) r.
Proof.
  intros H1 H2. simpl in H1.
  assert (forall l, answered J l -> answered J (l ++ ks1)) as Happ.
  { intros l Hl k Hk. apply in_app_or in Hk as [Hk|Hk]; [apply Hl | apply H1]; exact Hk. }
  destruct r as [b|e]; simpl in *.
  - apply Happ. exact H2.
  - destruct H2 as (k & rest & -> & Hk & Hrest).
    exists k, (rest ++ ks1). repeat apply conj; [reflexivity | exact Hk | apply Happ, Hrest].
Qed.

Lemma emit_accounted rec ty other cd links st r st' :
  accounted J rec ->
  emit rec ty other cd links st = Some (r, st') ->
  exists ks,
    wtrace st' = map (fun k => Call_issue k None) ks ++ wtrace st /\
    accounts_for J ks r.
Proof.
  intros Hrec. unfold emit, walk_bind.
  destruct (rec (linked_key other) (cd + 1) st) as [[[nested|e] st1]|] eqn:E;
    intros H; inversion H; subst; apply Hrec in E as (ks & Ht & Hks); eauto.
Qed.

Lemma emit_all_accounted rec cd ends : forall links st r st',
  accounted J rec ->
  emit_all rec cd ends links st = Some (r, st') ->
  exists ks,
    wtrace st' = map (fun k => Call_issue k None) ks ++ wtrace st /\
    accounts_for J ks r.
Proof.
  induction ends as [|[ty other] rest IH]; intros links st r st' Hrec; simpl.
  - intros H. inversion H. subst. exists []. split; [reflexivity | intros k []].
  - unfold walk_bind.
    destruct (emit rec ty other cd links st) as [[[links1|e] st1]|] eqn:E;
      try discriminate.
    + intros H. apply (emit_accounted _ _ _ _ _ _ _ _ Hrec) in E as (ks1 & Ht1 & H1).
      apply (IH _ _ _ _ Hrec) in H as (ks2 & Ht2 & H2).
      exists (ks2 ++ ks1). split.
      * rewrite Ht2, Ht1, map_app, app_assoc. reflexivity.
      * eapply accounts_for_after; eassumption.
    + intros H. inversion H. subst. eapply emit_accounted; eassumption.
Qed.

Lemma get_linked_issues_accounted fuel : accounted J (get_linked_issues J depth fuel).
Proof.
  induction fuel as [|fuel IH]; intros k cd st r st'; simpl; [discriminate|].
  destruct ((cd >? depth) || bool_decide (k ∈ visited st)).
  - intros H. inversion H. subst. exists []. split; [reflexivity | intros k' []].
  - destruct (api_issue J k None) as [issue|e] eqn:E.
    + assert (accounts_for J [k] (Return issue)) as Hk.
      { intros k' [<-|[]]. eauto. }
      destruct (issuelinks issue) as [ls|].
      * rewrite for_links_is_emit_all. intros H.
        apply (emit_all_accounted _ _ _ _ _ _ _ IH) in H as (ks & Ht & Hks).
        exists (ks ++ [k]). split.
        -- rewrite Ht. simpl. rewrite map_app, <- app_assoc. reflexivity.
        -- eapply accounts_for_after; eassumption.
      * intros H. inversion H. subst. exists [k]. split; [reflexivity | exact Hk].
    + intros H. inversion H. subst. exists [k]. split; [reflexivity|].
      exists k, []. repeat apply conj; [reflexivity | exact E | intros k' []].
Qed.

End WalkEnds.

Example failed_fetch_run :
  Analyzer.analyze_issue_relationships 3 "D" 2 twice_state =
  Some (Raise (Exn "JIRAError" "Issue Does Not Exist"),
        System {| Analyzer.jira := Some twice_session |}
               [Call_issue "GONE" None; Call_issue "C" None; Call_issue "D" None]).
Proof. vm_compute. reflexivity. Qed.

(** X4. A failed fetch ends the walk at once.  Of the fetches
    [issue(k)] a run of [analyze_issue_relationships] makes, one that raises
    is the last call made, its exception is what the operation raises, and
    every fetch before it was answered; nothing of what had been collected
    is returned.  So a walk that returns a map had every fetch answered. *)
Theorem walk_stops_at_failed_fetch (J : JIRA) (fuel : nat) (root : string) (depth : Z)
    (s : Analyzer.state) (r : outcome Analyzer.relationship_analysis)
    (s' : Analyzer.state) :
  Analyzer.jira (self s) = Some J ->
  Analyzer.analyze_issue_relationships fuel root depth s = Some (r, s') ->
  exists ks,
    trace s' = map (fun k => Call_issue k None) ks ++ trace s /\
    (forall k e,
       In k ks -> api_issue J k None = Raise e ->
       r = Raise e /\ exists rest, ks = k :: rest /\ answered J rest) /\
    (forall found, r = Return found -> answered J ks).
Proof.
  intros HJ. unfold Analyzer.analyze_issue_relationships, Analyzer.connected. rewrite HJ.
  destruct (Analyzer.get_linked_issues J depth fuel root 1 (Analyzer.Walk ∅ (trace s)))
    as [[w_result w]|] eqn:E; [|discriminate].
  apply get_linked_issues_accounted in E as (ks & Ht & Hks). simpl in Ht.
  intros H.
  assert (trace s' = map (fun k => Call_issue k None) ks ++ trace s /\ accounts_for J ks r)
    as [Htrace Hr].
  { destruct w_result as [m|e]; inversion H; subst; simpl; auto. }
  exists ks. split; [exact Htrace|]. split.
  - intros k e Hin Hfail. destruct r as [found|e']; simpl in Hr.
    + destruct (Hr k Hin) as [issue Hissue]. congruence.
    + destruct Hr as (k' & rest & -> & Hk' & Hrest).
      destruct Hin as [<-|Hin].
      * split; [congruence | eauto].
      * destruct (Hrest k Hin) as [issue Hissue]. congruence.
  - intros found ->. exact Hr.
Qed.

Lemma walk_stops_at_failed_fetch_witness :
  exists ks,
    [Call_issue "GONE" None; Call_issue "C" None; Call_issue "D" None]
    = map (fun k => Call_issue k None) ks ++ [] /\
    (forall k e,
       In k ks -> api_issue twice_session k None = Raise e ->
       Raise (Exn "JIRAError" "Issue Does Not Exist")
       = (Raise e : outcome Analyzer.relationship_analysis) /\
       exists rest, ks = k :: rest /\ answered twice_session rest).
Proof.
  destruct (walk_stops_at_failed_fetch twice_session 3 "D" 2 twice_state _ _ eq_refl
              failed_fetch_run) as (ks & Ht & Hfail & _).
  exists ks. split; [exact Ht | exact Hfail].
Defined.

Example twice_run :
  Analyzer.analyze_issue_relationships 4 "A" 3 twice_state =
  Some (Return {| Analyzer.ra_key := "A";
                  Analyzer.ra_relationships :=
                    [("B", Analyzer.LinkEntry "relates to" "Summary of B" "Open" [])] |},
        System {| Analyzer.jira := Some twice_session |}
               [Call_issue "C" None; Call_issue "B" None; Call_issue "A" None]).
Proof. vm_compute. reflexivity. Qed.

(** X5. With a depth of at least 1 the root is the first issue fetched;
    with a smaller depth nothing is fetched and the relationship map is
    empty.  When the walk returns, the keys of the top-level map are the
    neighbour keys of the root's links, each once, in the order in which the
    links list them (outward before inward within a link). *)
Theorem root_first_and_keys_in_link_order (J : JIRA) (root : string) (depth : Z)
    (s : Analyzer.state) :
  Analyzer.jira (self s) = Some J ->
  (depth < 1 ->
   forall fuel,
     Analyzer.analyze_issue_relationships (S fuel) root depth s
     = Some (Return {| Analyzer.ra_key := root; Analyzer.ra_relationships := [] |}, s)) /\
  (1 <= depth ->
   forall fuel r s',
     Analyzer.analyze_issue_relationships fuel root depth s = Some (r, s') ->
     exists ks, trace s' = map (fun k => Call_issue k None) (ks ++ [root]) ++ trace s) /\
  (1 <= depth ->
   forall fuel r s' issue,
     Analyzer.analyze_issue_relationships fuel root depth s = Some (Return r, s') ->
     api_issue J root None = Return issue ->
     map fst (Analyzer.ra_relationships r)
     = nub_from [] (neighbour_keys (default [] (issuelinks issue)))).
Proof.
  intros HJ. repeat apply conj.
  - intros Hdepth fuel.
    unfold Analyzer.analyze_issue_relationships, Analyzer.connected. rewrite HJ.
    rewrite get_linked_issues_stops by (left; lia). destruct s. reflexivity.
  - intros Hdepth fuel r s'.
    unfold Analyzer.analyze_issue_relationships, Analyzer.connected. rewrite HJ.
    destruct fuel as [|fuel]; [discriminate|]. simpl.
    replace (1 >? depth) with false by (symmetry; rewrite Z.gtb_ltb; apply Z.ltb_ge; lia).
    simpl.
    assert (forall x w,
              match api_issue J root None with
              | Return issue =>
                  match issuelinks issue with
                  | Some ls =>
                      Analyzer.for_links (Analyzer.get_linked_issues J depth fuel) 1 ls []
                        (Analyzer.Walk ({[root]} ∪ ∅) (Call_issue root None :: trace s))
                  | None =>
                      Some (Return [],
                            Analyzer.Walk ({[root]} ∪ ∅) (Call_issue root None :: trace s))
                  end
              | Raise e =>
                  Some (Raise e,
                        Analyzer.Walk ({[root]} ∪ ∅) (Call_issue root None :: trace s))
              end = Some (x, w) ->
              exists ks, Analyzer.wtrace w
                         = map (fun k => Call_issue k None) (ks ++ [root]) ++ trace s)
      as Hwalk.
    { intros x w. destruct (api_issue J root None) as [issue|e].
      - destruct (issuelinks issue) as [ls|].
        + intros H.
          apply (for_links_fetches_once _ _ _
                   (get_linked_issues_fetches_once J depth fuel)) in H
            as (ks & Ht & _).
          exists ks. rewrite Ht. simpl. rewrite map_app, <- app_assoc. reflexivity.
        + intros H. inversion H. exists []. reflexivity.
      - intros H. inversion H. exists []. reflexivity. }
    destruct (match api_issue J root None with Return _ => _ | Raise _ => _ end)
      as [[[m|e] w]|] eqn:E; intros H; inversion H; subst; simpl;
      eapply Hwalk; reflexivity.
  - intros Hdepth fuel r s' issue.
    unfold Analyzer.analyze_issue_relationships, Analyzer.connected. rewrite HJ.
    destruct fuel as [|fuel]; [discriminate|]. simpl.
    replace (1 >? depth) with false by (symmetry; rewrite Z.gtb_ltb; apply Z.ltb_ge; lia).
    simpl. intros H Hissue. rewrite Hissue in H.
    destruct (issuelinks issue) as [ls|]; simpl.
    + destruct (Analyzer.for_links _ 1 ls [] _) as [[[m|e] w]|] eqn:E;
        inversion H; subst; simpl.
      apply for_links_keys in E. exact E.
    + inversion H. reflexivity.
Qed.

Lemma root_first_and_keys_in_link_order_witness :
  (exists ks, [Call_issue "C" None; Call_issue "B" None; Call_issue "A" None]
              = map (fun k => Call_issue k None) (ks ++ ["A"]) ++ []) /\
  map fst [("B", Analyzer.LinkEntry "relates to" "Summary of B" "Open" [])]
  = nub_from [] (neighbour_keys [link_to "blocks" "B"; link_to "relates to" "B"]).
Proof.
  destruct (root_first_and_keys_in_link_order twice_session "A" 3 twice_state eq_refl)
    as (_ & Hfirst & Hkeys).
  split.
  - apply (Hfirst ltac:(lia) 4%nat _ _ twice_run).
  - apply (Hkeys ltac:(lia) 4%nat _ _
             (plain_issue "A" (Some [link_to "blocks" "B"; link_to "relates to" "B"]))
             twice_run).
    reflexivity.
Defined.

(** X6. When the links of an issue name the same neighbour more than
    once, the entry kept for that neighbour has an empty nested map: the
    later store replaces the earlier one, and by then the neighbour is
    visited (or the next level is past the bound), so its expansion is
    empty. *)
Theorem repeated_neighbour_has_empty_expansion (J : JIRA) (depth : Z) (fuel : nat)
    (k : string) (current_depth : Z) (st : Analyzer.walk_state)
    (r : Analyzer.relationships) (st' : Analyzer.walk_state) (issue : Issue)
    (ls : list IssueLink) :
  Analyzer.get_linked_issues J depth fuel k current_depth st = Some (Return r, st') ->
  current_depth <= depth ->
  k ∉ Analyzer.visited st ->
  api_issue J k None = Return issue ->
  issuelinks issue = Some ls ->
  forall k', (2 <= count_occ string_dec (neighbour_keys ls) k')%nat ->
             exists entry, dict_get k' r = Some entry /\ Analyzer.entry_links entry = [].
Proof.
  intros H Hcd Hfresh Hissue Hls k' Htwice.
  destruct fuel as [|fuel]; [discriminate|]. simpl in H.
  replace (current_depth >? depth) with false in H
    by (symmetry; rewrite Z.gtb_ltb; apply Z.ltb_ge; lia).
  rewrite bool_decide_eq_false_2 in H by assumption. simpl in H.
  rewrite Hissue, Hls, for_links_is_emit_all in H.
  apply emit_all_repeats in H as (_ & _ & _ & Hrep).
  - apply Hrep. rewrite <- neighbour_keys_ends. exact Htwice.
  - intros x [y Hy]. discriminate Hy.
Qed.

Lemma repeated_neighbour_has_empty_expansion_witness :
  exists entry,
    dict_get "B" [("B", Analyzer.LinkEntry "relates to" "Summary of B" "Open" [])]
    = Some entry /\ Analyzer.entry_links entry = [].
Proof.
  apply (repeated_neighbour_has_empty_expansion twice_session 3 4 "A" 1
           (Analyzer.Walk ∅ []) _
           (Analyzer.Walk {[ "C"; "B"; "A" ]}
              [Call_issue "C" None; Call_issue "B" None; Call_issue "A" None])
           (plain_issue "A" (Some [link_to "blocks" "B"; link_to "relates to" "B"]))
           [link_to "blocks" "B"; link_to "relates to" "B"]).
  - vm_compute. reflexivity.
  - lia.
  - set_solver.
  - reflexivity.
  - reflexivity.
  - vm_compute. lia.
Defined.

(** ** The entries of the relationship map *)

Section Entries.
Import Analyzer.
Variable rec : string -> Z -> walk relationships.
Variable cd : Z.

Lemma emit_all_split a : forall b links st r st',
  emit_all rec cd (a ++ b) links st = Some (Return r, st') ->
  exists links1 st1,
    emit_all rec cd a links st = Some (Return links1, st1) /\
    emit_all rec cd b links1 st1 = Some (Return r, st').
Proof.
  intros b links st r st'. rewrite emit_all_app. unfold walk_bind.
  destruct (emit_all rec cd a links st) as [[[links1|e] st1]|]; try discriminate.
  eauto.
Qed.

Lemma emit_all_other ends : forall links st r st' k,
  emit_all rec cd ends links st = Some (Return r, st') ->
  (forall p, In p ends -> linked_key (snd p) <> k) ->
  dict_get k r = dict_get k links.
Proof.
  induction ends as [|[ty other] rest IH]; intros links st r st' k; simpl.
  - intros H _. inversion H. reflexivity.
  - unfold walk_bind.
    destruct (emit rec ty other cd links st) as [[[links1|e] st1]|] eqn:E;
      try discriminate.
    intros H Hne. rewrite (IH _ _ _ _ _ H) by (intros p Hp; apply Hne; auto).
    apply emit_stores in E as (nested & _ & ->).
    apply dict_get_set_ne. apply (Hne (ty, other)). auto.
Qed.

End Entries.

(** C4, amended.  At each level an entry is stored for every end of
    every link of the issue, outward ends under the link's outward type and
    inward ends under its inward type, in the order of the links and
    outward before inward, whether or not the neighbour has been visited.
    The entry holds that type, the neighbour's summary and status, and as
    nested expansion what the recursive call returns in the state the stores
    before it have left; for a neighbour visited by then this is the empty
    map, and nothing is fetched.  An entry is stored under the neighbour's
    key, so the last end naming a key decides its entry, and the keys of the
    level's map are exactly the neighbour keys. *)
Theorem every_link_gets_an_entry (J : JIRA) (depth : Z) (fuel : nat)
    (k : string) (current_depth : Z) (st : Analyzer.walk_state)
    (r : Analyzer.relationships) (st' : Analyzer.walk_state)
    (issue : Issue) (ls : list IssueLink) :
  Analyzer.get_linked_issues J depth (S fuel) k current_depth st = Some (Return r, st') ->
  current_depth <= depth ->
  k ∉ Analyzer.visited st ->
  api_issue J k None = Return issue ->
  issuelinks issue = Some ls ->
  let rec := Analyzer.get_linked_issues J depth fuel in
  let st0 := Analyzer.Walk ({[ k ]} ∪ Analyzer.visited st)
                           (Call_issue k None :: Analyzer.wtrace st) in
  map fst r = nub_from [] (neighbour_keys ls) /\
  forall before link_type other after,
    link_ends ls = before ++ (link_type, other) :: after ->
    exists links1 st1 nested st2,
      emit_all rec current_depth before [] st0 = Some (Return links1, st1) /\
      rec (linked_key other) (current_depth + 1) st1 = Some (Return nested, st2) /\
      (linked_key other ∈ Analyzer.visited st1 -> nested = [] /\ st2 = st1) /\
      ((forall p, In p after -> linked_key (snd p) <> linked_key other) ->
       dict_get (linked_key other) r
       = Some (Analyzer.LinkEntry link_type (linked_summary other)
                                  (linked_status other) nested)).
Proof.
  intros H Hcd Hfresh Hissue Hls. cbv zeta. simpl in H.
  replace (current_depth >? depth) with false in H
    by (symmetry; rewrite Z.gtb_ltb; apply Z.ltb_ge; lia).
  rewrite bool_decide_eq_false_2 in H by assumption. simpl in H.
  rewrite Hissue, Hls in H. split.
  - apply for_links_keys in H. exact H.
  - intros before ty other after Hends.
    rewrite for_links_is_emit_all, Hends in H.
    apply emit_all_split in H as (links1 & st1 & Hbefore & H).
    simpl in H. unfold Analyzer.walk_bind in H.
    destruct (Analyzer.emit (Analyzer.get_linked_issues J depth fuel) ty other
                current_depth links1 st1) as [[[links2|e] st2]|] eqn:E;
      try discriminate.
    pose proof E as Hstore. apply emit_stores in Hstore as (nested & Hrec & ->).
    exists links1, st1, nested, st2. repeat apply conj.
    + exact Hbefore.
    + exact Hrec.
    + intros Hvisited. destruct fuel as [|fuel']; [discriminate|].
      rewrite get_linked_issues_stops in Hrec by (right; exact Hvisited).
      inversion Hrec. auto.
    + intros Hlast. rewrite (emit_all_other _ _ _ _ _ _ _ _ H Hlast).
      apply dict_get_set_eq.
Qed.

Lemma every_link_gets_an_entry_witness :
  exists nested,
    dict_get (linked_key (neighbour "A"))
      [("A", Analyzer.LinkEntry "is blocked by" "Summary of A" "Open" [])]
    = Some (Analyzer.LinkEntry "is blocked by" (linked_summary (neighbour "A"))
                               (linked_status (neighbour "A")) nested) /\
    nested = [].
Proof.
  destruct (every_link_gets_an_entry blocks_session 2 1 "B" 2
              (Analyzer.Walk {[ "A" ]} [Call_issue "A" None])
              [("A", Analyzer.LinkEntry "is blocked by" "Summary of A" "Open" [])]
              (Analyzer.Walk {[ "B"; "A" ]} [Call_issue "B" None; Call_issue "A" None])
              (plain_issue "B" (Some [ {| type_outward := "blocks";
                                          type_inward := "is blocked by";
                                          outwardIssue := None;
                                          inwardIssue := Some (neighbour "A") |} ]))
              [ {| type_outward := "blocks"; type_inward := "is blocked by";
                   outwardIssue := None; inwardIssue := Some (neighbour "A") |} ])
    as [_ H].
  - vm_compute. reflexivity.
  - lia.
  - set_solver.
  - reflexivity.
  - reflexivity.
  - destruct (H [] "is blocked by" (neighbour "A") [] eq_refl)
      as (links1 & st1 & nested & st2 & Hbefore & _ & Hvisited & Hentry).
    exists nested. split.
    + apply Hentry. intros p [].
    + inversion Hbefore. subst. apply Hvisited. simpl. set_solver.
Defined.

(** ** More on the text analysis *)

Section TextMore.
Import Analyzer.
Variable py : PyLib.

Lemma count_comments_spec cs : forall acc acc',
  count_comments py acc cs = Return acc' ->
  exists days,
    Forall2 (fun c d => comment_day py c = Return d) cs days /\
    acc_frequency acc' = tally days (acc_frequency acc) /\
    acc_total_comments acc' = (acc_total_comments acc + length cs)%nat /\
    acc_total_comment_length acc'
    = (acc_total_comment_length acc + body_lengths cs)%nat.
Proof.
  induction cs as [|c cs IH]; intros acc acc'; simpl.
  - intros H. inversion H. subst. exists []. unfold body_lengths. simpl.
    repeat apply conj; try constructor; lia.
  - unfold count_comment.
    destruct (day_of py (str_prefix 10 (comment_created c))) as [day|] eqn:E;
      [|discriminate].
    intros H. apply IH in H as (days & Hdays & Hf & Ht & Hl). simpl in *.
    exists (day :: days). repeat apply conj.
    + constructor; assumption.
    + exact Hf.
    + lia.
    + unfold body_lengths in *. simpl. lia.
Qed.

Lemma count_comments_raises cs : forall acc e,
  count_comments py acc cs = Raise e ->
  exists c, In c cs /\ comment_day py c = Raise e.
Proof.
  induction cs as [|c cs IH]; intros acc e; simpl; [discriminate|].
  unfold count_comment.
  destruct (day_of py (str_prefix 10 (comment_created c))) as [day|e'] eqn:E.
  - intros H. apply IH in H as (c' & Hin & Hc'). eauto.
  - intros H. inversion H. subst. exists c. auto.
Qed.

Lemma count_comments_returns cs : forall acc,
  (forall c, In c cs -> exists d, comment_day py c = Return d) ->
  exists acc', count_comments py acc cs = Return acc'.
Proof.
  induction cs as [|c cs IH]; intros acc Hall; simpl; [eauto|].
  unfold count_comment.
  destruct (Hall c (or_introl eq_refl)) as [d Hd]. unfold comment_day in Hd. rewrite Hd.
  apply IH. intros c' Hc'. apply Hall. right. exact Hc'.
Qed.

Lemma scan_issues_comments issues : forall acc acc',
  scan_issues py acc issues = Return acc' ->
  exists days,
    Forall2 (fun c d => comment_day py c = Return d) (all_comments issues) days /\
    acc_frequency acc' = tally days (acc_frequency acc) /\
    acc_total_comments acc'
    = (acc_total_comments acc + length (all_comments issues))%nat /\
    acc_total_comment_length acc'
    = (acc_total_comment_length acc + body_lengths (all_comments issues))%nat.
Proof.
  induction issues as [|issue rest IH]; intros acc acc'; simpl.
  - intros H. inversion H. subst. exists []. unfold body_lengths. simpl.
    repeat apply conj; try constructor; lia.
  - unfold scan_issue.
    destruct (match comment issue with
              | Some cs => count_comments py _ cs
              | None => Return _
              end) as [acc2|e] eqn:E; [|discriminate].
    intros H. apply IH in H as (days2 & Hd2 & Hf2 & Ht2 & Hl2). simpl in *.
    assert (exists days1,
              Forall2 (fun c d => comment_day py c = Return d)
                      (default [] (comment issue)) days1 /\
              acc_frequency acc2 = tally days1 (acc_frequency acc) /\
              acc_total_comments acc2
              = (acc_total_comments acc + length (default [] (comment issue)))%nat /\
              acc_total_comment_length acc2
              = (acc_total_comment_length acc
                 + body_lengths (default [] (comment issue)))%nat)
      as (days1 & Hd1 & Hf1 & Ht1 & Hl1).
    { destruct (comment issue) as [cs|]; simpl.
      - apply count_comments_spec in E. exact E.
      - inversion E. subst. exists []. unfold body_lengths. simpl.
        repeat apply conj; try constructor; lia. }
    exists (days1 ++ days2). repeat apply conj.
    + apply Forall2_app; assumption.
    + rewrite tally_app, Hf2, Hf1. reflexivity.
    + rewrite length_app. lia.
    + unfold body_lengths in *. rewrite map_app, list_sum_app. lia.
Qed.

Lemma scan_issues_raises issues : forall acc e,
  scan_issues py acc issues = Raise e ->
  exists c, In c (all_comments issues) /\ comment_day py c = Raise e.
Proof.
  induction issues as [|issue rest IH]; intros acc e; simpl; [discriminate|].
  unfold scan_issue.
  destruct (match comment issue with
            | Some cs => count_comments py _ cs
            | None => Return _
            end) as [acc2|e'] eqn:E.
  - intros H. apply IH in H as (c & Hin & Hc). exists c. split; [|exact Hc].
    apply in_or_app. auto.
  - intros H. inversion H. subst.
    destruct (comment issue) as [cs|] eqn:Ecs; [|discriminate].
    apply count_comments_raises in E as (c & Hin & Hc). exists c. split; [|exact Hc].
    apply in_or_app. left. exact Hin.
Qed.

Lemma scan_issues_returns issues : forall acc,
  (forall c, In c (all_comments issues) -> exists d, comment_day py c = Return d) ->
  exists acc', scan_issues py acc issues = Return acc'.
Proof.
  induction issues as [|issue rest IH]; intros acc Hall; simpl; [eauto|].
  unfold scan_issue.
  assert (exists acc2,
            match comment issue with
            | Some cs =>
                count_comments py
                  {| acc_terms := tally (description_words py issue) (acc_terms acc);
                     acc_labels := acc_labels acc;
                     acc_components := acc_components acc;
                     acc_total_comments := acc_total_comments acc;
                     acc_frequency := acc_frequency acc;
                     acc_total_comment_length := acc_total_comment_length acc |} cs
            | None =>
                Return
                  {| acc_terms := tally (description_words py issue) (acc_terms acc);
                     acc_labels := acc_labels acc;
                     acc_components := acc_components acc;
                     acc_total_comments := acc_total_comments acc;
                     acc_frequency := acc_frequency acc;
                     acc_total_comment_length := acc_total_comment_length acc |}
            end = Return acc2) as [acc2 ->].
  { destruct (comment issue) as [cs|] eqn:Ecs; [|eauto].
    apply count_comments_returns. intros c Hc. apply Hall.
    simpl. rewrite Ecs. apply in_or_app. left. exact Hc. }
  apply IH. intros c Hc. apply Hall. simpl. apply in_or_app. right. exact Hc.
Qed.

Lemma analyze_issues_tables issues a :
  analyze_issues py issues = Return a ->
  common_terms a
  = firstn 50 (sorted_desc (tally (flat_map (description_words py) issues) [])) /\
  mentions a = [].
Proof.
  unfold analyze_issues.
  destruct (scan_issues py empty_accumulator issues) as [acc|] eqn:E; [|discriminate].
  apply scan_issues_streams in E as (Ht & _). simpl in Ht.
  destruct (summarize_returns acc) as (a' & Hsum & _). rewrite Hsum.
  intros H. inversion H. subst a'. unfold summarize in Hsum.
  destruct (if (0 <? acc_total_comments acc)%nat then _ else _); [|discriminate].
  inversion Hsum. simpl. rewrite Ht. auto.
Qed.

End TextMore.

Example len_counts_characters :
  len "héllo" = 5%nat /\
  str_prefix 2 "héllo" = "hé" /\
  Analyzer.long_words example_py "één naïve café" = ["naïve"; "café"].
Proof. vm_compute. repeat apply conj; reflexivity. Qed.

(** X7. When the text analysis returns, [total_comments] is the number
    of comments of the issues sent, [avg_comment_length] is the quotient of
    the summed lengths of the comment bodies, counted in characters as
    [len] does, by that number (and the integer 0 when there is no comment),
    [comment_frequency] counts every comment once under the day read from
    the first ten characters of its creation date, so that its counts add up
    to [total_comments], and [mentions] is empty: nothing ever fills it. *)
Theorem comment_statistics (py : Analyzer.PyLib) (issues : list Issue)
    (a : Analyzer.analysis) :
  Analyzer.analyze_issues py issues = Return a ->
  Analyzer.total_comments a = length (all_comments issues) /\
  Analyzer.avg_comment_length a =
    match length (all_comments issues) with
    | O => Analyzer.IntZero
    | S _ => Analyzer.Quotient (body_lengths (all_comments issues))
                               (length (all_comments issues))
    end /\
  (exists days,
     Forall2 (fun c d => comment_day py c = Return d) (all_comments issues) days /\
     counts_all days (Analyzer.comment_frequency a)) /\
  sum_counts (Analyzer.comment_frequency a) = Analyzer.total_comments a /\
  Analyzer.mentions a = [].
Proof.
  intros H. pose proof (analyze_issues_tables py issues a H) as [_ Hmentions].
  unfold Analyzer.analyze_issues in H.
  destruct (Analyzer.scan_issues py Analyzer.empty_accumulator issues) as [acc|] eqn:E;
    [|discriminate].
  apply scan_issues_comments in E as (days & Hdays & Hf & Ht & Hl). simpl in Hf, Ht, Hl.
  destruct (summarize_returns acc) as (a' & Hsum & Htotal & Havg).
  rewrite Hsum in H. inversion H. subst a'. clear H.
  assert (Analyzer.comment_frequency a = tally days []) as Hfreq.
  { unfold Analyzer.summarize in Hsum.
    destruct (if (0 <? Analyzer.acc_total_comments acc)%nat then _ else _);
      [|discriminate].
    inversion Hsum. simpl. exact Hf. }
  rewrite Htotal, Havg, Ht, Hl, Hfreq.
  refine (conj eq_refl (conj eq_refl (conj _ (conj _ Hmentions)))).
  - exists days. split; [exact Hdays | apply tally_counts_all].
  - rewrite sum_counts_tally. simpl.
    apply Forall2_length in Hdays. lia.
Qed.

Lemma comment_statistics_witness :
  Analyzer.total_comments web_analysis = 1%nat /\
  Analyzer.avg_comment_length web_analysis = Analyzer.Quotient 10 1 /\
  sum_counts (Analyzer.comment_frequency web_analysis) = 1%nat.
Proof.
  assert (Analyzer.analyze_issues example_py [login_issue; quiet_issue]
          = Return web_analysis) as Hrun by (vm_compute; reflexivity).
  destruct (comment_statistics example_py [login_issue; quiet_issue] web_analysis Hrun)
    as (Ht & Ha & _ & Hs & _).
  repeat apply conj.
  - exact Ht.
  - exact Ha.
  - rewrite Hs. exact Ht.
Defined.

Lemma Forall2_In_left {A B} (P : A -> B -> Prop) l k x :
  Forall2 P l k -> In x l -> exists y, In y k /\ P x y.
Proof.
  induction 1 as [|a b l k Hab _ IH]; simpl; [intros []|].
  intros [<-|Hin]; [eauto|]. destruct (IH Hin) as (y & Hy & Hxy). eauto.
Qed.

(** X8. The text analysis fails exactly on a comment date the library
    rejects: when every comment's date can be read the analysis returns, and
    when it raises, the exception is the one raised for the date of one of
    the comments.  One bad date loses the whole analysis. *)
Theorem analysis_fails_only_on_bad_dates (py : Analyzer.PyLib) (issues : list Issue) :
  (forall e, Analyzer.analyze_issues py issues = Raise e ->
     exists c, In c (all_comments issues) /\ comment_day py c = Raise e) /\
  ((forall c, In c (all_comments issues) -> exists d, comment_day py c = Return d) ->
   exists a, Analyzer.analyze_issues py issues = Return a) /\
  (forall c, In c (all_comments issues) ->
     (exists e, comment_day py c = Raise e) ->
     exists e, Analyzer.analyze_issues py issues = Raise e).
Proof.
  repeat apply conj.
  - intros e. unfold Analyzer.analyze_issues.
    destruct (Analyzer.scan_issues py Analyzer.empty_accumulator issues) as [acc|e'] eqn:E.
    + destruct (summarize_returns acc) as (a & -> & _). discriminate.
    + intros H. inversion H. subst. eapply scan_issues_raises. exact E.
  - intros Hall. unfold Analyzer.analyze_issues.
    destruct (scan_issues_returns py issues Analyzer.empty_accumulator Hall) as [acc ->].
    destruct (summarize_returns acc) as (a & -> & _). eauto.
  - intros c Hc [e He].
    destruct (Analyzer.analyze_issues py issues) as [a|e'] eqn:E; [|eauto].
    exfalso. unfold Analyzer.analyze_issues in E.
    destruct (Analyzer.scan_issues py Analyzer.empty_accumulator issues) as [acc|] eqn:Es;
      [|discriminate].
    apply scan_issues_comments in Es as (days & Hdays & _).
    apply (Forall2_In_left _ _ _ _ Hdays) in Hc.
    destruct Hc as (d & _ & Hd). congruence.
Qed.

Lemma analysis_fails_only_on_bad_dates_witness :
  (exists e, Analyzer.analyze_issues example_py [login_issue; badly_dated_issue] = Raise e) /\
  (exists a, Analyzer.analyze_issues example_py [login_issue; quiet_issue] = Return a).
Proof.
  split.
  - destruct (analysis_fails_only_on_bad_dates example_py [login_issue; badly_dated_issue])
      as (_ & _ & H).
    apply (H {| comment_author := "importer"; comment_created := "yesterday";
                comment_body := "Migrated"; comment_updated := "yesterday" |}).
    + simpl. auto.
    + eexists. vm_compute. reflexivity.
  - destruct (analysis_fails_only_on_bad_dates example_py [login_issue; quiet_issue])
      as (_ & H & _).
    apply H. intros c [<-|[]]. eexists. vm_compute. reflexivity.
Defined.

(** X9. Every term of [common_terms] is a word of the lower-cased
    description of one of the issues, split at white space, and is longer
    than three characters ([len] counts characters, so a word of three
    accented letters is left out); issues whose description is missing or
    empty contribute nothing. *)
Theorem terms_are_long_description_words (py : Analyzer.PyLib) (issues : list Issue)
    (a : Analyzer.analysis) :
  Analyzer.analyze_issues py issues = Return a ->
  forall w n, In (w, n) (Analyzer.common_terms a) ->
    (3 < len w)%nat /\
    exists issue text,
      In issue issues /\ description issue = Some text /\ text <> "" /\
      In w (Analyzer.str_split py (Analyzer.str_lower py text)).
Proof.
  intros H w n Hin.
  apply analyze_issues_tables in H as [Hterms _]. rewrite Hterms in Hin.
  pose proof (top_terms_spec (flat_map (Analyzer.description_words py) issues))
    as (_ & _ & _ & Hcount & _).
  apply Hcount in Hin as [Hw _].
  apply in_flat_map in Hw as (issue & Hissue & Hw).
  unfold Analyzer.description_words in Hw.
  destruct (description issue) as [text|] eqn:Ed; [|destruct Hw].
  simpl in Hw. destruct (String.eqb text "") eqn:Ee; simpl in Hw; [destruct Hw|].
  unfold Analyzer.long_words in Hw. apply filter_In in Hw as [Hsplit Hlen].
  apply Nat.ltb_lt in Hlen. split; [exact Hlen|].
  exists issue, text. apply String.eqb_neq in Ee. auto.
Qed.

Lemma terms_are_long_description_words_witness :
  (3 < len "login")%nat /\
  exists issue text,
    In issue [login_issue; quiet_issue] /\ description issue = Some text /\ text <> "" /\
    In "login" (split_from [] (lower text)).
Proof.
  apply (terms_are_long_description_words example_py [login_issue; quiet_issue]
           web_analysis ltac:(vm_compute; reflexivity) "login" 2%nat).
  simpl. auto.
Defined.

(** ** More on cross-project references *)

Section CrossMore.
Import Analyzer.
Variable J : JIRA.
Variable project : string.

Lemma dict_append_get {A} k rp (x : A) d :
  default [] (dict_get k (dict_append rp x d))
  = if String.eqb k rp then default [] (dict_get k d) ++ [x] else default [] (dict_get k d).
Proof.
  unfold dict_append. destruct (String.eqb k rp) eqn:E.
  - apply String.eqb_eq in E. subst. rewrite dict_get_set_eq. reflexivity.
  - apply String.eqb_neq in E. rewrite dict_get_set_ne by congruence. reflexivity.
Qed.

Lemma dict_append_no_empty {A} rp (x : A) d :
  no_empty_list d -> no_empty_list (dict_append rp x d).
Proof.
  intros Hd k. unfold dict_append. destruct (string_dec rp k) as [<-|Hne].
  - rewrite dict_get_set_eq. intros H. inversion H.
    destruct (default [] (dict_get rp d)); discriminate.
  - rewrite dict_get_set_ne by assumption. apply Hd.
Qed.

Lemma fold_dict_append {A B} (f : B -> A) rp xs : forall d k,
  default [] (dict_get k (fold_left (fun d x => dict_append rp (f x) d) xs d))
  = if String.eqb k rp then default [] (dict_get k d) ++ map f xs
    else default [] (dict_get k d).
Proof.
  induction xs as [|x xs IH]; intros d k; simpl.
  - destruct (String.eqb k rp); [rewrite app_nil_r|]; reflexivity.
  - rewrite IH, dict_append_get.
    destruct (String.eqb k rp); [rewrite <- app_assoc|]; reflexivity.
Qed.

Lemma fold_dict_append_no_empty {A B} (f : B -> A) rp xs : forall d,
  no_empty_list d ->
  no_empty_list (fold_left (fun d x => dict_append rp (f x) d) xs d).
Proof.
  induction xs as [|x xs IH]; intros d Hd; simpl; [exact Hd|].
  apply IH, dict_append_no_empty, Hd.
Qed.

Lemma cross_reference_inv refs rp (s : state) refs' s' :
  cross_reference J project refs rp s = (Return refs', s') ->
  exists out inc,
    api_search_issues J (mention_jql project rp) 100 None = Return out /\
    api_search_issues J (mention_jql rp project) 100 None = Return inc /\
    outgoing refs'
    = fold_left (fun d issue => dict_append rp (reference_of J issue) d) out
                (outgoing refs) /\
    incoming refs'
    = fold_left (fun d issue => dict_append rp (reference_of J issue) d) inc
                (incoming refs) /\
    related_issues refs' = related_issues refs /\
    trace s' = rev (cross_calls J project rp) ++ trace s.
Proof.
  unfold cross_reference, cross_calls, bind, remote, component_names.
  destruct (api_search_issues J (mention_jql project rp) 100 None) as [out|] eqn:Eo;
    [|discriminate].
  destruct (api_search_issues J (mention_jql rp project) 100 None) as [inc|] eqn:Ei;
    [|discriminate].
  destruct (api_project_components J) as [components_of|].
  - unfold bind, remote, ret.
    destruct (components_of project); [|discriminate].
    destruct (components_of rp); [|discriminate].
    intros H. inversion H. subst. exists out, inc. destruct s. simpl. auto 10.
  - intros H. inversion H. subst. exists out, inc. destruct s. simpl. auto 10.
Qed.

Lemma cross_references_tables related : forall refs (s : state) r s',
  cross_references J project refs related s = (Return r, s') ->
  (forall k,
     default [] (dict_get k (outgoing r))
     = default [] (dict_get k (outgoing refs))
       ++ concat (repeat (mention_records J project k) (count_occ string_dec related k)) /\
     default [] (dict_get k (incoming r))
     = default [] (dict_get k (incoming refs))
       ++ concat (repeat (mention_records J k project) (count_occ string_dec related k))) /\
  (no_empty_list (outgoing refs) -> no_empty_list (outgoing r)) /\
  (no_empty_list (incoming refs) -> no_empty_list (incoming r)) /\
  related_issues r = related_issues refs /\
  trace s' = rev (flat_map (cross_calls J project) related) ++ trace s.
Proof.
  induction related as [|rp rest IH]; intros refs s r s'; simpl.
  - intros H. inversion H. subst. repeat apply conj; auto.
    intros k. rewrite !app_nil_r. auto.
  - unfold bind at 1.
    destruct (cross_reference J project refs rp s) as [[refs1|e] s1] eqn:E;
      [|discriminate].
    intros H. apply IH in H as (Hget & Hout & Hinc & Hrel & Htrace).
    apply cross_reference_inv in E as (out & inc & Eo & Ei & Ho & Hi & Hr & Ht).
    repeat apply conj.
    + intros k. destruct (Hget k) as [H1 H2]. rewrite H1, H2, Ho, Hi.
      rewrite !fold_dict_append.
      destruct (string_dec rp k) as [<-|Hne].
      * rewrite String.eqb_refl. simpl. unfold mention_records. rewrite Eo, Ei.
        rewrite <- !app_assoc. auto.
      * replace (String.eqb k rp) with false
          by (symmetry; apply String.eqb_neq; congruence).
        auto.
    + intros Hne. apply Hout. rewrite Ho. apply fold_dict_append_no_empty, Hne.
    + intros Hne. apply Hinc. rewrite Hi. apply fold_dict_append_no_empty, Hne.
    + congruence.
    + transitivity (rev (cross_calls J project rp ++ flat_map (cross_calls J project) rest)
                    ++ trace s); [|reflexivity].
      rewrite rev_app_distr, <- app_assoc, Htrace, Ht. reflexivity.
Qed.

End CrossMore.

(** X10. When [get_cross_project_references] returns, the list read
    from [outgoing] at a project is the records of the main project's issues
    that mention it, and the list read from [incoming] the records of its
    issues that mention the main project, each in the order of the search
    answer, and repeated as many times as the project occurs in the input
    list (a project named twice is searched and listed twice).  A project
    without such issues has no key at all, and [related_issues] stays
    empty. *)
Theorem reference_tables_list_search_answers (J : JIRA) (project : string)
    (related : list string) (s : Analyzer.state) (r : Analyzer.references)
    (s' : Analyzer.state) :
  Analyzer.jira (self s) = Some J ->
  Analyzer.get_cross_project_references project related s = (Return r, s') ->
  (forall k,
     default [] (dict_get k (Analyzer.outgoing r))
     = concat (repeat (mention_records J project k) (count_occ string_dec related k)) /\
     default [] (dict_get k (Analyzer.incoming r))
     = concat (repeat (mention_records J k project) (count_occ string_dec related k)) /\
     dict_get k (Analyzer.outgoing r) <> Some [] /\
     dict_get k (Analyzer.incoming r) <> Some []) /\
  Analyzer.related_issues r = [].
Proof.
  intros HJ. unfold Analyzer.get_cross_project_references, bind, Analyzer.connected.
  rewrite HJ. intros H.
  apply cross_references_tables in H as (Hget & Hout & Hinc & Hrel & _).
  split; [|exact Hrel].
  intros k. destruct (Hget k) as [H1 H2]. simpl in H1, H2.
  repeat apply conj; try assumption.
  - apply Hout. intros k'. discriminate.
  - apply Hinc. intros k'. discriminate.
Qed.

Example mention_run :
  exists s',
    Analyzer.get_cross_project_references "WEB" ["APP"; "OPS"; "APP"] mention_state
    = (Return {| Analyzer.outgoing :=
                   [("APP", map (Analyzer.reference_of mention_session)
                                [login_issue; quiet_issue; login_issue; quiet_issue])];
                 Analyzer.incoming :=
                   [("APP", map (Analyzer.reference_of mention_session)
                                [bug_issue; bug_issue])];
                 Analyzer.shared_components := [];
                 Analyzer.related_issues := [] |}, s').
Proof. eexists. vm_compute. reflexivity. Qed.

Lemma reference_tables_list_search_answers_witness :
  exists r s',
    Analyzer.get_cross_project_references "WEB" ["APP"; "OPS"; "APP"] mention_state
    = (Return r, s') /\
    default [] (dict_get "APP" (Analyzer.outgoing r))
    = map (Analyzer.reference_of mention_session)
          [login_issue; quiet_issue; login_issue; quiet_issue] /\
    dict_get "OPS" (Analyzer.outgoing r) <> Some [].
Proof.
  destruct (Analyzer.get_cross_project_references "WEB" ["APP"; "OPS"; "APP"]
              mention_state) as [[r|e] s'] eqn:Hrun; [|vm_compute in Hrun; discriminate Hrun].
  exists r, s'. split; [reflexivity|].
  destruct (reference_tables_list_search_answers mention_session "WEB"
              ["APP"; "OPS"; "APP"] mention_state r s' eq_refl Hrun) as [H _].
  split.
  - destruct (H "APP") as (Hout & _). rewrite Hout. vm_compute. reflexivity.
  - destruct (H "OPS") as (_ & _ & Hne & _). exact Hne.
Defined.

(** X11. When [get_cross_project_references] returns, the calls it
    made are, for each project of the input list in turn: the search for the
    main project's mentions, the search for the related project's mentions,
    and, when the client has component data, the components of the main
    project and then of the related project.  So the main project's
    components are asked for again for every related project, and an empty
    list makes no call and returns empty tables. *)
Theorem cross_reference_calls (J : JIRA) (project : string) (s : Analyzer.state) :
  Analyzer.jira (self s) = Some J ->
  (forall related r s',
     Analyzer.get_cross_project_references project related s = (Return r, s') ->
     trace s' = rev (flat_map (cross_calls J project) related) ++ trace s) /\
  Analyzer.get_cross_project_references project [] s
  = (Return Analyzer.empty_references, s).
Proof.
  intros HJ. split.
  - intros related r s'.
    unfold Analyzer.get_cross_project_references, bind, Analyzer.connected.
    rewrite HJ. intros H.
    apply cross_references_tables in H as (_ & _ & _ & _ & Ht). exact Ht.
  - unfold Analyzer.get_cross_project_references, bind, Analyzer.connected.
    rewrite HJ. reflexivity.
Qed.

Lemma cross_reference_calls_witness :
  exists r s',
    Analyzer.get_cross_project_references "WEB" ["APP"; "PAY"] component_state
    = (Return r, s') /\
    trace s'
    = [ Call_project_components "PAY"; Call_project_components "WEB";
        Call_search_issues (Analyzer.mention_jql "PAY" "WEB") 100 None;
        Call_search_issues (Analyzer.mention_jql "WEB" "PAY") 100 None;
        Call_project_components "APP"; Call_project_components "WEB";
        Call_search_issues (Analyzer.mention_jql "APP" "WEB") 100 None;
        Call_search_issues (Analyzer.mention_jql "WEB" "APP") 100 None ].
Proof.
  destruct (Analyzer.get_cross_project_references "WEB" ["APP"; "PAY"] component_state)
    as [[r|e] s'] eqn:Hrun; [|vm_compute in Hrun; discriminate Hrun].
  exists r, s'. split; [reflexivity|].
  destruct (cross_reference_calls component_session "WEB" component_state eq_refl)
    as [H _].
  rewrite (H _ _ _ Hrun). reflexivity.
Defined.

(** ** Connecting, then calling *)

(** X12. When [connect] returns [True] the analyzer holds the session
    the client constructor returned (in the token-only class: one that also
    passed the [myself] check, with the server URL recorded).  From then on
    the operations are answered by that session instead of raising "Not
    connected": asking for a project's information makes one [project] call
    after the calls of [connect], and returns the project's key, name, lead
    and description, or raises what the call raised. *)
Theorem connect_then_call :
  (forall net server username api_token (s : Analyzer.state),
     fst (Analyzer.connect net server username api_token s) = Return Analyzer.PyTrue ->
     exists J,
       net (JIRA_options true 30 server (credentials username api_token)) = Return J /\
       Analyzer.jira (self (snd (Analyzer.connect net server username api_token s)))
       = Some J) /\
  (forall net server username api_token (s : Server.state),
     fst (Server.connect net server username api_token s) = Return Analyzer.PyTrue ->
     exists J,
       net (JIRA_server server (credentials username api_token)) = Return J /\
       forall p,
         Server.get_project_info p (snd (Server.connect net server username api_token s))
         = (match api_project J p with
            | Return project => Return (project_info_of project)
            | Raise e => Raise e
            end,
            System {| Server.jira := Some J |}
                   (Call_project p
                    :: Call_JIRA (JIRA_server server (credentials username api_token))
                    :: trace s))) /\
  (forall net server api_token (s : TokenServer.state),
     fst (TokenServer.connect net server api_token s) = Return Analyzer.PyTrue ->
     exists J,
       net (JIRA_server server (token_auth api_token)) = Return J /\
       api_myself J = Return tt /\
       forall p,
         TokenServer.get_project_info p (snd (TokenServer.connect net server api_token s))
         = (match api_project J p with
            | Return project => Return (project_info_of project)
            | Raise e => Raise e
            end,
            System {| TokenServer.jira := Some J; TokenServer.server := Some server |}
                   (Call_project p :: Call_myself
                    :: Call_JIRA (JIRA_server server (token_auth api_token))
                    :: trace s))).
Proof.
  repeat apply conj.
  - intros net server username api_token s. rewrite analyzer_connect_eq. cbv zeta. simpl.
    destruct (net _) as [J|e]; simpl; [eauto | discriminate].
  - intros net server username api_token s. rewrite server_connect_eq. cbv zeta. simpl.
    destruct (net _) as [J|e]; simpl; [|discriminate].
    intros _. exists J. split; [reflexivity|]. intros p.
    unfold Server.get_project_info, bind, Server.connected, remote, ret. simpl.
    destruct (api_project J p); reflexivity.
  - intros net server api_token s. rewrite token_connect_eq. cbv zeta.
    destruct (net _) as [J|e]; simpl; [|discriminate].
    destruct (api_myself J) as [[]|e] eqn:Hme; simpl; [|discriminate].
    intros _. exists J. split; [reflexivity|]. split; [exact Hme|]. intros p.
    unfold TokenServer.get_project_info, bind, TokenServer.connected, remote, ret. simpl.
    destruct (api_project J p); reflexivity.
Qed.

Lemma connect_then_call_witness :
  exists J,
    project_network
      (JIRA_server "https://jira.example.org" (credentials (Some "me") (Some "t")))
    = Return J /\
    Server.get_project_info "WEB"
      (snd (Server.connect project_network "https://jira.example.org" (Some "me") (Some "t")
              (System Server.init [])))
    = (Return {| pi_key := "WEB"; pi_name := "Web shop"; pi_lead := "lead";
                 pi_description := "The shop front end" |},
       System {| Server.jira := Some project_session |}
              [Call_project "WEB";
               Call_JIRA (JIRA_server "https://jira.example.org" (basic_auth "me" "t"))]).
Proof.
  destruct connect_then_call as (_ & H & _).
  destruct (H project_network "https://jira.example.org" (Some "me") (Some "t")
              (System Server.init []) eq_refl) as (J & HJ & Hp).
  exists J. split; [exact HJ|].
  rewrite Hp. vm_compute in HJ. inversion HJ. subst J. reflexivity.
Defined.

(** ** Issue details *)

(** X13. [get_issue_details] fetches the issue once.  When the answer
    has no [comment] attribute it raises an [AttributeError] although the
    fetch succeeded.  Otherwise it returns the comments in order, one history
    record per change item, one link record per link end (outward before
    inward, the same keys the relationship walk meets), the key the tracker
    reports and the browse URL built from it.  The token-only class behaves
    alike on comments. *)
Theorem issue_details_shape (J : JIRA) (k : string) (issue : Issue) :
  (forall s : Analyzer.state,
     Analyzer.jira (self s) = Some J ->
     api_issue J k expand_all = Return issue ->
     (comment issue = None ->
      exists e, exn_class e = "AttributeError" /\
                Analyzer.get_issue_details k s
                = (Raise e, log (Call_issue k expand_all) s)) /\
     (forall cs, comment issue = Some cs ->
      exists d,
        Analyzer.get_issue_details k s = (Return d, log (Call_issue k expand_all) s) /\
        map Analyzer.cr_body (Analyzer.d_comments d) = map comment_body cs /\
        length (Analyzer.d_history d) = change_count (default [] (changelog issue)) /\
        map Analyzer.lr_key (Analyzer.d_links d)
        = neighbour_keys (default [] (issuelinks issue)) /\
        Analyzer.d_key d = key issue /\
        Analyzer.d_url d = server_url J +:+ "/browse/" +:+ key issue)) /\
  (forall s : TokenServer.state,
     TokenServer.jira (self s) = Some J ->
     api_issue J k None = Return issue ->
     (comment issue = None ->
      exists e, exn_class e = "AttributeError" /\
                TokenServer.get_issue_details k s = (Raise e, log (Call_issue k None) s)) /\
     (forall cs, comment issue = Some cs ->
      exists d,
        TokenServer.get_issue_details k s = (Return d, log (Call_issue k None) s) /\
        map Analyzer.cr_body (TokenServer.d_comments d) = map comment_body cs /\
        TokenServer.d_key d = key issue /\
        TokenServer.d_labels d = labels issue)).
Proof.
  split; intros s HJ Hissue; split.
  - intros Hnone. eexists. split; [|
      unfold Analyzer.get_issue_details, bind, Analyzer.connected, remote, Analyzer.getattr;
      rewrite HJ; unfold expand_all in Hissue; rewrite Hissue, Hnone; reflexivity].
    reflexivity.
  - intros cs Hcs. eexists. split; [
      unfold Analyzer.get_issue_details, bind, Analyzer.connected, remote, Analyzer.getattr,
        ret;
      rewrite HJ; unfold expand_all in Hissue; rewrite Hissue, Hcs; reflexivity|].
    simpl. repeat apply conj; try reflexivity.
    + rewrite map_map. reflexivity.
    + unfold change_count. destruct (changelog issue) as [hs|]; simpl; [|reflexivity].
      induction hs as [|h hs IH]; simpl; [reflexivity|].
      rewrite length_app, length_map, IH. reflexivity.
    + unfold neighbour_keys. destruct (issuelinks issue) as [ls|]; simpl; [|reflexivity].
      induction ls as [|l ls IH]; simpl; [reflexivity|].
      rewrite map_app, IH.
      destruct (outwardIssue l), (inwardIssue l); reflexivity.
  - intros Hnone. eexists. split; [|
      unfold TokenServer.get_issue_details, bind, TokenServer.connected, remote;
      rewrite HJ, Hissue, Hnone; reflexivity].
    reflexivity.
  - intros cs Hcs. eexists. split; [
      unfold TokenServer.get_issue_details, bind, TokenServer.connected, remote, ret;
      rewrite HJ, Hissue, Hcs; reflexivity|].
    simpl. repeat apply conj; try reflexivity.
    rewrite map_map. reflexivity.
Qed.

Lemma issue_details_shape_witness :
  (exists d,
     Analyzer.get_issue_details "WEB-5"
       (System {| Analyzer.jira := Some project_session |} [])
     = (Return d, log (Call_issue "WEB-5" expand_all)
                      (System {| Analyzer.jira := Some project_session |} [])) /\
     length (Analyzer.d_history d) = 2%nat /\
     map Analyzer.lr_key (Analyzer.d_links d) = ["WEB-6"; "WEB-1"]) /\
  (exists e, exn_class e = "AttributeError" /\
     Analyzer.get_issue_details "WEB-2"
       (System {| Analyzer.jira := Some project_session |} [])
     = (Raise e, log (Call_issue "WEB-2" expand_all)
                     (System {| Analyzer.jira := Some project_session |} []))).
Proof.
  split.
  - destruct (issue_details_shape project_session "WEB-5" storied_issue) as [H _].
    destruct (H (System {| Analyzer.jira := Some project_session |} []) eq_refl eq_refl)
      as [_ Hsome].
    destruct (Hsome _ eq_refl) as (d & Hrun & _ & Hh & Hl & _).
    exists d. repeat apply conj; assumption.
  - destruct (issue_details_shape project_session "WEB-2" quiet_issue) as [H _].
    destruct (H (System {| Analyzer.jira := Some project_session |} []) eq_refl eq_refl)
      as [Hnone _].
    apply Hnone. reflexivity.
Defined.

(** ** The connection tools *)

(** X14. Each [connect_to_jira] tool turns the outcome of [connect]
    into a message and changes the state exactly as [connect] does: the
    success text when the session was established, and otherwise "Failed to
    connect: " followed by the text of the exception.  The token-only tool
    does not call [connect] at all when the token is missing or empty: it
    asks for a token and leaves the state alone. *)
Theorem tool_reports_connection_outcome :
  (forall net server username api_token (s : Analyzer.state),
     ToolServer.connect_to_jira net server username api_token s
     = (Return match net (JIRA_options true 30 server (credentials username api_token)) with
               | Return _ => "Successfully connected to JIRA in read-only mode"
               | Raise e => "Failed to connect: " +:+ str e
               end,
        snd (Analyzer.connect net server username api_token s))) /\
  (forall net server username api_token (s : Server.state),
     Server.connect_to_jira net server username api_token s
     = (Return match net (JIRA_server server (credentials username api_token)) with
               | Return _ => "Successfully connected to JIRA"
               | Raise e => "Failed to connect: " +:+ str e
               end,
        snd (Server.connect net server username api_token s))) /\
  (forall net server api_token (s : TokenServer.state),
     truthy api_token = true ->
     TokenServer.connect_to_jira net server api_token s
     = (Return match net (JIRA_server server (token_auth api_token)) with
               | Return J => match api_myself J with
                             | Return _ => "Successfully connected to JIRA"
                             | Raise e => "Failed to connect: " +:+ str e
                             end
               | Raise e => "Failed to connect: " +:+ str e
               end,
        snd (TokenServer.connect net server api_token s))) /\
  (forall net server api_token (s : TokenServer.state),
     truthy api_token = false ->
     TokenServer.connect_to_jira net server api_token s
     = (Return "Please provide your JIRA API token", s)).
Proof.
  repeat apply conj.
  - intros. unfold ToolServer.connect_to_jira, bind. rewrite analyzer_connect_eq.
    cbv zeta. destruct (net _); reflexivity.
  - intros. unfold Server.connect_to_jira, bind. rewrite server_connect_eq.
    cbv zeta. destruct (net _); reflexivity.
  - intros net server api_token s Htoken. unfold TokenServer.connect_to_jira, bind.
    rewrite Htoken, token_connect_eq. cbv zeta.
    destruct (net _) as [J|e]; [destruct (api_myself J)|]; reflexivity.
  - intros net server api_token s Htoken. unfold TokenServer.connect_to_jira.
    rewrite Htoken. reflexivity.
Qed.

Lemma tool_reports_connection_outcome_witness :
  TokenServer.connect_to_jira closed_network "https://jira.example.org" (Some "secret")
    (System TokenServer.init [])
  = (Return "Failed to connect: Unauthorized",
     System {| TokenServer.jira := None;
               TokenServer.server := Some "https://jira.example.org" |}
            [Call_JIRA (JIRA_server "https://jira.example.org" (token_auth (Some "secret")))])
  /\
  TokenServer.connect_to_jira closed_network "https://jira.example.org" (Some "")
    (System TokenServer.init [])
  = (Return "Please provide your JIRA API token", System TokenServer.init []).
Proof.
  destruct tool_reports_connection_outcome as (_ & _ & Hcall & Hskip).
  split.
  - rewrite (Hcall closed_network "https://jira.example.org" (Some "secret")
               (System TokenServer.init []) eq_refl).
    reflexivity.
  - apply (Hskip closed_network "https://jira.example.org" (Some "")
             (System TokenServer.init [])).
    reflexivity.
Defined.
